(** * Discord voice client core: RTP send and receive paths, per-speaker buffer

    A shallow embedding of
      - src/audioEncodingWorker.ts   (the [init] and [encode] worker messages),
      - src/audioDecodingWorker.ts   ([extractOpusFromRTP], the [decode] message),
      - src/audioBufferManager.ts    ([AudioBufferManager]),
      - src/threadedWebrtcVoiceHandler.ts (UDP receive handler, [playAudio],
        [startDirectTransmission], [setSpeaking], voice op dispatch),
    and the properties of the voice-core specification stated over it.

    Conventions.  A Node [Buffer] is a [list byte].  JavaScript numbers that
    hold counters, lengths and wall-clock milliseconds are [Z] (or [nat] for
    indices and lengths); the one floating-point quantity, the estimated
    duration of a buffer, is an exact rational.  The two native libraries the
    workers call, tweetnacl's [secretbox] and the Opus codec, are the fields
    of the class [Native]; every function that reaches them takes an
    instance, and the properties hold for all instances unless they name
    one. *)

From Stdlib Require Import ZArith QArith Lia List Bool.
From Stdlib Require Import Strings.Byte.
From stdpp Require Import base option list strings gmap pretty.

Local Open Scope Z_scope.

(** ** Bytes and Buffer primitives *)

Module Buf.

Abbreviation Buffer := (list byte).

Definition Z_of_byte (b : byte) : Z := Z.of_N (Byte.to_N b).

Definition byte_of_Z (z : Z) : byte :=
  match Byte.of_N (Z.to_N (z mod 256)) with
  | Some b => b
  | None => x00
  end.

(** [Buffer.alloc(n)]: [n] zero bytes. *)
Definition alloc (n : nat) : Buffer := repeat x00 n.

(** [buf.writeUInt16BE(v, _)] and [buf.writeUInt32BE(v, _)]: the bytes
    written, most significant first.  Node checks the value and throws
    [ERR_OUT_OF_RANGE] when it is not an unsigned integer of the width;
    [None] stands for that exception. *)
Definition writeUInt16BE (v : Z) : option Buffer :=
  if bool_decide (0 <= v <= 65535)
  then Some [byte_of_Z (v / 256); byte_of_Z v]
  else None.

Definition writeUInt32BE (v : Z) : option Buffer :=
  if bool_decide (0 <= v <= 4294967295)
  then Some [byte_of_Z (v / 16777216); byte_of_Z (v / 65536);
             byte_of_Z (v / 256); byte_of_Z v]
  else None.

(** [buf[i]] as a number; every read in the modelled code is guarded by a
    length test, the default is never observed there. *)
Definition at_ (buf : Buffer) (i : nat) : Z :=
  match buf !! i with
  | Some b => Z_of_byte b
  | None => 0
  end.

Definition readUInt16BE (buf : Buffer) (off : nat) : Z :=
  at_ buf off * 256 + at_ buf (off + 1).

Definition readUInt32BE (buf : Buffer) (off : nat) : Z :=
  at_ buf off * 16777216 + at_ buf (off + 1) * 65536
  + at_ buf (off + 2) * 256 + at_ buf (off + 3).

(** [buf.slice(a)], [buf.slice(a, -k)] and [buf.slice(-k)] for
    non-negative [a] and [k]. *)
Definition slice_from (a : nat) (buf : Buffer) : Buffer := drop a buf.

Definition slice_between (a k : nat) (buf : Buffer) : Buffer :=
  take (length buf - k - a) (drop a buf).

Definition slice_last (k : nat) (buf : Buffer) : Buffer :=
  drop (length buf - k) buf.

(** [Buffer.from(s, 'hex')] for a string of lower-case hexadecimal digits. *)
Definition hexDigit (c : Ascii.ascii) : Z :=
  let n := Z.of_nat (Ascii.nat_of_ascii c) in
  if n <? 58 then n - 48 else n - 87.

Fixpoint fromHex (s : string) : Buffer :=
  match s with
  | String a (String b rest) => byte_of_Z (hexDigit a * 16 + hexDigit b) :: fromHex rest
  | _ => []
  end.

End Buf.

Import Buf.

(** ** src/audioDecodingWorker.ts: [extractOpusFromRTP] *)

(** The [for] loop over the extension elements: [n] is the number of
    iterations left ([rtpHLen - i]); the loop also stops when [offset]
    reaches the end of the data. *)
Fixpoint skipExtensions (opusData : Buffer) (n : nat) (offset : nat) : nat :=
  match n with
  | O => offset
  | S n' =>
      match opusData !! offset with
      | Some b =>
          let subLen := Z.to_nat (Z.land (Z_of_byte b) 15 + 1) in
          skipExtensions opusData n' (offset + subLen * 4)
      | None => offset
      end
  end.

(** The [while] loop that skips padding; [n] bounds the iterations by the
    bytes left. *)
Fixpoint skipPadding (opusData : Buffer) (n : nat) (offset : nat) : nat :=
  match n with
  | O => offset
  | S n' =>
      match opusData !! offset with
      | Some b => if Z_of_byte b =? 0
                  then skipPadding opusData n' (S offset)
                  else offset
      | None => offset
      end
  end.

Definition extractOpusFromRTP (opusData : Buffer) : Buffer :=
  if bool_decide (length opusData = 0%nat) then opusData
  else if bool_decide (4 < length opusData)%nat
          && (at_ opusData 0 =? 0xBE) && (at_ opusData 1 =? 0xDE)
  then
    let rtpHLen := readUInt16BE opusData 2 in
    let offset := skipExtensions opusData (Z.to_nat rtpHLen) 4 in
    let offset := skipPadding opusData (length opusData - offset) offset in
    slice_from offset opusData
  else opusData.

(** ** The native libraries

    [secretbox]/[secretbox_open] stand for tweetnacl's [nacl.secretbox] and
    [nacl.secretbox.open] (arguments: data, 24-byte nonce, 32-byte key;
    [None] is the [null] that [open] returns when authentication fails).
    [opus_encode]/[opus_decode] stand for the [encode] and [decode] methods of
    the Opus object; [None] is a thrown exception. *)
Class Native := {
  secretbox : Buffer → Buffer → Buffer → Buffer;
  secretbox_open : Buffer → Buffer → Buffer → option Buffer;
  opus_encode : Buffer → option Buffer;
  opus_decode : Buffer → option Buffer
}.

(** ** src/audioEncodingWorker.ts *)

(** The options object handed to [new opus.OpusEncoder(48000, 2, {...})]. *)
Record OpusEncoderOptions := {
  bitrate : Z;
  fec : bool;
  plp : Q;
  application : string
}.

Record OpusEncoderSetup := {
  enc_rate : Z;
  enc_channels : Z;
  enc_options : OpusEncoderOptions
}.

Record EncoderWorker := {
  ew_opusEncoder : OpusEncoderSetup;
  ew_secretKey : Buffer;
  ew_ssrc : Z;
  ew_mode : string
}.

(** [case 'init'] of the encoding worker. *)
Definition encoder_init (initSsrc : Z) (initKey : Buffer) (initMode : string)
  : EncoderWorker :=
  {| ew_opusEncoder :=
       {| enc_rate := 48000; enc_channels := 2;
          enc_options := {| bitrate := 128000;
                            fec := true;
                            plp := (1 # 100)%Q;
                            application := "voip" |} |};
     ew_secretKey := initKey;
     ew_ssrc := initSsrc;
     ew_mode := initMode |}.

Record AudioFrame := {
  af_id : Z;
  af_pcmData : Buffer;
  af_sequence : Z;
  af_timestamp : Z
}.

Inductive EncoderReply :=
| Encoded (id : Z) (rtpPacket : Buffer)
| EncodeError (id : Z).

(** The 12-byte RTP header: [0x80], payload type 120, then sequence,
    timestamp and SSRC written with [writeUInt16BE]/[writeUInt32BE]. *)
Definition rtpHeader (ssrc sequence timestamp : Z) : option Buffer :=
  s ← writeUInt16BE sequence;
  t ← writeUInt32BE timestamp;
  c ← writeUInt32BE ssrc;
  Some ([x80; x78] ++ s ++ t ++ c).

(** The nonce of the lite mode on the send side: the 4-byte big-endian
    sequence padded with 20 zero bytes. *)
Definition sendNonce (nonceBuffer : Buffer) : Buffer := nonceBuffer ++ alloc 20.

(** The end of [case 'encode']: encrypt the Opus data (lite mode) and put
    the packet together. *)
Definition assemblePacket `{Native} (w : EncoderWorker) (rtpHeader : Buffer)
    (sequence : Z) (opusData : Buffer) : option Buffer :=
  if bool_decide (ew_mode w = "xsalsa20_poly1305_lite") then
    nonceBuffer ← writeUInt32BE sequence;
    let nonce := sendNonce nonceBuffer in
    let encrypted := secretbox opusData nonce (ew_secretKey w) in
    Some (rtpHeader ++ encrypted ++ nonceBuffer)
  else
    Some (rtpHeader ++ opusData).

(** [case 'encode'] of the encoding worker; any exception in the [try]
    block is answered with an error message. *)
Definition encode `{Native} (w : EncoderWorker) (frame : AudioFrame) : EncoderReply :=
  match rtpHeader ← rtpHeader (ew_ssrc w) (af_sequence frame) (af_timestamp frame);
        opusData ← opus_encode (af_pcmData frame);
        assemblePacket w rtpHeader (af_sequence frame) opusData with
  | Some packet => Encoded (af_id frame) packet
  | None => EncodeError (af_id frame)
  end.

(** The worker without its Opus encoder: what [case 'encode'] makes of
    Opus data [opusData] for a frame with the given sequence and timestamp. *)
Definition sealPacket `{Native} (w : EncoderWorker) (sequence timestamp : Z)
    (opusData : Buffer) : option Buffer :=
  rtpHeader ← rtpHeader (ew_ssrc w) sequence timestamp;
  assemblePacket w rtpHeader sequence opusData.

(** ** src/audioDecodingWorker.ts: the [decode] message *)

Record DecoderWorker := {
  dw_secretKey : Buffer;
  dw_mode : string
}.

Definition decoder_init (initKey : Buffer) (initMode : string) : DecoderWorker :=
  {| dw_secretKey := initKey; dw_mode := initMode |}.

Record EncryptedFrame := {
  ef_id : Z;
  ef_rtpPacket : Buffer
}.

Record DecodedFrame := {
  df_id : Z;
  df_pcmData : Buffer;
  df_sequence : Z;
  df_timestamp : Z
}.

Inductive DecoderReply :=
| Decoded (frame : DecodedFrame)
| DecodeError (id : Z) (error : string).

(** What the worker does for one frame: the message it posts, and the
    argument of [opusDecoder.decode] when the decoder was called. *)
Record DecodeOutcome := {
  reply : DecoderReply;
  decoderInput : option Buffer
}.

(** The nonce of the lite mode on the receive side: RTP header in bytes
    0-11, the 4-byte suffix in bytes 12-15, the rest of [Buffer.alloc(24)]
    zero. *)
Definition receiveNonce (rtpPacket nonceBuffer : Buffer) : Buffer :=
  take 12 rtpPacket ++ nonceBuffer ++ alloc 8.

Definition isLikelySilencePacket (sequence timestamp : Z) (encryptedData : Buffer) : bool :=
  (sequence =? 7) && (timestamp =? 45110) && bool_decide (length encryptedData ≤ 40)%nat.

(** The branch on [mode] that yields [opusData] (or throws). *)
Definition openPacket `{Native} (w : DecoderWorker) (rtpPacket : Buffer)
    (sequence timestamp : Z) : string + Buffer :=
  if bool_decide (dw_mode w = "xsalsa20_poly1305_lite") then
    if bool_decide (length rtpPacket < 16)%nat
    then inl "Invalid encrypted packet: too short"
    else
      let nonceBuffer := slice_last 4 rtpPacket in
      let encryptedData := slice_between 12 4 rtpPacket in
      if isLikelySilencePacket sequence timestamp encryptedData
      then inr (alloc 0)
      else
        let nonce := receiveNonce rtpPacket nonceBuffer in
        match secretbox_open encryptedData nonce (dw_secretKey w) with
        | None => inl "Failed to decrypt voice audio data"
        | Some decrypted => inr decrypted
        end
  else inr (slice_from 12 rtpPacket).

Definition silenceFrame : Buffer := alloc (960 * 2 * 2).

Definition decode `{Native} (w : DecoderWorker) (frame : EncryptedFrame) : DecodeOutcome :=
  let rtpPacket := ef_rtpPacket frame in
  if bool_decide (length rtpPacket < 12)%nat
  then {| reply := DecodeError (ef_id frame) "Invalid RTP packet: too short";
          decoderInput := None |}
  else
    let sequence := readUInt16BE rtpPacket 2 in
    let timestamp := readUInt32BE rtpPacket 4 in
    match openPacket w rtpPacket sequence timestamp with
    | inl error => {| reply := DecodeError (ef_id frame) error; decoderInput := None |}
    | inr opusData =>
        let cleanOpusData := extractOpusFromRTP opusData in
        if bool_decide (length cleanOpusData = 0%nat) then
          {| reply := Decoded {| df_id := ef_id frame; df_pcmData := silenceFrame;
                                 df_sequence := sequence; df_timestamp := timestamp |};
             decoderInput := None |}
        else
          let pcmData := match opus_decode cleanOpusData with
                         | Some decoded => decoded
                         | None => silenceFrame
                         end in
          {| reply := Decoded {| df_id := ef_id frame; df_pcmData := pcmData;
                                 df_sequence := sequence; df_timestamp := timestamp |};
             decoderInput := Some cleanOpusData |}
    end.

(** ** src/audioBufferManager.ts *)

Module BufferManager.

Record AudioChunk := {
pcmData : Buffer;
timestamp : Z;
userId : string
}.

(** The payload of the ['audioReady'] event. *)
Record AudioReady := {
ar_userId : string;
ar_audioBuffer : Buffer;
ar_startTime : Z;
ar_endTime : Z;
ar_chunkCount : nat
}.

(** [buffers] is the [Map] from user id to chunk array; [timers] maps a user
  id to its armed silence timer, recorded by the time it is due. *)
Record AudioBufferManager := {
buffers : gmap string (list AudioChunk);
bufferTimeoutMs : Z;
maxBufferSizeMs : Z;
timers : gmap string Z
}.

Definition newAudioBufferManager (bufferTimeoutMs maxBufferSizeMs : Z) : AudioBufferManager :=
{| buffers := ∅; bufferTimeoutMs := bufferTimeoutMs;
   maxBufferSizeMs := maxBufferSizeMs; timers := ∅ |}.

Definition totalBytes (chunks : list AudioChunk) : nat :=
foldl (λ sum chunk, sum + length (pcmData chunk))%nat 0%nat chunks.

(** [estimateBufferDuration]: milliseconds at 192,000 bytes per second. *)
Definition estimateBufferDuration (chunks : list AudioChunk) : Q :=
if bool_decide (length chunks = 0%nat) then 0%Q
else
  let bytesPerSecond := 48000 * 2 * 2 in
  ((inject_Z (Z.of_nat (totalBytes chunks)) / inject_Z bytesPerSecond) * 1000)%Q.

(** [flushBuffer]: the manager afterwards and the events emitted. *)
Definition flushBuffer (m : AudioBufferManager) (uid : string)
: AudioBufferManager * list AudioReady :=
match buffers m !! uid with
| None => (m, [])
| Some [] => (m, [])
| Some ((first :: rest) as userBuffer) =>
    let combinedBuffer := concat (map pcmData userBuffer) in
    let event := {| ar_userId := uid;
                    ar_audioBuffer := combinedBuffer;
                    ar_startTime := timestamp first;
                    ar_endTime := timestamp (List.last userBuffer first);
                    ar_chunkCount := length userBuffer |} in
    ({| buffers := <[uid := []]> (buffers m);
        bufferTimeoutMs := bufferTimeoutMs m;
        maxBufferSizeMs := maxBufferSizeMs m;
        timers := delete uid (timers m) |},
     [event])
end.

(** [addAudioChunk]; [now] is the value of [Date.now()]. *)
Definition addAudioChunk (m : AudioBufferManager) (now : Z) (uid : string)
  (pcm : Buffer) : AudioBufferManager * list AudioReady :=
let chunk := {| pcmData := pcm; timestamp := now; userId := uid |} in
let userBuffer := default [] (buffers m !! uid) ++ [chunk] in
let m1 := {| buffers := <[uid := userBuffer]> (buffers m);
             bufferTimeoutMs := bufferTimeoutMs m;
             maxBufferSizeMs := maxBufferSizeMs m;
             timers := <[uid := now + bufferTimeoutMs m]> (timers m) |} in
let totalDuration := estimateBufferDuration userBuffer in
if Qlt_le_dec (inject_Z (maxBufferSizeMs m)) totalDuration
then flushBuffer m1 uid
else (m1, []).

(** The callback of the silence timer of [uid]. *)
Definition silenceTimerFired (m : AudioBufferManager) (uid : string)
: AudioBufferManager * list AudioReady :=
match timers m !! uid with
| Some _ => flushBuffer m uid
| None => (m, [])
end.

Definition cleanup (m : AudioBufferManager) : AudioBufferManager :=
{| buffers := ∅; bufferTimeoutMs := bufferTimeoutMs m;
   maxBufferSizeMs := maxBufferSizeMs m; timers := ∅ |}.

(** The chunks buffered for [uid] (none when the user has no slot). *)
Definition slot (m : AudioBufferManager) (uid : string) : list AudioChunk :=
default [] (buffers m !! uid).

End BufferManager.

(** ** src/threadedWebrtcVoiceHandler.ts *)

Module Handler.

(** A voice-gateway message, as [handleVoiceMessage] reads it. *)
Inductive VoiceMessage :=
| Ready (ssrc : Z) (ip : string) (port : Z) (modes : list string)      (* op 2 *)
| SessionDescription (secret_key : Buffer)                             (* op 4 *)
| Speaking (user_id : string) (ssrc : Z) (speaking : Z)                (* op 5 *)
| HeartbeatAck                                                         (* op 6 *)
| OtherOp (op : Z).

(** What the handler does to the outside: websocket sends, datagrams,
    emitted events. *)
Inductive Output :=
| WsSpeaking (speaking : Z) (delay : Z) (ssrc : option Z)              (* op 5 *)
| WsSelectProtocol (address : Buffer) (port : Z) (mode : string)       (* op 1 *)
| UdpSend (packet : Buffer)                                  (* an RTP frame *)
| UdpSendDiscovery (request : Buffer)
| EmitReady
| EmitAudioReceived (frame : DecodedFrame)
| EmitAudioReady (data : BufferManager.AudioReady).

(** The fields of [ThreadedWebRTCVoiceHandler] under their own names.
    [voiceWebsocket] and [udpSocket] record that the object is set;
    [encodingWorker]/[decodingWorker] hold the state of the worker thread
    once its [init] message is processed ([None] before: the wrapper
    objects themselves are created by the constructor); [discovering]
    says that the [once('message')] listener of the IP discovery is
    installed, [listening] that the audio listener is; [frameIndex] and
    [transmitTimer] are the closure variable and the pending [setTimeout]
    of the running [startDirectTransmission]; [encodeFrameId] and
    [decodeFrameId] are the [frameIdCounter]s of the two worker wrappers. *)
Record ThreadedWebRTCVoiceHandler := {
  voiceWebsocket : bool;
  udpSocket : bool;
  address : option string;
  port : option Z;
  ssrc : option Z;
  secretKey : option Buffer;
  mode : option string;
  encodingWorker : option EncoderWorker;
  decodingWorker : option DecoderWorker;
  sequence : Z;
  timestamp : Z;
  speaking : bool;
  sendQueue : list Buffer;
  isSending : bool;
  audioBufferManager : option BufferManager.AudioBufferManager;
  transcriptionEnabled : bool;
  discovering : bool;
  listening : bool;
  frameIndex : nat;
  transmitTimer : bool;
  encodeFrameId : Z;
  decodeFrameId : Z
}.

(** Field updates ([this.x = v]). *)
Definition set_voiceWebsocket v (h : ThreadedWebRTCVoiceHandler) : ThreadedWebRTCVoiceHandler :=
  let '(Build_ThreadedWebRTCVoiceHandler f0 f1 f2 f3 f4 f5 f6 f7 f8 f9 f10 f11 f12 f13 f14 f15 f16 f17 f18 f19 f20 f21) := h in
  Build_ThreadedWebRTCVoiceHandler v f1 f2 f3 f4 f5 f6 f7 f8 f9 f10 f11 f12 f13 f14 f15 f16 f17 f18 f19 f20 f21.
Definition set_udpSocket v (h : ThreadedWebRTCVoiceHandler) : ThreadedWebRTCVoiceHandler :=
  let '(Build_ThreadedWebRTCVoiceHandler f0 f1 f2 f3 f4 f5 f6 f7 f8 f9 f10 f11 f12 f13 f14 f15 f16 f17 f18 f19 f20 f21) := h in
  Build_ThreadedWebRTCVoiceHandler f0 v f2 f3 f4 f5 f6 f7 f8 f9 f10 f11 f12 f13 f14 f15 f16 f17 f18 f19 f20 f21.
Definition set_address v (h : ThreadedWebRTCVoiceHandler) : ThreadedWebRTCVoiceHandler :=
  let '(Build_ThreadedWebRTCVoiceHandler f0 f1 f2 f3 f4 f5 f6 f7 f8 f9 f10 f11 f12 f13 f14 f15 f16 f17 f18 f19 f20 f21) := h in
  Build_ThreadedWebRTCVoiceHandler f0 f1 v f3 f4 f5 f6 f7 f8 f9 f10 f11 f12 f13 f14 f15 f16 f17 f18 f19 f20 f21.
Definition set_port v (h : ThreadedWebRTCVoiceHandler) : ThreadedWebRTCVoiceHandler :=
  let '(Build_ThreadedWebRTCVoiceHandler f0 f1 f2 f3 f4 f5 f6 f7 f8 f9 f10 f11 f12 f13 f14 f15 f16 f17 f18 f19 f20 f21) := h in
  Build_ThreadedWebRTCVoiceHandler f0 f1 f2 v f4 f5 f6 f7 f8 f9 f10 f11 f12 f13 f14 f15 f16 f17 f18 f19 f20 f21.
Definition set_ssrc v (h : ThreadedWebRTCVoiceHandler) : ThreadedWebRTCVoiceHandler :=
  let '(Build_ThreadedWebRTCVoiceHandler f0 f1 f2 f3 f4 f5 f6 f7 f8 f9 f10 f11 f12 f13 f14 f15 f16 f17 f18 f19 f20 f21) := h in
  Build_ThreadedWebRTCVoiceHandler f0 f1 f2 f3 v f5 f6 f7 f8 f9 f10 f11 f12 f13 f14 f15 f16 f17 f18 f19 f20 f21.
Definition set_secretKey v (h : ThreadedWebRTCVoiceHandler) : ThreadedWebRTCVoiceHandler :=
  let '(Build_ThreadedWebRTCVoiceHandler f0 f1 f2 f3 f4 f5 f6 f7 f8 f9 f10 f11 f12 f13 f14 f15 f16 f17 f18 f19 f20 f21) := h in
  Build_ThreadedWebRTCVoiceHandler f0 f1 f2 f3 f4 v f6 f7 f8 f9 f10 f11 f12 f13 f14 f15 f16 f17 f18 f19 f20 f21.
Definition set_mode v (h : ThreadedWebRTCVoiceHandler) : ThreadedWebRTCVoiceHandler :=
  let '(Build_ThreadedWebRTCVoiceHandler f0 f1 f2 f3 f4 f5 f6 f7 f8 f9 f10 f11 f12 f13 f14 f15 f16 f17 f18 f19 f20 f21) := h in
  Build_ThreadedWebRTCVoiceHandler f0 f1 f2 f3 f4 f5 v f7 f8 f9 f10 f11 f12 f13 f14 f15 f16 f17 f18 f19 f20 f21.
Definition set_encodingWorker v (h : ThreadedWebRTCVoiceHandler) : ThreadedWebRTCVoiceHandler :=
  let '(Build_ThreadedWebRTCVoiceHandler f0 f1 f2 f3 f4 f5 f6 f7 f8 f9 f10 f11 f12 f13 f14 f15 f16 f17 f18 f19 f20 f21) := h in
  Build_ThreadedWebRTCVoiceHandler f0 f1 f2 f3 f4 f5 f6 v f8 f9 f10 f11 f12 f13 f14 f15 f16 f17 f18 f19 f20 f21.
Definition set_decodingWorker v (h : ThreadedWebRTCVoiceHandler) : ThreadedWebRTCVoiceHandler :=
  let '(Build_ThreadedWebRTCVoiceHandler f0 f1 f2 f3 f4 f5 f6 f7 f8 f9 f10 f11 f12 f13 f14 f15 f16 f17 f18 f19 f20 f21) := h in
  Build_ThreadedWebRTCVoiceHandler f0 f1 f2 f3 f4 f5 f6 f7 v f9 f10 f11 f12 f13 f14 f15 f16 f17 f18 f19 f20 f21.
Definition set_sequence v (h : ThreadedWebRTCVoiceHandler) : ThreadedWebRTCVoiceHandler :=
  let '(Build_ThreadedWebRTCVoiceHandler f0 f1 f2 f3 f4 f5 f6 f7 f8 f9 f10 f11 f12 f13 f14 f15 f16 f17 f18 f19 f20 f21) := h in
  Build_ThreadedWebRTCVoiceHandler f0 f1 f2 f3 f4 f5 f6 f7 f8 v f10 f11 f12 f13 f14 f15 f16 f17 f18 f19 f20 f21.
Definition set_timestamp v (h : ThreadedWebRTCVoiceHandler) : ThreadedWebRTCVoiceHandler :=
  let '(Build_ThreadedWebRTCVoiceHandler f0 f1 f2 f3 f4 f5 f6 f7 f8 f9 f10 f11 f12 f13 f14 f15 f16 f17 f18 f19 f20 f21) := h in
  Build_ThreadedWebRTCVoiceHandler f0 f1 f2 f3 f4 f5 f6 f7 f8 f9 v f11 f12 f13 f14 f15 f16 f17 f18 f19 f20 f21.
Definition set_speaking v (h : ThreadedWebRTCVoiceHandler) : ThreadedWebRTCVoiceHandler :=
  let '(Build_ThreadedWebRTCVoiceHandler f0 f1 f2 f3 f4 f5 f6 f7 f8 f9 f10 f11 f12 f13 f14 f15 f16 f17 f18 f19 f20 f21) := h in
  Build_ThreadedWebRTCVoiceHandler f0 f1 f2 f3 f4 f5 f6 f7 f8 f9 f10 v f12 f13 f14 f15 f16 f17 f18 f19 f20 f21.
Definition set_sendQueue v (h : ThreadedWebRTCVoiceHandler) : ThreadedWebRTCVoiceHandler :=
  let '(Build_ThreadedWebRTCVoiceHandler f0 f1 f2 f3 f4 f5 f6 f7 f8 f9 f10 f11 f12 f13 f14 f15 f16 f17 f18 f19 f20 f21) := h in
  Build_ThreadedWebRTCVoiceHandler f0 f1 f2 f3 f4 f5 f6 f7 f8 f9 f10 f11 v f13 f14 f15 f16 f17 f18 f19 f20 f21.
Definition set_isSending v (h : ThreadedWebRTCVoiceHandler) : ThreadedWebRTCVoiceHandler :=
  let '(Build_ThreadedWebRTCVoiceHandler f0 f1 f2 f3 f4 f5 f6 f7 f8 f9 f10 f11 f12 f13 f14 f15 f16 f17 f18 f19 f20 f21) := h in
  Build_ThreadedWebRTCVoiceHandler f0 f1 f2 f3 f4 f5 f6 f7 f8 f9 f10 f11 f12 v f14 f15 f16 f17 f18 f19 f20 f21.
Definition set_audioBufferManager v (h : ThreadedWebRTCVoiceHandler) : ThreadedWebRTCVoiceHandler :=
  let '(Build_ThreadedWebRTCVoiceHandler f0 f1 f2 f3 f4 f5 f6 f7 f8 f9 f10 f11 f12 f13 f14 f15 f16 f17 f18 f19 f20 f21) := h in
  Build_ThreadedWebRTCVoiceHandler f0 f1 f2 f3 f4 f5 f6 f7 f8 f9 f10 f11 f12 f13 v f15 f16 f17 f18 f19 f20 f21.
Definition set_transcriptionEnabled v (h : ThreadedWebRTCVoiceHandler) : ThreadedWebRTCVoiceHandler :=
  let '(Build_ThreadedWebRTCVoiceHandler f0 f1 f2 f3 f4 f5 f6 f7 f8 f9 f10 f11 f12 f13 f14 f15 f16 f17 f18 f19 f20 f21) := h in
  Build_ThreadedWebRTCVoiceHandler f0 f1 f2 f3 f4 f5 f6 f7 f8 f9 f10 f11 f12 f13 f14 v f16 f17 f18 f19 f20 f21.
Definition set_discovering v (h : ThreadedWebRTCVoiceHandler) : ThreadedWebRTCVoiceHandler :=
  let '(Build_ThreadedWebRTCVoiceHandler f0 f1 f2 f3 f4 f5 f6 f7 f8 f9 f10 f11 f12 f13 f14 f15 f16 f17 f18 f19 f20 f21) := h in
  Build_ThreadedWebRTCVoiceHandler f0 f1 f2 f3 f4 f5 f6 f7 f8 f9 f10 f11 f12 f13 f14 f15 v f17 f18 f19 f20 f21.
Definition set_listening v (h : ThreadedWebRTCVoiceHandler) : ThreadedWebRTCVoiceHandler :=
  let '(Build_ThreadedWebRTCVoiceHandler f0 f1 f2 f3 f4 f5 f6 f7 f8 f9 f10 f11 f12 f13 f14 f15 f16 f17 f18 f19 f20 f21) := h in
  Build_ThreadedWebRTCVoiceHandler f0 f1 f2 f3 f4 f5 f6 f7 f8 f9 f10 f11 f12 f13 f14 f15 f16 v f18 f19 f20 f21.
Definition set_frameIndex v (h : ThreadedWebRTCVoiceHandler) : ThreadedWebRTCVoiceHandler :=
  let '(Build_ThreadedWebRTCVoiceHandler f0 f1 f2 f3 f4 f5 f6 f7 f8 f9 f10 f11 f12 f13 f14 f15 f16 f17 f18 f19 f20 f21) := h in
  Build_ThreadedWebRTCVoiceHandler f0 f1 f2 f3 f4 f5 f6 f7 f8 f9 f10 f11 f12 f13 f14 f15 f16 f17 v f19 f20 f21.
Definition set_transmitTimer v (h : ThreadedWebRTCVoiceHandler) : ThreadedWebRTCVoiceHandler :=
  let '(Build_ThreadedWebRTCVoiceHandler f0 f1 f2 f3 f4 f5 f6 f7 f8 f9 f10 f11 f12 f13 f14 f15 f16 f17 f18 f19 f20 f21) := h in
  Build_ThreadedWebRTCVoiceHandler f0 f1 f2 f3 f4 f5 f6 f7 f8 f9 f10 f11 f12 f13 f14 f15 f16 f17 f18 v f20 f21.
Definition set_encodeFrameId v (h : ThreadedWebRTCVoiceHandler) : ThreadedWebRTCVoiceHandler :=
  let '(Build_ThreadedWebRTCVoiceHandler f0 f1 f2 f3 f4 f5 f6 f7 f8 f9 f10 f11 f12 f13 f14 f15 f16 f17 f18 f19 f20 f21) := h in
  Build_ThreadedWebRTCVoiceHandler f0 f1 f2 f3 f4 f5 f6 f7 f8 f9 f10 f11 f12 f13 f14 f15 f16 f17 f18 f19 v f21.
Definition set_decodeFrameId v (h : ThreadedWebRTCVoiceHandler) : ThreadedWebRTCVoiceHandler :=
  let '(Build_ThreadedWebRTCVoiceHandler f0 f1 f2 f3 f4 f5 f6 f7 f8 f9 f10 f11 f12 f13 f14 f15 f16 f17 f18 f19 f20 f21) := h in
  Build_ThreadedWebRTCVoiceHandler f0 f1 f2 f3 f4 f5 f6 f7 f8 f9 f10 f11 f12 f13 f14 f15 f16 f17 f18 f19 f20 v.

(** The constructor.  [sttAvailable] says whether [new ElevenLabsSTT()]
    succeeded; when it throws, the buffer manager is never created and
    transcription is switched off. *)
Definition new (sttAvailable : bool) : ThreadedWebRTCVoiceHandler :=
  {| voiceWebsocket := false; udpSocket := false; address := None; port := None;
     ssrc := None; secretKey := None; mode := None;
     encodingWorker := None; decodingWorker := None;
     sequence := 0; timestamp := 0; speaking := false;
     sendQueue := []; isSending := false;
     audioBufferManager :=
       if sttAvailable then Some (BufferManager.newAudioBufferManager 2000 10000) else None;
     transcriptionEnabled := sttAvailable;
     discovering := false; listening := false;
     frameIndex := 0; transmitTimer := false;
     encodeFrameId := 0; decodeFrameId := 0 |}.

Definition connect (h : ThreadedWebRTCVoiceHandler) : ThreadedWebRTCVoiceHandler :=
  set_voiceWebsocket true h.

Definition setTranscriptionEnabled (enabled : bool) (h : ThreadedWebRTCVoiceHandler) :=
  set_transcriptionEnabled enabled h.

(** [setSpeaking] *)
Definition setSpeaking (b : bool) (h : ThreadedWebRTCVoiceHandler)
  : ThreadedWebRTCVoiceHandler * list Output :=
  if bool_decide (speaking h = b) then (h, [])
  else
    (set_speaking b h,
     if voiceWebsocket h
     then [WsSpeaking (if b then 1 else 0) 0 (ssrc h)]
     else []).

(** The closure [sendNextFrame] of [startDirectTransmission].  The socket
    it sends on is the one [playAudio] checked. *)
Definition sendNextFrame (h : ThreadedWebRTCVoiceHandler)
  : ThreadedWebRTCVoiceHandler * list Output :=
  match sendQueue h !! frameIndex h with
  | None =>                                  (* frameIndex >= sendQueue.length *)
      let '(h1, out) := setSpeaking false h in
      (set_sendQueue [] (set_isSending false h1), out)
  | Some packet =>
      (set_transmitTimer true (set_frameIndex (S (frameIndex h)) h),
       [UdpSend packet])
  end.

Definition startDirectTransmission (h : ThreadedWebRTCVoiceHandler)
  : ThreadedWebRTCVoiceHandler * list Output :=
  if isSending h || bool_decide (length (sendQueue h) = 0%nat) then (h, [])
  else
    let '(h1, out1) := setSpeaking true (set_isSending true h) in
    let '(h2, out2) := sendNextFrame (set_frameIndex 0%nat h1) in
    (h2, out1 ++ out2).

(** The callback of the [setTimeout] armed by [sendNextFrame]. *)
Definition transmitTimerFired (h : ThreadedWebRTCVoiceHandler)
  : ThreadedWebRTCVoiceHandler * list Output :=
  if transmitTimer h then sendNextFrame (set_transmitTimer false h) else (h, []).

(** *** [playAudio] *)

Definition frameSize : nat := 960 * 2 * 2.

Definition frameCount (pcmData : Buffer) : nat :=
  (length pcmData + (frameSize - 1)) / frameSize.

(** Frame [i] of the PCM data, the last one padded with zeros. *)
Definition frameAt (pcmData : Buffer) (i : nat) : Buffer :=
  let frame := take frameSize (drop (i * frameSize) pcmData) in
  if bool_decide (length frame < frameSize)%nat
  then frame ++ alloc (frameSize - length frame)
  else frame.

Definition splitFrames (pcmData : Buffer) : list Buffer :=
  map (frameAt pcmData) (seq 0 (frameCount pcmData)).

(** [AudioEncodingWorker.encodeFrame]: the packet the promise resolves
    with; [None] when the worker answers with an error, in which case the
    promise is never settled. *)
Definition encodeFrame `{Native} (h : ThreadedWebRTCVoiceHandler)
    (pcm : Buffer) (seq ts : Z) : ThreadedWebRTCVoiceHandler * option Buffer :=
  let frameId := encodeFrameId h in
  let h1 := set_encodeFrameId (frameId + 1) h in
  match encodingWorker h with
  | None => (h1, None)
  | Some w =>
      match encode w {| af_id := frameId; af_pcmData := pcm;
                        af_sequence := seq; af_timestamp := ts |} with
      | Encoded _ rtpPacket => (h1, Some rtpPacket)
      | EncodeError _ => (h1, None)
      end
  end.

(** The [for] loop of [playAudio] over the frames still to encode. *)
Fixpoint encodeFrames `{Native} (h : ThreadedWebRTCVoiceHandler)
    (frames : list Buffer) (processedFrames : list Buffer)
  : ThreadedWebRTCVoiceHandler * option (list Buffer) :=
  match frames with
  | [] => (h, Some processedFrames)
  | frame :: rest =>
      let seq := sequence h in
      let h1 := set_sequence (seq + 1) h in                (* this.sequence++ *)
      match encodeFrame h1 frame seq (timestamp h1) with
      | (h2, Some rtpPacket) =>
          encodeFrames (set_timestamp (timestamp h2 + 960) h2) rest
                       (processedFrames ++ [rtpPacket])
      | (h2, None) => (h2, None)
      end
  end.

(** How a call of [playAudio] ends: it throws, it never completes (an
    [await] on a promise that is never settled), or it returns. *)
Inductive PlayResult :=
| NotReady
| Pending (h : ThreadedWebRTCVoiceHandler)
| Returned (h : ThreadedWebRTCVoiceHandler) (out : list Output).

(** [playAudio], from the PCM data that [convertToPCM] delivers. *)
Definition playAudio `{Native} (h : ThreadedWebRTCVoiceHandler) (pcmData : Buffer)
  : PlayResult :=
  if negb (udpSocket h) then NotReady
  else
    match encodeFrames h (splitFrames pcmData) [] with
    | (h1, None) => Pending h1
    | (h1, Some processedFrames) =>
        let '(h2, out) := startDirectTransmission (set_sendQueue processedFrames h1) in
        Returned h2 out
    end.

(** *** Voice-gateway messages and the UDP socket *)

(** The 8 bytes that [performIPDiscovery] writes into its 74-byte
    [Buffer.allocUnsafe] packet: type 1, length 70, the SSRC. *)
Definition discoveryRequest (ssrc : Z) : option Buffer :=
  t ← writeUInt16BE 1;
  l ← writeUInt16BE 70;
  s ← writeUInt32BE ssrc;
  Some (t ++ l ++ s).

(** [response.slice(8, response.indexOf(0, 8))] *)
Definition discoveredAddress (response : Buffer) : Buffer :=
  let rest := drop 8 response in
  match list_find (λ b, Z_of_byte b = 0) rest with
  | Some (i, _) => take i rest
  | None => slice_between 8 1 response
  end.

(** [handleVoiceMessage].  Op 2 stores SSRC, address and mode, creates the
    socket and starts the IP discovery, which is refused when the SSRC is
    0 or not an unsigned 32-bit integer; op 4 stores the key and
    initialises the two workers; op 5 and op 6 have empty bodies. *)
Definition handleVoiceMessage (h : ThreadedWebRTCVoiceHandler) (message : VoiceMessage)
  : ThreadedWebRTCVoiceHandler * list Output :=
  match message with
  | Ready ssrc_ ip port_ modes =>
      let mode_ := if bool_decide ("xsalsa20_poly1305_lite" ∈ modes)
                   then "xsalsa20_poly1305_lite" else "plain" in
      let h1 := set_udpSocket true
                  (set_mode (Some mode_)
                     (set_port (Some port_)
                        (set_address (Some ip) (set_ssrc (Some ssrc_) h)))) in
      if bool_decide (ssrc_ = 0) then (h1, [])
      else
        match discoveryRequest ssrc_ with
        | Some packet => (set_discovering true h1, [UdpSendDiscovery packet])
        | None => (h1, [])
        end
  | SessionDescription secret_key =>
      let h1 := set_secretKey (Some secret_key) h in
      let mode_ := default "" (mode h) in
      let h2 := match ssrc h with
                | Some s => if bool_decide (s = 0) then h1
                            else set_encodingWorker (Some (encoder_init s secret_key mode_)) h1
                | None => h1
                end in
      (set_decodingWorker (Some (decoder_init secret_key mode_)) h2, [EmitReady])
  | Speaking _ _ _ => (h, [])
  | HeartbeatAck => (h, [])
  | OtherOp _ => (h, [])
  end.

(** The [decode] message on a worker that has not seen [init]: [mode] is
    undefined, so the packet is read as unencrypted, and the call on the
    undefined decoder throws inside the inner [try], which substitutes
    silence. *)
Definition decodeUninitialised (frame : EncryptedFrame) : DecodeOutcome :=
  let rtpPacket := ef_rtpPacket frame in
  if bool_decide (length rtpPacket < 12)%nat
  then {| reply := DecodeError (ef_id frame) "Invalid RTP packet: too short";
          decoderInput := None |}
  else {| reply := Decoded {| df_id := ef_id frame; df_pcmData := silenceFrame;
                              df_sequence := readUInt16BE rtpPacket 2;
                              df_timestamp := readUInt32BE rtpPacket 4 |};
          decoderInput := None |}.

(** [AudioDecodingWorker.decodeFrame] *)
Definition decodeFrame `{Native} (h : ThreadedWebRTCVoiceHandler) (packet : Buffer)
  : ThreadedWebRTCVoiceHandler * DecodeOutcome :=
  let frameId := decodeFrameId h in
  let frame := {| ef_id := frameId; ef_rtpPacket := packet |} in
  (set_decodeFrameId (frameId + 1) h,
   match decodingWorker h with
   | Some w => decode w frame
   | None => decodeUninitialised frame
   end).

(** The identity under which a decoded frame is buffered. *)
Definition speakerOf (decoded : DecodedFrame) : string :=
  "user_" +:+ pretty (Z.rem (df_sequence decoded) 1000).

(** The ['message'] listener of the audio path; an error answer of the
    worker leaves the [await] pending for ever. *)
Definition onAudioPacket `{Native} (h : ThreadedWebRTCVoiceHandler) (now : Z)
    (packet : Buffer) : ThreadedWebRTCVoiceHandler * list Output :=
  let '(h1, outcome) := decodeFrame h packet in
  match reply outcome with
  | DecodeError _ _ => (h1, [])
  | Decoded decoded =>
      match audioBufferManager h1 with
      | Some m =>
          if transcriptionEnabled h1
             && bool_decide (0 < length (df_pcmData decoded))%nat
          then
            let '(m', events) :=
              BufferManager.addAudioChunk m now (speakerOf decoded) (df_pcmData decoded) in
            (set_audioBufferManager (Some m') h1,
             EmitAudioReceived decoded :: map EmitAudioReady events)
          else (h1, [EmitAudioReceived decoded])
      | None => (h1, [EmitAudioReceived decoded])
      end
  end.

(** The [once('message')] listener of the IP discovery: it answers with
    op 1 and lets [handleVoiceMessage] go on to install the audio
    listener.  A response too short for its port, or a missing
    websocket, makes the listener throw. *)
Definition onDiscoveryResponse (h : ThreadedWebRTCVoiceHandler) (response : Buffer)
  : ThreadedWebRTCVoiceHandler * list Output :=
  let h1 := set_discovering false h in
  if bool_decide (length response < 2)%nat || negb (voiceWebsocket h) then (h1, [])
  else
    (set_listening true h1,
     [WsSelectProtocol (discoveredAddress response)
                       (readUInt16BE response (length response - 2))
                       (default "" (mode h))]).

(** A datagram arrives on the socket. *)
Definition onUdpMessage `{Native} (h : ThreadedWebRTCVoiceHandler) (now : Z)
    (packet : Buffer) : ThreadedWebRTCVoiceHandler * list Output :=
  if discovering h then onDiscoveryResponse h packet
  else if listening h then onAudioPacket h now packet
  else (h, []).

Definition onSilenceTimer (h : ThreadedWebRTCVoiceHandler) (uid : string)
  : ThreadedWebRTCVoiceHandler * list Output :=
  match audioBufferManager h with
  | Some m =>
      let '(m', events) := BufferManager.silenceTimerFired m uid in
      (set_audioBufferManager (Some m') h, map EmitAudioReady events)
  | None => (h, [])
  end.

(** The chunks the handler has buffered for [uid] ([getStats] counts
    them). *)
Definition buffered (h : ThreadedWebRTCVoiceHandler) (uid : string)
  : list BufferManager.AudioChunk :=
  match audioBufferManager h with
  | Some m => BufferManager.slot m uid
  | None => []
  end.

(** *** The event loop *)

Inductive Event :=
| VoiceMessageReceived (message : VoiceMessage)
| UdpMessage (now : Z) (packet : Buffer)
| PlayAudio (pcmData : Buffer)
| TransmitTimer
| SilenceTimer (uid : string)
| SetTranscription (enabled : bool).

Definition step `{Native} (h : ThreadedWebRTCVoiceHandler) (e : Event)
  : ThreadedWebRTCVoiceHandler * list Output :=
  match e with
  | VoiceMessageReceived message => handleVoiceMessage h message
  | UdpMessage now packet => onUdpMessage h now packet
  | PlayAudio pcmData =>
      match playAudio h pcmData with
      | NotReady => (h, [])
      | Pending h1 => (h1, [])
      | Returned h1 out => (h1, out)
      end
  | TransmitTimer => transmitTimerFired h
  | SilenceTimer uid => onSilenceTimer h uid
  | SetTranscription enabled => (setTranscriptionEnabled enabled h, [])
  end.

(** The handler and everything it has output after a sequence of events. *)
Fixpoint run `{Native} (h : ThreadedWebRTCVoiceHandler) (events : list Event)
  : ThreadedWebRTCVoiceHandler * list Output :=
  match events with
  | [] => (h, [])
  | e :: rest =>
      let '(h1, out1) := step h e in
      let '(h2, out2) := run h1 rest in
      (h2, out1 ++ out2)
  end.

End Handler.

(** *** Reading the output of the handler *)

Module Log.

Import Handler.

(** The op 5 messages and RTP frames of an output, read from left to right:
    [inBatch] says whether the last op 5 message announced speaking.  The
    result is the state after the last output, or [None] when a frame is sent
    outside a batch or an op 5 message repeats the state. *)
Fixpoint bracketed (inBatch : bool) (out : list Output) : option bool :=
  match out with
  | [] => Some inBatch
  | WsSpeaking s _ _ :: rest =>
      if s =? 1
      then (if inBatch then None else bracketed true rest)
      else (if inBatch then bracketed false rest else None)
  | UdpSend _ :: rest => if inBatch then bracketed true rest else None
  | _ :: rest => bracketed inBatch rest
  end.

(** What the transmission keeps between two events of a connected handler:
    the flag [speaking] and the pending timer go with [isSending]. *)
Definition playbackInvariant (h : ThreadedWebRTCVoiceHandler) : Prop :=
  voiceWebsocket h = true
  ∧ speaking h = isSending h
  ∧ transmitTimer h = isSending h.

(** [h'] differs from [h] in nothing that the transmission reads. *)
Definition samePlayback (h h' : ThreadedWebRTCVoiceHandler) : Prop :=
  voiceWebsocket h' = voiceWebsocket h
  ∧ udpSocket h' = udpSocket h
  ∧ ssrc h' = ssrc h
  ∧ speaking h' = speaking h
  ∧ sendQueue h' = sendQueue h
  ∧ isSending h' = isSending h
  ∧ frameIndex h' = frameIndex h
  ∧ transmitTimer h' = transmitTimer h.

(** A step from [h] with result [r] keeps the invariant, and what it
    outputs is well bracketed from the flag before to the flag after. *)
Definition keeps (h : ThreadedWebRTCVoiceHandler)
    (r : ThreadedWebRTCVoiceHandler * list Output) : Prop :=
  playbackInvariant r.1 ∧ bracketed (speaking h) r.2 = Some (speaking r.1).

End Log.

(** The packet [rtpPacket] with its last four bytes replaced by [suffix]. *)
Definition withSuffix (rtpPacket suffix : Buffer) : Buffer :=
  take (length rtpPacket - 4) rtpPacket ++ suffix.

(** ** Reference instances of the native libraries

    *** tweetnacl's [secretbox]

    [nacl.secretbox] is XSalsa20 with a Poly1305 authenticator (the NaCl
    construction [crypto_secretbox_xsalsa20poly1305]); it is written out
    here from the published algorithms so that the workers can be run on
    concrete packets.  32-bit words are [Z] reduced modulo 2^32.  The size
    checks of the library (32-byte key, 24-byte nonce), which throw, are
    left out: the workers always pass a 24-byte nonce. *)

Module NaCl.

Definition word (x : Z) : Z := x mod 4294967296.

Definition rotl (x : Z) (n : Z) : Z :=
  word (Z.lor (Z.shiftl x n) (Z.shiftr x (32 - n))).

Definition quarterround (y : Z * Z * Z * Z) : Z * Z * Z * Z :=
  let '(y0, y1, y2, y3) := y in
  let z1 := Z.lxor y1 (rotl (word (y0 + y3)) 7) in
  let z2 := Z.lxor y2 (rotl (word (z1 + y0)) 9) in
  let z3 := Z.lxor y3 (rotl (word (z2 + z1)) 13) in
  let z0 := Z.lxor y0 (rotl (word (z3 + z2)) 18) in
  (z0, z1, z2, z3).

Definition w (x : list Z) (i : nat) : Z := nth i x 0.

Definition columnround (x : list Z) : list Z :=
  let '(z0, z4, z8, z12) := quarterround (w x 0, w x 4, w x 8, w x 12) in
  let '(z5, z9, z13, z1) := quarterround (w x 5, w x 9, w x 13, w x 1) in
  let '(z10, z14, z2, z6) := quarterround (w x 10, w x 14, w x 2, w x 6) in
  let '(z15, z3, z7, z11) := quarterround (w x 15, w x 3, w x 7, w x 11) in
  [z0; z1; z2; z3; z4; z5; z6; z7; z8; z9; z10; z11; z12; z13; z14; z15].

Definition rowround (x : list Z) : list Z :=
  let '(z0, z1, z2, z3) := quarterround (w x 0, w x 1, w x 2, w x 3) in
  let '(z5, z6, z7, z4) := quarterround (w x 5, w x 6, w x 7, w x 4) in
  let '(z10, z11, z8, z9) := quarterround (w x 10, w x 11, w x 8, w x 9) in
  let '(z15, z12, z13, z14) := quarterround (w x 15, w x 12, w x 13, w x 14) in
  [z0; z1; z2; z3; z4; z5; z6; z7; z8; z9; z10; z11; z12; z13; z14; z15].

Definition doubleround (x : list Z) : list Z := rowround (columnround x).

Definition rounds20 (x : list Z) : list Z := Nat.iter 10 doubleround x.

Definition le32 (b : Buffer) (i : nat) : Z :=
  at_ b i + at_ b (i + 1) * 256 + at_ b (i + 2) * 65536 + at_ b (i + 3) * 16777216.

Definition bytes32 (x : Z) : Buffer :=
  [byte_of_Z x; byte_of_Z (x / 256); byte_of_Z (x / 65536); byte_of_Z (x / 16777216)].

(** "expand 32-byte k" *)
Definition sigma : list Z := [0x61707865; 0x3320646e; 0x79622d32; 0x6b206574].

Definition layout (key input : Buffer) : list Z :=
  [w sigma 0; le32 key 0; le32 key 4; le32 key 8; le32 key 12;
   w sigma 1; le32 input 0; le32 input 4; le32 input 8; le32 input 12;
   w sigma 2; le32 key 16; le32 key 20; le32 key 24; le32 key 28;
   w sigma 3].

Definition salsa20_block (key input : Buffer) : Buffer :=
  let x := layout key input in
  let z := rounds20 x in
  concat (zip_with (λ a b, bytes32 (word (a + b))) x z).

Definition hsalsa20 (key input : Buffer) : Buffer :=
  let z := rounds20 (layout key input) in
  concat (map (λ i, bytes32 (w z i)) [0; 5; 10; 15; 6; 7; 8; 9]%nat).

Definition counter_bytes (n : Z) : Buffer :=
  bytes32 n ++ bytes32 (n / 4294967296).

(** The first [n] bytes of the Salsa20 stream for an 8-byte nonce. *)
Definition salsa20_stream (key nonce8 : Buffer) (n : nat) : Buffer :=
  take n (concat (map (λ i, salsa20_block key (nonce8 ++ counter_bytes (Z.of_nat i)))
                      (seq 0 ((n + 63) / 64)))).

Definition xsalsa20_stream (key nonce : Buffer) (n : nat) : Buffer :=
  salsa20_stream (hsalsa20 key (take 16 nonce)) (drop 16 nonce) n.

Definition xor_bytes (a b : Buffer) : Buffer :=
  zip_with (λ x y, byte_of_Z (Z.lxor (Z_of_byte x) (Z_of_byte y))) a b.

Fixpoint le_num (b : Buffer) : Z :=
  match b with
  | [] => 0
  | x :: rest => Z_of_byte x + 256 * le_num rest
  end.

Fixpoint le_bytes (n : nat) (x : Z) : Buffer :=
  match n with
  | O => []
  | S n' => byte_of_Z x :: le_bytes n' (x / 256)
  end.

Definition p1305 : Z := 2 ^ 130 - 5.

(** The Poly1305 accumulator over the 16-byte blocks of [msg]; at most
    [fuel] blocks, and a message has no more blocks than bytes. *)
Fixpoint poly_blocks (fuel : nat) (r acc : Z) (msg : Buffer) : Z :=
  match fuel with
  | O => acc
  | S fuel' =>
      match msg with
      | [] => acc
      | _ => let n := le_num (take 16 msg ++ [x01]) in
             poly_blocks fuel' r (((acc + n) * r) mod p1305) (drop 16 msg)
      end
  end.

Definition poly1305 (msg key : Buffer) : Buffer :=
  let r := Z.land (le_num (take 16 key)) 0x0ffffffc0ffffffc0ffffffc0fffffff in
  let s := le_num (drop 16 key) in
  let acc := poly_blocks (length msg) r 0 msg in
  le_bytes 16 ((acc + s) mod 2 ^ 128).

Definition same_bytes (a b : Buffer) : bool :=
  bool_decide (length a = length b)
  && forallb (λ p, Z_of_byte p.1 =? Z_of_byte p.2) (zip a b).

(** [nacl.secretbox(msg, nonce, key)]: the authenticator followed by the
    ciphertext. *)
Definition secretbox (msg nonce key : Buffer) : Buffer :=
  let stream := xsalsa20_stream key nonce (32 + length msg) in
  let c := xor_bytes msg (drop 32 stream) in
  poly1305 c (take 32 stream) ++ c.

(** [nacl.secretbox.open(box, nonce, key)]; [None] is [null]. *)
Definition secretbox_open (box nonce key : Buffer) : option Buffer :=
  if bool_decide (length box < 16)%nat then None
  else
    let c := drop 16 box in
    let stream := xsalsa20_stream key nonce (32 + length c) in
    if same_bytes (take 16 box) (poly1305 c (take 32 stream))
    then Some (xor_bytes c (drop 32 stream))
    else None.

(** The instance on which packets are evaluated: the real box, and a codec
    that hands the bytes through unchanged. *)
Definition native : Native :=
  Build_Native secretbox secretbox_open (λ pcm, Some pcm) (λ opus, Some opus).

(** The test vector of the NaCl distribution (tests/secretbox.c). *)
Definition test_key : Buffer :=
  fromHex "1b27556473e985d462cd51197a9a46c76009549eac6474f206c4ee0844f68389".

Definition test_nonce : Buffer :=
  fromHex "69696ee955b62b73cd62bda875fc73d68219e0036b7a0b37".

Definition test_message : Buffer :=
  fromHex ("be075fc53c81f2d5cf141316ebeb0c7b5228c52a4c62cbd44b66849b64244ffc"
        +:+ "e5ecbaaf33bd751a1ac728d45e6c61296cdc3c01233561f41db66cce314adb31"
        +:+ "0e3be8250c46f06dceea3a7fa1348057e2f6556ad6b1318a024a838f21af1fde"
        +:+ "048977eb48f59ffd4924ca1c60902e52f0a089bc76897040e082f93776384864"
        +:+ "5e0705").

Definition test_box : Buffer :=
  fromHex ("f3ffc7703f9400e52a7dfb4b3d3305d98e993b9f48681273c29650ba32fc76ce"
        +:+ "48332ea7164d96a4476fb8c531a1186ac0dfc17c98dce87b4da7f011ec48c972"
        +:+ "71d2c20f9b928fe2270d6fb863d51738b48eeee314a7cc8ab932164548e526ae"
        +:+ "90224368517acfeabd6bb3732bc0e9da99832b61ca01b6de56244a9e88d5f9b3"
        +:+ "7973f622a43d14a6599b1f654cb45a74e355a5").

End NaCl.

(** *** An idealised box

    The box carries key and nonce next to the message, and opening succeeds
    exactly when both are the ones presented: an instance of the law that a
    box opens under no other nonce.  The codec hands the bytes through. *)

Module Ideal.

#[export] Instance byte_eq_dec : EqDecision byte := Byte.byte_eq_dec.

Definition seal (message nonce key : Buffer) : Buffer := key ++ nonce ++ message.

Definition open (box nonce key : Buffer) : option Buffer :=
  let n := (length key + length nonce)%nat in
  if bool_decide (take n box = key ++ nonce) then Some (drop n box) else None.

Definition native : Native :=
  {| secretbox := seal;
     secretbox_open := open;
     opus_encode := λ pcm, Some pcm;
     opus_decode := λ opus, Some opus |}.

End Ideal.

(** ** The extension header of the specification

    The one-byte form of an RTP header extension (RFC 8285): the marker
    [0xBEDE], the length of the extension in 32-bit words, the words.  This
    is the header that the stripping property prepends to a payload. *)

Definition word32 : Type := byte * byte * byte * byte.

Definition word_bytes (w : word32) : Buffer :=
  let '(a, b, c, d) := w in [a; b; c; d].

Definition prependExtension (words : list word32) (payload : Buffer) : option Buffer :=
  len ← writeUInt16BE (Z.of_nat (length words));
  Some ([xbe; xde] ++ len ++ concat (map word_bytes words) ++ payload).

(** A word whose first byte has a zero low nibble: the element that starts
    it (if any) carries one data byte. *)
Definition short_element (w : word32) : Prop :=
  Z.land (Z_of_byte (w.1.1.1)) 15 = 0.

(** ** Concrete inputs

    Values on which the properties below are evaluated. *)

Module Sample.

(** A 20 ms chunk of silence and a 20 ms chunk of sound, as the decoder
    delivers them. *)
Definition quiet : BufferManager.AudioChunk :=
  {| BufferManager.pcmData := alloc 3840;
     BufferManager.timestamp := 0;
     BufferManager.userId := "user_7" |}.

Definition loud : Buffer := repeat x01 3840.

(** The buffer manager of the handler holding exactly ten seconds (500
    chunks) for one speaker. *)
Definition tenSeconds : BufferManager.AudioBufferManager :=
  {| BufferManager.buffers := {[ "user_7" := repeat quiet 500 ]};
     BufferManager.bufferTimeoutMs := 2000;
     BufferManager.maxBufferSizeMs := 10000;
     BufferManager.timers := {[ "user_7" := 2000 ]} |}.

Definition key : Buffer := alloc 32.

Definition liteDecoder : DecoderWorker := decoder_init key "xsalsa20_poly1305_lite".
Definition plainDecoder : DecoderWorker := decoder_init key "plain".
Definition liteEncoder : EncoderWorker := encoder_init 1 key "xsalsa20_poly1305_lite".

(** A packet as a peer would have to seal it for [liteDecoder] to open it:
    under the receive nonce of its own header and suffix. *)
Definition peerPacket (ssrc sequence timestamp : Z) (payload suffix : Buffer)
  : option Buffer :=
  header ← rtpHeader ssrc sequence timestamp;
  Some (header ++ NaCl.secretbox payload (receiveNonce header suffix) key ++ suffix).

(** An IP-discovery response: type 1, length 70, SSRC 1, the address
    "1.2.3.4" NUL-padded, port 50000; 74 bytes. *)
Definition discoveryResponse : Buffer :=
  [x00; x01; x00; x46; x00; x00; x00; x01;
   x31; x2e; x32; x2e; x33; x2e; x34] ++ alloc 57 ++ [xc3; x50].

(** A 16-byte datagram of RTP version 0 with sequence 7 and timestamp
    45110 and an empty payload before its 4-byte suffix. *)
Definition version0Datagram : Buffer :=
  [x00; x78; x00; x07; x00; x00; xb0; x36; x00; x00; x00; x09;
   x00; x00; x00; x00].

(** Discord's three-byte Opus silence frame, sealed by a peer (SSRC 5,
    sequence 8), and two voice packets of that peer. *)
Definition silencePacket : Buffer :=
  default [] (peerPacket 5 8 960 [xf8; xff; xfe] [x00; x00; x00; x08]).



(** The events that take a handler to the point where audio flows: op 2,
    the answer to the IP discovery, op 4; and the handler after them, when it
    was constructed with speech-to-text available and connected. *)
Definition sessionEvents (modes : list string) : list Handler.Event :=
  [Handler.VoiceMessageReceived (Handler.Ready 1 "10.0.0.1" 50000 modes);
   Handler.UdpMessage 0 discoveryResponse;
   Handler.VoiceMessageReceived (Handler.SessionDescription key)].

Definition session (modes : list string) : Handler.ThreadedWebRTCVoiceHandler :=
  (Handler.run (H := NaCl.native) (Handler.connect (Handler.new true))
     (sessionEvents modes)).1.


Definition liteSession := session ["xsalsa20_poly1305_lite"].

(** A session whose server offers no lite mode: the handler falls back to
    ["plain"]. *)
Definition plainSession := session ["aead_aes256_gcm_rtpsize"].

(** The same session once 65,535 frames have been sent. *)
Definition longSession : Handler.ThreadedWebRTCVoiceHandler :=
  Handler.set_timestamp (65535 * 960) (Handler.set_sequence 65535 liteSession).

(** The session after a call of [playAudio] with two frames of PCM, and
    what the call has output (sealed with the idealised box: the property
    evaluated on it does not look into the packets). *)
Definition played : Handler.ThreadedWebRTCVoiceHandler * list Handler.Output :=
  match Handler.playAudio (H := Ideal.native) liteSession (alloc (2 * 3840)) with
  | Handler.Returned h1 out1 => (h1, out1)
  | _ => (liteSession, [])
  end.

(** One payload, sealed by [liteEncoder] as frame 1 of a session: with the
    real box, and with the idealised one. *)
Definition sentPacket : Buffer :=
  default [] (sealPacket (H := NaCl.native) liteEncoder 1 960 [x78; x01; x02; x03]).

Definition idealPacket : Buffer :=
  default [] (sealPacket (H := Ideal.native) liteEncoder 1 960 [x78; x01; x02; x03]).

End Sample.

(** ** The rest of src/audioBufferManager.ts *)

Module BufferOps.

Import BufferManager.

(** [getStats]: the number of slots of the [Map] and the chunks they hold. *)
Definition getStats (m : AudioBufferManager) : nat * nat :=
  (size (buffers m),
   map_fold (λ _ buffer totalChunks, totalChunks + length buffer)%nat 0%nat (buffers m)).

(** [forceFlushAll]: [flushBuffer] for every key of the [Map].  [keys] is
    the iteration order of [this.buffers.keys()] (the order in which the
    slots were first created), which the finite map does not record. *)
Fixpoint forceFlushAll (keys : list string) (m : AudioBufferManager)
  : AudioBufferManager * list AudioReady :=
  match keys with
  | [] => (m, [])
  | uid :: rest =>
      let '(m1, events1) := flushBuffer m uid in
      let '(m2, events2) := forceFlushAll rest m1 in
      (m2, events1 ++ events2)
  end.


End BufferOps.

(** ** The rest of src/threadedWebrtcVoiceHandler.ts *)

Module HandlerOps.

Import Handler.

(** [getTranscriptionStats] *)
Definition getTranscriptionStats (h : ThreadedWebRTCVoiceHandler) : nat * nat :=
  match audioBufferManager h with
  | Some m => BufferOps.getStats m
  | None => (0%nat, 0%nat)
  end.

(** [disconnect]: both workers are terminated, the buffer manager is cleaned
    up and dropped, socket and websocket are closed (and with the socket its
    listeners).  Counters, speaking flag, send queue and the pending
    transmit timer are not touched. *)
Definition disconnect (h : ThreadedWebRTCVoiceHandler) : ThreadedWebRTCVoiceHandler :=
  set_voiceWebsocket false
    (set_listening false
       (set_discovering false
          (set_udpSocket false
             (set_audioBufferManager None
                (set_decodingWorker None
                   (set_encodingWorker None h)))))).

End HandlerOps.

(** ** src/jitterBuffer.ts *)

Module JitterBuffer.

Record JitterBuffer := {
  buffer : list Buffer;
  targetSize : Z;
  maxSize : Z;
  underrunCount : nat;
  overrunCount : nat
}.

Definition new (targetSize maxSize : Z) : JitterBuffer :=
  {| buffer := []; targetSize := targetSize; maxSize := maxSize;
     underrunCount := 0; overrunCount := 0 |}.

(** [addFrame]: at [maxSize] frames the oldest one is dropped ([shift] on an
    empty array drops nothing). *)
Definition addFrame (j : JitterBuffer) (frame : Buffer) : JitterBuffer :=
  if bool_decide (maxSize j <= Z.of_nat (length (buffer j)))
  then {| buffer := tail (buffer j) ++ [frame];
          targetSize := targetSize j; maxSize := maxSize j;
          underrunCount := underrunCount j;
          overrunCount := S (overrunCount j) |}
  else {| buffer := buffer j ++ [frame];
          targetSize := targetSize j; maxSize := maxSize j;
          underrunCount := underrunCount j;
          overrunCount := overrunCount j |}.

(** [getFrame]; [None] is [null]. *)
Definition getFrame (j : JitterBuffer) : JitterBuffer * option Buffer :=
  match buffer j with
  | [] => ({| buffer := []; targetSize := targetSize j; maxSize := maxSize j;
              underrunCount := S (underrunCount j);
              overrunCount := overrunCount j |}, None)
  | first :: rest =>
      if bool_decide (Z.of_nat (length (buffer j)) < targetSize j)
      then (j, None)
      else ({| buffer := rest; targetSize := targetSize j; maxSize := maxSize j;
               underrunCount := underrunCount j;
               overrunCount := overrunCount j |}, Some first)
  end.

(** [getStats]: size, underruns, overruns. *)
Definition getStats (j : JitterBuffer) : nat * nat * nat :=
  (length (buffer j), underrunCount j, overrunCount j).

Definition clear (j : JitterBuffer) : JitterBuffer :=
  {| buffer := []; targetSize := targetSize j; maxSize := maxSize j;
     underrunCount := 0; overrunCount := 0 |}.

(** [addFrame] for each frame of a list, in order. *)
Definition addFrames (j : JitterBuffer) (frames : list Buffer) : JitterBuffer :=
  foldl addFrame j frames.

(** [n] calls of [getFrame]: the buffer afterwards and what the calls
    returned, in order. *)
Fixpoint getFrames (n : nat) (j : JitterBuffer) : JitterBuffer * list (option Buffer) :=
  match n with
  | O => (j, [])
  | S n' =>
      let '(j1, frame) := getFrame j in
      let '(j2, frames) := getFrames n' j1 in
      (j2, frame :: frames)
  end.

End JitterBuffer.

(** ** encryptedAudioEncoder.ts: [EncryptedAudioEncoder]

    The encoder of [WebRTCVoiceHandler], which sends from the main thread.
    It frames and seals as the encoding worker does, and keeps the counters
    itself.  Its Opus encoder is set up with other options than the
    worker's; [opus_encode] stands for the [encode] method of whichever
    encoder object the code at hand calls. *)

Module EncryptedAudioEncoder.

Record EncryptedAudioEncoder := {
  opusEncoder : OpusEncoderSetup;
  sequence : Z;
  timestamp : Z;
  ssrc : Z;
  secretKey : Buffer;
  mode : string
}.

(** The constructor. *)
Definition new (ssrc : Z) (secretKey : Buffer) (mode : string) : EncryptedAudioEncoder :=
  {| opusEncoder := {| enc_rate := 48000; enc_channels := 2;
                       enc_options := {| bitrate := 64000; fec := false;
                                         plp := 0%Q; application := "" |} |};
     sequence := 0; timestamp := 0;
     ssrc := ssrc; secretKey := secretKey; mode := mode |}.

(** [createAudioPacket]: the packet and the encoder with its counters
    advanced; [None] when a statement throws, which happens before the
    counters are touched. *)
Definition createAudioPacket `{Native} (e : EncryptedAudioEncoder) (pcmData : Buffer)
  : option (EncryptedAudioEncoder * Buffer) :=
  rtpHeader ← rtpHeader (ssrc e) (sequence e) (timestamp e);
  opusData ← opus_encode pcmData;
  packet ←
    (if bool_decide (mode e = "xsalsa20_poly1305_lite") then
       nonceBuffer ← writeUInt32BE (sequence e);
       let nonce := nonceBuffer ++ alloc 20 in
       let encrypted := secretbox opusData nonce (secretKey e) in
       Some (rtpHeader ++ encrypted ++ nonceBuffer)
     else Some (rtpHeader ++ opusData));
  Some ({| opusEncoder := opusEncoder e;
           sequence := Z.land (sequence e + 1) 0xFFFF;
           timestamp := timestamp e + 960;
           ssrc := ssrc e; secretKey := secretKey e; mode := mode e |},
        packet).

Definition reset (e : EncryptedAudioEncoder) : EncryptedAudioEncoder :=
  {| opusEncoder := opusEncoder e; sequence := 0; timestamp := 0;
     ssrc := ssrc e; secretKey := secretKey e; mode := mode e |}.

(** [createAudioPacket] for each frame of a list; [None] as soon as one
    call throws. *)
Fixpoint createAudioPackets `{Native} (e : EncryptedAudioEncoder) (frames : list Buffer)
  : option (EncryptedAudioEncoder * list Buffer) :=
  match frames with
  | [] => Some (e, [])
  | pcmData :: rest =>
      '(e1, packet) ← createAudioPacket e pcmData;
      '(e2, packets) ← createAudioPackets e1 rest;
      Some (e2, packet :: packets)
  end.

End EncryptedAudioEncoder.

(** ** Calls on the buffer manager *)

Module BufferCalls.

Import BufferManager BufferOps.

(** The chunk that [addAudioChunk] makes of a call at time [c.1] with PCM
    data [c.2]. *)
Definition chunkOf (uid : string) (c : Z * Buffer) : AudioChunk :=
  {| pcmData := c.2; timestamp := c.1; userId := uid |}.

(** The calls that reach a manager in use: [addAudioChunk] from the
    handler, the callback of a silence timer, [forceFlushAll] (over the
    keys its loop visits). *)
Inductive Call :=
| Add (now : Z) (uid : string) (pcm : Buffer)
| TimerFires (uid : string)
| FlushAll (keys : list string).

Definition call (m : AudioBufferManager) (c : Call)
  : AudioBufferManager * list AudioReady :=
  match c with
  | Add now uid pcm => addAudioChunk m now uid pcm
  | TimerFires uid => silenceTimerFired m uid
  | FlushAll keys => forceFlushAll keys m
  end.

(** The manager after a sequence of calls and the events emitted on the
    way, in order. *)
Fixpoint calls (m : AudioBufferManager) (cs : list Call)
  : AudioBufferManager * list AudioReady :=
  match cs with
  | [] => (m, [])
  | c :: rest =>
      let '(m1, events1) := call m c in
      let '(m2, events2) := calls m1 rest in
      (m2, events1 ++ events2)
  end.

(** The PCM data handed over for [uid] by a sequence of calls. *)
Definition added (uid : string) (cs : list Call) : Buffer :=
  concat (map (λ c, match c with
                    | Add _ uid' pcm => if bool_decide (uid' = uid) then pcm else []
                    | _ => []
                    end) cs).

(** The PCM data emitted for [uid]. *)
Definition emittedFor (uid : string) (events : list AudioReady) : Buffer :=
  concat (map ar_audioBuffer (filter (λ e, ar_userId e = uid) events)).

(** The PCM data waiting in the slot of [uid]. *)
Definition waiting (m : AudioBufferManager) (uid : string) : Buffer :=
  concat (map pcmData (slot m uid)).

(** Whether a call names the speaker [uid]. *)
Definition touches (uid : string) (c : Call) : bool :=
  match c with
  | Add _ uid' _ => bool_decide (uid' = uid)
  | TimerFires uid' => bool_decide (uid' = uid)
  | FlushAll keys => bool_decide (uid ∈ keys)
  end.

(** A manager with chunks of two speakers waiting. *)
Definition twoSpeakers : AudioBufferManager :=
  {| buffers := <["user_7" := [chunkOf "user_7" (100, [x01; x02]);
                               chunkOf "user_7" (120, [x03; x04])]]>
                  {["user_8" := [chunkOf "user_8" (110, [x05])]]};
     bufferTimeoutMs := 2000;
     maxBufferSizeMs := 10000;
     timers := <["user_7" := 2120]> {["user_8" := 2110]} |}.

End BufferCalls.

(** ** Events after [disconnect] *)

Module AfterDisconnect.

Import Handler.

(** The events that can still reach a handler after [disconnect]: calls of
    its methods and callbacks that were queued before.  Messages of the
    voice gateway are delivered by the client, which drops the handler;
    the transmission timer is left out because its callback dereferences
    the socket that [disconnect] has cleared. *)
Definition reaches (e : Event) : bool :=
  match e with
  | UdpMessage _ _ => true
  | PlayAudio _ => true
  | SilenceTimer _ => true
  | SetTranscription _ => true
  | VoiceMessageReceived _ => false
  | TransmitTimer => false
  end.

End AfterDisconnect.

(** ** More concrete inputs *)

Module Overlap.

(** [Sample.played] is a session in the middle of a batch of two frames;
    this is a second call of [playAudio] on it, with one frame of PCM. *)
Definition playedAgain : Handler.ThreadedWebRTCVoiceHandler * list Handler.Output :=
  match Handler.playAudio (H := Ideal.native) Sample.played.1 (alloc 3840) with
  | Handler.Returned h1 out1 => (h1, out1)
  | _ => (Sample.played.1, [])
  end.

End Overlap.

(** ** Calls on the jitter buffer *)

Module JitterCalls.

Import JitterBuffer.

Inductive Call :=
| AddFrame (frame : Buffer)
| GetFrame
| Clear.

Definition call (j : JitterBuffer) (c : Call) : JitterBuffer :=
  match c with
  | AddFrame frame => addFrame j frame
  | GetFrame => (getFrame j).1
  | Clear => clear j
  end.

Definition calls (j : JitterBuffer) (cs : list Call) : JitterBuffer :=
  foldl call j cs.

End JitterCalls.

(** * Properties *)

(** ** Bytes *)

Lemma Z_of_byte_range b : 0 <= Z_of_byte b < 256.
Proof.
  unfold Z_of_byte. pose proof (Byte.to_N_bounded b) as Hb.
  apply N2Z.inj_le in Hb. simpl in Hb. lia.
Qed.

Lemma Z_of_byte_of_Z z : Z_of_byte (byte_of_Z z) = z mod 256.
Proof.
  unfold Z_of_byte, byte_of_Z.
  assert (Hr : 0 <= z mod 256 < 256) by (apply Z.mod_pos_bound; lia).
  destruct (Byte.of_N (Z.to_N (z mod 256))) as [b|] eqn:E.
  - apply Byte.to_of_N in E. rewrite E. apply Z2N.id. lia.
  - apply Byte.of_N_None_iff in E. lia.
Qed.

Lemma byte_of_Z_of_byte b : byte_of_Z (Z_of_byte b) = b.
Proof.
  unfold byte_of_Z, Z_of_byte.
  rewrite Z.mod_small by (apply Z_of_byte_range).
  rewrite N2Z.id, Byte.of_to_N. reflexivity.
Qed.

Lemma at_middle (pre : Buffer) b (rest : Buffer) :
  at_ (pre ++ b :: rest) (length pre) = Z_of_byte b.
Proof. unfold at_. by rewrite list_lookup_middle. Qed.

Lemma at_app_r (pre rest : Buffer) i :
  at_ (pre ++ rest) (length pre + i) = at_ rest i.
Proof.
  unfold at_. rewrite lookup_app_r by lia.
  by replace (length pre + i - length pre)%nat with i by lia.
Qed.

Lemma readUInt16BE_write v (hd tl : Buffer) b :
  writeUInt16BE v = Some b →
  readUInt16BE (hd ++ b ++ tl) (length hd) = v.
Proof.
  unfold writeUInt16BE. case_bool_decide as Hv; [|done]. intros [= <-].
  unfold readUInt16BE.
  replace (length hd) with (length hd + 0)%nat at 1 by lia.
  rewrite !at_app_r. unfold at_. simpl.
  rewrite !Z_of_byte_of_Z.
  rewrite (Z.mod_small (v / 256)) by (split; [apply Z.div_pos; lia | apply Z.div_lt_upper_bound; lia]).
  pose proof (Z.div_mod v 256). lia.
Qed.

Lemma readUInt32BE_write v (hd tl : Buffer) b :
  writeUInt32BE v = Some b →
  readUInt32BE (hd ++ b ++ tl) (length hd) = v.
Proof.
  unfold writeUInt32BE. case_bool_decide as Hv; [|done]. intros [= <-].
  unfold readUInt32BE.
  replace (length hd) with (length hd + 0)%nat at 1 by lia.
  rewrite !at_app_r. unfold at_. simpl.
  rewrite !Z_of_byte_of_Z.
  rewrite (Z.mod_small (v / 16777216))
    by (split; [apply Z.div_pos; lia | apply Z.div_lt_upper_bound; lia]).
  pose proof (Z.div_mod v 256 ltac:(lia)).
  pose proof (Z.div_mod (v / 256) 256 ltac:(lia)).
  pose proof (Z.div_mod (v / 65536) 256 ltac:(lia)).
  replace (v / 65536) with (v / 256 / 256) in * by (rewrite Z.div_div by lia; reflexivity).
  replace (v / 16777216) with (v / 256 / 256 / 256) in *
    by (rewrite !Z.div_div by lia; reflexivity).
  lia.
Qed.

(** ** The box

    The transcription of [nacl.secretbox] reproduces the test vector of the
    NaCl distribution, and opens it again. *)

Example secretbox_test_vector :
  NaCl.secretbox NaCl.test_message NaCl.test_nonce NaCl.test_key = NaCl.test_box.
Proof. vm_compute. reflexivity. Qed.

Example secretbox_open_test_vector :
  NaCl.secretbox_open NaCl.test_box NaCl.test_nonce NaCl.test_key
  = Some NaCl.test_message.
Proof. vm_compute. reflexivity. Qed.

(** ** Extension stripping *)

Section Stripping.

Lemma length_words (words : list word32) :
  length (concat (map word_bytes words)) = (4 * length words)%nat.
Proof.
  induction words as [|[[[a b] c] d] words IH]; [done|].
  cbn [map concat word_bytes]. rewrite length_app, IH. simpl. lia.
Qed.

Lemma skipExtensions_words (pre : Buffer) (words : list word32) (rest : Buffer) :
  Forall short_element words →
  rest ≠ [] →
  skipExtensions (pre ++ concat (map word_bytes words) ++ rest)
                 (length words) (length pre)
  = (length pre + 4 * length words)%nat.
Proof.
  intros Hw Hrest. revert pre. induction Hw as [|w words Hshort _ IH]; intros pre.
  - simpl. lia.
  - destruct w as [[[a b] c] d]. unfold short_element in Hshort. simpl in Hshort.
    cbn [length map concat skipExtensions word_bytes].
    replace (pre ++ ([a; b; c; d] ++ concat (map word_bytes words)) ++ rest)
      with (pre ++ a :: ([b; c; d] ++ concat (map word_bytes words) ++ rest))
      by (simpl; by rewrite <- ?app_assoc).
    rewrite list_lookup_middle by done.
    rewrite Hshort. change (Z.to_nat (0 + 1) * 4)%nat with 4%nat.
    replace (pre ++ a :: [b; c; d] ++ concat (map word_bytes words) ++ rest)
      with ((pre ++ [a; b; c; d]) ++ concat (map word_bytes words) ++ rest)
      by (by rewrite <- app_assoc).
    replace (length pre + 4)%nat with (length (pre ++ [a; b; c; d]))
      by (rewrite length_app; reflexivity).
    rewrite IH. rewrite length_app. simpl. lia.
Qed.

Lemma skipPadding_stop (data : Buffer) n offset b :
  data !! offset = Some b → Z_of_byte b ≠ 0 →
  skipPadding data n offset = offset.
Proof.
  intros Hb Hnz. destruct n; [done|]. simpl. rewrite Hb.
  by apply Z.eqb_neq in Hnz as ->.
Qed.

End Stripping.

Section StrippingClaim.

Lemma prependExtension_shape words (P data : Buffer) :
  prependExtension words P = Some data →
  ∃ hi lo, writeUInt16BE (Z.of_nat (length words)) = Some [hi; lo]
           ∧ data = [xbe; xde; hi; lo] ++ concat (map word_bytes words) ++ P.
Proof.
  unfold prependExtension.
  destruct (writeUInt16BE (Z.of_nat (length words))) as [len|] eqn:E; [|done].
  simpl. intros [= <-]. unfold writeUInt16BE in E.
  case_bool_decide; [|done]. injection E as <-. eauto.
Qed.

(** C6 (amended).  Stripping undoes the prepending of a 0xBEDE header
    when the payload starts with a non-zero byte and every word of the
    extension starts with a byte whose low nibble is 0 (an element with
    one data byte, or padding). *)
Theorem C6_strip_prepended_extension (words : list word32) (P data : Buffer) :
  Forall short_element words →
  (∃ b rest, P = b :: rest ∧ Z_of_byte b ≠ 0) →
  prependExtension words P = Some data →
  extractOpusFromRTP data = P.
Proof.
  intros Hw (b & rest & -> & Hb) Hdata.
  destruct (prependExtension_shape _ _ _ Hdata) as (hi & lo & Hlen & ->).
  unfold extractOpusFromRTP.
  rewrite bool_decide_eq_false_2 by (simpl; lia).
  rewrite bool_decide_eq_true_2
    by (rewrite !length_app; simpl; lia).
  change (at_ ([xbe; xde; hi; lo] ++ _) 0) with 190.
  change (at_ ([xbe; xde; hi; lo] ++ _) 1) with 222.
  cbn [andb Z.eqb Pos.eqb].
  assert (Hread : readUInt16BE
            ([xbe; xde; hi; lo] ++ concat (map word_bytes words) ++ b :: rest) 2
          = Z.of_nat (length words)).
  { apply (readUInt16BE_write _ [xbe; xde] _ _ Hlen). }
  rewrite Hread, Nat2Z.id.
  pose proof (skipExtensions_words [xbe; xde; hi; lo] words (b :: rest) Hw) as Hskip.
  change (length [xbe; xde; hi; lo]) with 4%nat in Hskip.
  rewrite Hskip by done. clear Hskip.
  assert (Hat : ([xbe; xde; hi; lo] ++ concat (map word_bytes words) ++ b :: rest)
                  !! (4 + 4 * length words)%nat = Some b).
  { rewrite app_assoc. apply list_lookup_middle.
    rewrite length_app, length_words. reflexivity. }
  rewrite (skipPadding_stop _ _ _ b Hat Hb).
  unfold slice_from. rewrite app_assoc.
  rewrite drop_app_length'; [done|].
  rewrite length_app, length_words. reflexivity.
Qed.

Lemma C6_strip_prepended_extension_witness :
  extractOpusFromRTP [xbe; xde; x00; x01; x10; xaa; x00; x00; x78; x01] = [x78; x01].
Proof.
  apply (C6_strip_prepended_extension [(x10, xaa, x00, x00)] [x78; x01]).
  - repeat constructor.
  - exists x78, [x01]. split; [reflexivity | discriminate].
  - reflexivity.
Defined.

(** C6 fails as stated: the padding skip removes a leading zero byte of
    the payload, and a payload that itself starts with 0xBEDE keeps that
    marker, since the header is stripped once. *)
Lemma C6_counterexample :
  prependExtension [(x10, xaa, x00, x00)] [x00; x7f]
    = Some [xbe; xde; x00; x01; x10; xaa; x00; x00; x00; x7f]
  ∧ extractOpusFromRTP [xbe; xde; x00; x01; x10; xaa; x00; x00; x00; x7f] = [x7f]
  ∧ prependExtension [] [xbe; xde; x01] = Some [xbe; xde; x00; x00; xbe; xde; x01]
  ∧ extractOpusFromRTP [xbe; xde; x00; x00; xbe; xde; x01] = [xbe; xde; x01].
Proof. repeat split; reflexivity. Qed.

End StrippingClaim.

(** ** The per-speaker buffer *)

Section Buffering.

Import BufferManager.

Lemma totalBytes_snoc (chunks : list AudioChunk) (c : AudioChunk) :
  totalBytes (chunks ++ [c]) = (totalBytes chunks + length (pcmData c))%nat.
Proof. unfold totalBytes. by rewrite foldl_app. Qed.

Lemma totalBytes_repeat (c : AudioChunk) (n : nat) :
  totalBytes (repeat c n) = (n * length (pcmData c))%nat.
Proof.
  induction n as [|n IH]; [done|].
  replace (repeat c (S n)) with (repeat c n ++ [c])
    by (by rewrite <- repeat_cons).
  rewrite totalBytes_snoc, IH. lia.
Qed.

Lemma estimate_nil : estimateBufferDuration [] = 0%Q.
Proof. reflexivity. Qed.

(** The flush of a slot that holds at least one chunk. *)
Lemma flushBuffer_nonempty (m : AudioBufferManager) uid (old : list AudioChunk)
    (c : AudioChunk) :
  buffers m !! uid = Some (old ++ [c]) →
  flushBuffer m uid =
    ({| buffers := <[uid := []]> (buffers m);
        bufferTimeoutMs := bufferTimeoutMs m;
        maxBufferSizeMs := maxBufferSizeMs m;
        timers := delete uid (timers m) |},
     [{| ar_userId := uid;
         ar_audioBuffer := concat (map pcmData old) ++ pcmData c;
         ar_startTime := timestamp (hd c old);
         ar_endTime := timestamp c;
         ar_chunkCount := S (length old) |}]).
Proof.
  intros Hslot. unfold flushBuffer. rewrite Hslot.
  destruct (old ++ [c]) as [|first rest] eqn:E.
  { by destruct old. }
  rewrite <- E. repeat f_equal.
  - rewrite map_app, concat_app. simpl. by rewrite app_nil_r.
  - destruct old; simpl in E; by injection E as <-.
  - apply last_last.
  - rewrite length_app. simpl. lia.
Qed.

(** What [addAudioChunk] does when the estimate with the new chunk
    exceeds the maximum: the whole slot, new chunk included, is emitted
    and the slot is emptied. *)
Lemma addAudioChunk_overflow (m : AudioBufferManager) now uid (pcm : Buffer) :
  let chunk := {| pcmData := pcm; timestamp := now; userId := uid |} in
  (inject_Z (maxBufferSizeMs m) < estimateBufferDuration (slot m uid ++ [chunk]))%Q →
  addAudioChunk m now uid pcm =
    ({| buffers := <[uid := []]> (buffers m);
        bufferTimeoutMs := bufferTimeoutMs m;
        maxBufferSizeMs := maxBufferSizeMs m;
        timers := delete uid (timers m) |},
     [{| ar_userId := uid;
         ar_audioBuffer := concat (map pcmData (slot m uid)) ++ pcm;
         ar_startTime := timestamp (hd chunk (slot m uid));
         ar_endTime := now;
         ar_chunkCount := S (length (slot m uid)) |}]).
Proof.
  intros chunk Hover. unfold addAudioChunk. fold chunk. fold (slot m uid).
  destruct (Qlt_le_dec _ _) as [_|Hle].
  - erewrite flushBuffer_nonempty by (simpl; apply lookup_insert_eq).
    simpl. by rewrite insert_insert_eq, delete_insert_eq.
  - exfalso. apply (Qlt_not_le _ _ Hover Hle).
Qed.

Lemma addAudioChunk_within (m : AudioBufferManager) now uid (pcm : Buffer) :
  let chunk := {| pcmData := pcm; timestamp := now; userId := uid |} in
  (estimateBufferDuration (slot m uid ++ [chunk]) <= inject_Z (maxBufferSizeMs m))%Q →
  addAudioChunk m now uid pcm =
    ({| buffers := <[uid := slot m uid ++ [chunk]]> (buffers m);
        bufferTimeoutMs := bufferTimeoutMs m;
        maxBufferSizeMs := maxBufferSizeMs m;
        timers := <[uid := now + bufferTimeoutMs m]> (timers m) |},
     []).
Proof.
  intros chunk Hle. unfold addAudioChunk. fold chunk. fold (slot m uid).
  destruct (Qlt_le_dec _ _) as [Hlt|_]; [|done].
  exfalso. apply (Qlt_not_le _ _ Hlt Hle).
Qed.

End Buffering.

Section BufferingClaims.

Import BufferManager.

Lemma estimate_exceeds (chunks : list AudioChunk) (max : Z) :
  chunks ≠ [] →
  max * 192 < Z.of_nat (totalBytes chunks) →
  (inject_Z max < estimateBufferDuration chunks)%Q.
Proof.
  intros Hne Hlt. unfold estimateBufferDuration.
  rewrite bool_decide_eq_false_2 by (by destruct chunks).
  unfold Qlt. simpl. lia.
Qed.

(** C7 (amended).  When the estimate with the new chunk exceeds the
    maximum, the chunk is stored first and the slot is flushed in the same
    call: one utterance is emitted, it ends with the new chunk, and the
    slot is left empty. *)
Theorem C7_overflow_flushes_new_chunk (m : AudioBufferManager) now uid (pcm : Buffer) :
  let chunk := {| pcmData := pcm; timestamp := now; userId := uid |} in
  (inject_Z (maxBufferSizeMs m) < estimateBufferDuration (slot m uid ++ [chunk]))%Q →
  let '(m', emitted) := addAudioChunk m now uid pcm in
  emitted = [{| ar_userId := uid;
                ar_audioBuffer := concat (map pcmData (slot m uid)) ++ pcm;
                ar_startTime := timestamp (hd chunk (slot m uid));
                ar_endTime := now;
                ar_chunkCount := S (length (slot m uid)) |}]
  ∧ slot m' uid = []
  ∧ timers m' !! uid = None.
Proof.
  intros chunk Hover. rewrite (addAudioChunk_overflow m now uid pcm Hover).
  split; [done|]. unfold slot. simpl.
  by rewrite lookup_insert_eq, lookup_delete_eq.
Qed.

Lemma tenSeconds_overflows :
  (inject_Z (maxBufferSizeMs Sample.tenSeconds)
   < estimateBufferDuration
       (slot Sample.tenSeconds "user_7"
        ++ [{| pcmData := Sample.loud; timestamp := 10000; userId := "user_7" |}]))%Q.
Proof.
  apply estimate_exceeds; [by destruct (slot _ _)|].
  unfold slot, Sample.tenSeconds. cbn [buffers maxBufferSizeMs].
  rewrite lookup_singleton_eq. cbn [default].
  rewrite totalBytes_snoc. unfold id. rewrite totalBytes_repeat.
  cbn [pcmData Sample.quiet]. unfold Sample.loud, alloc.
  rewrite !repeat_length. lia.
Qed.

Lemma C7_overflow_flushes_new_chunk_witness :
  let '(m', emitted) := addAudioChunk Sample.tenSeconds 10000 "user_7" Sample.loud in
  emitted = [{| ar_userId := "user_7";
                ar_audioBuffer :=
                  concat (map pcmData (slot Sample.tenSeconds "user_7")) ++ Sample.loud;
                ar_startTime :=
                  timestamp (hd {| pcmData := Sample.loud; timestamp := 10000;
                                   userId := "user_7" |}
                                (slot Sample.tenSeconds "user_7"));
                ar_endTime := 10000;
                ar_chunkCount := S (length (slot Sample.tenSeconds "user_7")) |}]
  ∧ slot m' "user_7" = []
  ∧ timers m' !! "user_7" = None.
Proof.
  exact (C7_overflow_flushes_new_chunk Sample.tenSeconds 10000 "user_7" Sample.loud
           tenSeconds_overflows).
Defined.

(** C7 fails as stated: with ten seconds buffered, the chunk that takes
    the slot past the cap is not held back for the next utterance; it is
    the end of the utterance emitted by the call, and nothing of it stays
    in the slot. *)
Lemma C7_counterexample :
  (addAudioChunk Sample.tenSeconds 10000 "user_7" Sample.loud).2
    = [{| ar_userId := "user_7";
          ar_audioBuffer := concat (map pcmData (repeat Sample.quiet 500)) ++ Sample.loud;
          ar_startTime := 0;
          ar_endTime := 10000;
          ar_chunkCount := 501 |}]
  ∧ slot (addAudioChunk Sample.tenSeconds 10000 "user_7" Sample.loud).1 "user_7" = [].
Proof.
  rewrite (addAudioChunk_overflow _ _ _ _ tenSeconds_overflows).
  split.
  - cbn [snd]. unfold slot, Sample.tenSeconds. cbn [buffers].
    rewrite lookup_singleton_eq. cbn [default]. unfold id.
    rewrite repeat_length. reflexivity.
  - unfold slot. cbn [fst buffers]. by rewrite lookup_insert_eq.
Qed.

(** C10.  After [addAudioChunk] returns, the estimated duration of the
    speaker's slot is at most the configured maximum (a maximum that is
    not negative, as the 10,000 ms of the handler). *)
Theorem C10_buffered_duration_bounded (m : AudioBufferManager) now uid (pcm : Buffer) :
  0 <= maxBufferSizeMs m →
  let m' := (addAudioChunk m now uid pcm).1 in
  maxBufferSizeMs m' = maxBufferSizeMs m
  ∧ (estimateBufferDuration (slot m' uid) <= inject_Z (maxBufferSizeMs m'))%Q.
Proof.
  intros Hmax.
  set (chunk := {| pcmData := pcm; timestamp := now; userId := uid |}).
  destruct (Qlt_le_dec (inject_Z (maxBufferSizeMs m))
              (estimateBufferDuration (slot m uid ++ [chunk]))) as [Hover|Hfits].
  - rewrite (addAudioChunk_overflow m now uid pcm Hover). cbn [fst].
    split; [done|]. unfold slot. cbn [buffers maxBufferSizeMs].
    rewrite lookup_insert_eq. cbn [default id]. rewrite estimate_nil.
    unfold Qle. simpl. lia.
  - rewrite (addAudioChunk_within m now uid pcm Hfits). cbn [fst].
    split; [done|]. unfold slot at 1. cbn [buffers maxBufferSizeMs].
    rewrite lookup_insert_eq. exact Hfits.
Qed.

Lemma C10_buffered_duration_bounded_witness :
  0 <= maxBufferSizeMs Sample.tenSeconds
  ∧ (estimateBufferDuration
       (slot (addAudioChunk Sample.tenSeconds 10000 "user_7" Sample.loud).1 "user_7")
     <= inject_Z (maxBufferSizeMs
                    (addAudioChunk Sample.tenSeconds 10000 "user_7" Sample.loud).1))%Q.
Proof.
  split; [simpl; lia|].
  apply (C10_buffered_duration_bounded Sample.tenSeconds 10000 "user_7" Sample.loud).
  simpl. lia.
Defined.

End BufferingClaims.

(** ** The decoding worker *)

Section Decoding.

Context `{Native}.

Lemma extract_short (opusData : Buffer) :
  (length opusData ≤ 4)%nat → extractOpusFromRTP opusData = opusData.
Proof.
  intros Hlen. unfold extractOpusFromRTP.
  case_bool_decide; [done|].
  rewrite (bool_decide_eq_false_2 (4 < length opusData)%nat) by lia. done.
Qed.

Lemma decode_too_short (w : DecoderWorker) (frame : EncryptedFrame) :
  (length (ef_rtpPacket frame) < 12)%nat →
  decode w frame =
    {| reply := DecodeError (ef_id frame) "Invalid RTP packet: too short";
       decoderInput := None |}.
Proof. intros Hlen. unfold decode. by rewrite bool_decide_eq_true_2. Qed.


(** In every mode but the lite one the worker looks at nothing but the
    length of the datagram. *)
Lemma decode_unencrypted (w : DecoderWorker) (frame : EncryptedFrame) :
  dw_mode w ≠ "xsalsa20_poly1305_lite" →
  (12 ≤ length (ef_rtpPacket frame))%nat →
  let cleanOpusData := extractOpusFromRTP (slice_from 12 (ef_rtpPacket frame)) in
  reply (decode w frame) =
    Decoded {| df_id := ef_id frame;
               df_pcmData :=
                 if bool_decide (length cleanOpusData = 0%nat) then silenceFrame
                 else default silenceFrame (opus_decode cleanOpusData);
               df_sequence := readUInt16BE (ef_rtpPacket frame) 2;
               df_timestamp := readUInt32BE (ef_rtpPacket frame) 4 |}.
Proof.
  intros Hmode Hlen. unfold decode, openPacket.
  rewrite bool_decide_eq_false_2 by lia.
  rewrite (bool_decide_eq_false_2 _ Hmode).
  case_bool_decide; [done|]. simpl.
  by destruct (opus_decode _).
Qed.

(** The sentinel of the lite mode: a packet with sequence 7, timestamp
    45110 and at most 40 bytes between header and suffix is answered with
    silence, whatever its other bytes. *)
Lemma decode_sentinel (w : DecoderWorker) (frame : EncryptedFrame) :
  dw_mode w = "xsalsa20_poly1305_lite" →
  (16 ≤ length (ef_rtpPacket frame) ≤ 56)%nat →
  readUInt16BE (ef_rtpPacket frame) 2 = 7 →
  readUInt32BE (ef_rtpPacket frame) 4 = 45110 →
  decode w frame =
    {| reply := Decoded {| df_id := ef_id frame; df_pcmData := silenceFrame;
                           df_sequence := 7; df_timestamp := 45110 |};
       decoderInput := None |}.
Proof.
  intros Hmode Hlen Hseq Hts. unfold decode, openPacket.
  rewrite bool_decide_eq_false_2 by lia.
  rewrite (bool_decide_eq_true_2 _ Hmode).
  rewrite bool_decide_eq_false_2 by lia.
  rewrite Hseq, Hts. unfold isLikelySilencePacket.
  rewrite bool_decide_eq_true_2; [done|].
  unfold slice_between. rewrite length_take, length_drop. lia.
Qed.

End Decoding.

Section DecodingClaims.

Context `{Native}.

(** C5 (amended).  A plaintext of at most 3 bytes is turned into the
    3,840-byte silence frame without the decoder only when it is empty; a
    plaintext of 1 to 3 bytes is handed to the Opus decoder as it is, and
    silence is substituted only if the decoder throws. *)
Theorem C5_short_plaintext (w : DecoderWorker) (frame : EncryptedFrame)
    (plaintext : Buffer) :
  let rtpPacket := ef_rtpPacket frame in
  (12 ≤ length rtpPacket)%nat →
  openPacket w rtpPacket (readUInt16BE rtpPacket 2) (readUInt32BE rtpPacket 4)
    = inr plaintext →
  (length plaintext ≤ 3)%nat →
  let pcm := if bool_decide (plaintext = [])
             then silenceFrame
             else default silenceFrame (opus_decode plaintext) in
  decode w frame =
    {| reply := Decoded {| df_id := ef_id frame; df_pcmData := pcm;
                           df_sequence := readUInt16BE rtpPacket 2;
                           df_timestamp := readUInt32BE rtpPacket 4 |};
       decoderInput := if bool_decide (plaintext = []) then None else Some plaintext |}
  ∧ silenceFrame = repeat x00 3840.
Proof.
  intros rtpPacket Hlen Hopen Hshort pcm. split; [|reflexivity].
  unfold decode. fold rtpPacket.
  rewrite bool_decide_eq_false_2 by lia.
  rewrite Hopen, extract_short by lia.
  subst pcm. destruct plaintext as [|b rest]; [done|].
  rewrite bool_decide_eq_false_2 by done.
  rewrite (bool_decide_eq_false_2 (b :: rest = [])) by done.
  by destruct (opus_decode _).
Qed.

End DecodingClaims.

Lemma C5_short_plaintext_witness :
  decode (H := NaCl.native) Sample.liteDecoder
         {| ef_id := 0; ef_rtpPacket := Sample.silencePacket |}
  = {| reply := Decoded {| df_id := 0;
                           df_pcmData :=
                             default silenceFrame
                               (opus_decode (Native := NaCl.native) [xf8; xff; xfe]);
                           df_sequence := readUInt16BE Sample.silencePacket 2;
                           df_timestamp := readUInt32BE Sample.silencePacket 4 |};
       decoderInput := Some [xf8; xff; xfe] |}
  ∧ silenceFrame = repeat x00 3840.
Proof.
  apply (C5_short_plaintext (H := NaCl.native) Sample.liteDecoder
           {| ef_id := 0; ef_rtpPacket := Sample.silencePacket |} [xf8; xff; xfe]).
  - vm_compute. lia.
  - vm_compute. reflexivity.
  - simpl. lia.
Defined.

(** C5 fails as stated: the three-byte silence frame [F8 FF FE] that a
    peer sends is passed to the Opus decoder, and the PCM of the packet is
    what the decoder returns. *)
Lemma C5_counterexample :
  let outcome := decode (H := NaCl.native) Sample.liteDecoder
                        {| ef_id := 0; ef_rtpPacket := Sample.silencePacket |} in
  openPacket (H := NaCl.native) Sample.liteDecoder Sample.silencePacket 8 960
    = inr [xf8; xff; xfe]
  ∧ decoderInput outcome = Some [xf8; xff; xfe]
  ∧ reply outcome = Decoded {| df_id := 0; df_pcmData := [xf8; xff; xfe];
                               df_sequence := 8; df_timestamp := 960 |}.
Proof. vm_compute. repeat split; reflexivity. Qed.

(** ** The receive path of the handler *)

Section Receiving.

Context `{Native}.

Import Handler.



(** A datagram shorter than 12 bytes is rejected: the worker answers with
    an error, nothing is emitted and nothing is buffered. *)
Lemma short_datagram_rejected (h : ThreadedWebRTCVoiceHandler) now (packet : Buffer) :
  (length packet < 12)%nat →
  let '(h', out) := onAudioPacket h now packet in
  out = [] ∧ audioBufferManager h' = audioBufferManager h.
Proof.
  intros Hlen. unfold onAudioPacket, decodeFrame.
  assert (reply (match decodingWorker h with
                 | Some w => decode w {| ef_id := decodeFrameId h; ef_rtpPacket := packet |}
                 | None => decodeUninitialised
                             {| ef_id := decodeFrameId h; ef_rtpPacket := packet |}
                 end)
          = DecodeError (decodeFrameId h) "Invalid RTP packet: too short") as ->.
  { destruct (decodingWorker h) as [w|].
    - by rewrite decode_too_short.
    - unfold decodeUninitialised. by rewrite bool_decide_eq_true_2. }
  split; [done|]. by destruct h.
Qed.

(** C3 (the check the code lacks).  Outside the lite mode the decoding
    worker accepts every datagram of at least 12 bytes: neither the RTP
    version bits nor the IP-discovery marker are looked at, and the
    datagram always comes back as a decoded frame with PCM. *)
Theorem C3_datagram_decoded_unchecked (w : DecoderWorker) (frame : EncryptedFrame) :
  dw_mode w ≠ "xsalsa20_poly1305_lite" →
  (12 ≤ length (ef_rtpPacket frame))%nat →
  ∃ pcm, reply (decode w frame) =
           Decoded {| df_id := ef_id frame; df_pcmData := pcm;
                      df_sequence := readUInt16BE (ef_rtpPacket frame) 2;
                      df_timestamp := readUInt32BE (ef_rtpPacket frame) 4 |}.
Proof.
  intros Hmode Hlen. eexists. by apply decode_unencrypted.
Qed.


End Receiving.

Lemma C3_datagram_decoded_unchecked_witness :
  ∃ pcm, reply (decode (H := NaCl.native) Sample.plainDecoder
                       {| ef_id := 0; ef_rtpPacket := Sample.discoveryResponse |}) =
           Decoded {| df_id := 0; df_pcmData := pcm;
                      df_sequence := readUInt16BE Sample.discoveryResponse 2;
                      df_timestamp := readUInt32BE Sample.discoveryResponse 4 |}.
Proof.
  apply (C3_datagram_decoded_unchecked (H := NaCl.native) Sample.plainDecoder
           {| ef_id := 0; ef_rtpPacket := Sample.discoveryResponse |}).
  - discriminate.
  - vm_compute. lia.
Defined.

(** The 74-byte IP-discovery response, received by a session whose server
    offered no lite mode, is decoded and buffered as audio of a speaker
    named after bytes 2-3 of the datagram (the length field, 70). *)
Lemma discovery_response_buffered :
  let '(h, out) := Handler.onUdpMessage (H := NaCl.native) Sample.plainSession 5
                     Sample.discoveryResponse in
  length out = 1%nat
  ∧ Handler.buffered h "user_70"
    = [{| BufferManager.pcmData := drop 12 Sample.discoveryResponse;
               BufferManager.timestamp := 5;
               BufferManager.userId := "user_70" |}].
Proof. vm_compute. split; reflexivity. Qed.

(** In the lite mode a 16-byte datagram of RTP version 0 that carries
    sequence 7 and timestamp 45110 is answered with the silence frame
    without any decryption, and buffered. *)
Lemma version0_datagram_buffered :
  let '(h, out) := Handler.onUdpMessage (H := NaCl.native) Sample.liteSession 5
                     Sample.version0Datagram in
  at_ Sample.version0Datagram 0 / 64 = 0
  ∧ length out = 1%nat
  ∧ Handler.buffered h "user_7"
    = [{| BufferManager.pcmData := silenceFrame;
               BufferManager.timestamp := 5;
               BufferManager.userId := "user_7" |}].
Proof. vm_compute. repeat split; reflexivity. Qed.



(** ** The encoder configuration *)



(** ** Sealing and opening *)

Section Packets.

Lemma writeUInt16BE_length v b : writeUInt16BE v = Some b → length b = 2%nat.
Proof. unfold writeUInt16BE. case_bool_decide; [|done]. by intros [= <-]. Qed.

Lemma writeUInt32BE_length v b : writeUInt32BE v = Some b → length b = 4%nat.
Proof. unfold writeUInt32BE. case_bool_decide; [|done]. by intros [= <-]. Qed.

Lemma writeUInt16BE_range v b : writeUInt16BE v = Some b → 0 <= v <= 65535.
Proof. unfold writeUInt16BE. by case_bool_decide. Qed.

(** The most significant byte of the send nonce is zero: the sequence
    number has passed [writeUInt16BE]. *)
Lemma writeUInt32BE_small v b :
  0 <= v <= 65535 → writeUInt32BE v = Some b → ∃ rest, b = x00 :: rest.
Proof.
  intros Hv. unfold writeUInt32BE. case_bool_decide; [|done]. intros [= <-].
  rewrite (Z.div_small v 16777216) by lia. by eexists.
Qed.

Lemma rtpHeader_shape ssrc sequence timestamp header :
  rtpHeader ssrc sequence timestamp = Some header →
  ∃ s t c, writeUInt16BE sequence = Some s
           ∧ writeUInt32BE timestamp = Some t
           ∧ writeUInt32BE ssrc = Some c
           ∧ header = [x80; x78] ++ s ++ t ++ c.
Proof.
  unfold rtpHeader.
  destruct (writeUInt16BE sequence) as [s|]; [|done].
  destruct (writeUInt32BE timestamp) as [t|]; [|done].
  destruct (writeUInt32BE ssrc) as [c|]; [|done].
  simpl. intros [= <-]. by exists s, t, c.
Qed.

Lemma rtpHeader_length ssrc sequence timestamp header :
  rtpHeader ssrc sequence timestamp = Some header → length header = 12%nat.
Proof.
  intros (s & t & c & Hs & Ht & Hc & ->)%rtpHeader_shape.
  apply writeUInt16BE_length in Hs. apply writeUInt32BE_length in Ht, Hc.
  rewrite !length_app. simpl. lia.
Qed.

(** Sequence and timestamp are read back from the header as they were
    written. *)
Lemma rtpHeader_read ssrc sequence timestamp header (rest : Buffer) :
  rtpHeader ssrc sequence timestamp = Some header →
  readUInt16BE (header ++ rest) 2 = sequence
  ∧ readUInt32BE (header ++ rest) 4 = timestamp.
Proof.
  intros (s & t & c & Hs & Ht & Hc & ->)%rtpHeader_shape. split.
  - replace (([x80; x78] ++ s ++ t ++ c) ++ rest)
      with ([x80; x78] ++ s ++ (t ++ c ++ rest))
      by (by rewrite <- !app_assoc).
    by apply (readUInt16BE_write sequence [x80; x78]).
  - replace (([x80; x78] ++ s ++ t ++ c) ++ rest)
      with (([x80; x78] ++ s) ++ t ++ (c ++ rest))
      by (by rewrite <- !app_assoc).
    replace 4%nat with (length ([x80; x78] ++ s))
      by (rewrite length_app, (writeUInt16BE_length _ _ Hs); reflexivity).
    by apply readUInt32BE_write.
Qed.

(** The pieces of a packet [header ++ box ++ suffix]. *)
Lemma slice_last_suffix (header box suffix : Buffer) :
  length suffix = 4%nat → slice_last 4 (header ++ box ++ suffix) = suffix.
Proof.
  intros Hs. unfold slice_last. rewrite app_assoc.
  apply drop_app_length'. rewrite !length_app. lia.
Qed.

Lemma slice_between_box (header box suffix : Buffer) :
  length header = 12%nat → length suffix = 4%nat →
  slice_between 12 4 (header ++ box ++ suffix) = box.
Proof.
  intros Hh Hs. unfold slice_between.
  rewrite (drop_app_length' header _ 12) by done.
  rewrite !length_app.
  replace (length header + (length box + length suffix) - 4 - 12)%nat
    with (length box) by lia.
  by rewrite take_app_length.
Qed.

Lemma withSuffix_replace (header box suffix suffix' : Buffer) :
  length suffix = 4%nat →
  withSuffix (header ++ box ++ suffix) suffix' = header ++ box ++ suffix'.
Proof.
  intros Hs. unfold withSuffix.
  replace (header ++ box ++ suffix) with ((header ++ box) ++ suffix)
    by (by rewrite <- app_assoc).
  rewrite length_app, Hs.
  replace (length (header ++ box) + 4 - 4)%nat with (length (header ++ box)) by lia.
  by rewrite take_app_length, <- app_assoc.
Qed.

End Packets.

Section RoundTrip.

Context `{Native}.

(** What the encoder sends in the lite mode. *)
Lemma sealPacket_lite (ew : EncoderWorker) sequence timestamp (P rtpPacket : Buffer) :
  ew_mode ew = "xsalsa20_poly1305_lite" →
  sealPacket ew sequence timestamp P = Some rtpPacket →
  ∃ header nonceBuffer,
    rtpHeader (ew_ssrc ew) sequence timestamp = Some header
    ∧ writeUInt32BE sequence = Some nonceBuffer
    ∧ rtpPacket = header ++ secretbox P (sendNonce nonceBuffer) (ew_secretKey ew)
                         ++ nonceBuffer.
Proof.
  intros Hmode. unfold sealPacket, assemblePacket.
  destruct (rtpHeader (ew_ssrc ew) sequence timestamp) as [header|]; [|done].
  simpl. rewrite (bool_decide_eq_true_2 _ Hmode).
  destruct (writeUInt32BE sequence) as [nonceBuffer|]; [|done].
  simpl. intros [= <-]. by exists header, nonceBuffer.
Qed.

(** [case 'encode'] is the Opus encoder followed by [sealPacket]. *)
Lemma encode_sealPacket (ew : EncoderWorker) (frame : AudioFrame) (opusData : Buffer) :
  opus_encode (af_pcmData frame) = Some opusData →
  encode ew frame =
    match sealPacket ew (af_sequence frame) (af_timestamp frame) opusData with
    | Some packet => Encoded (af_id frame) packet
    | None => EncodeError (af_id frame)
    end.
Proof.
  intros Hopus. unfold encode, sealPacket.
  destruct (rtpHeader _ _ _) as [header|]; [|done]. simpl. by rewrite Hopus.
Qed.

(** The two nonces of a packet that the encoder framed never coincide:
    byte 0 is [0x80] on the receive side and [0x00] on the send side. *)
Lemma nonces_differ ssrc sequence timestamp (header nonceBuffer rest suffix : Buffer) :
  rtpHeader ssrc sequence timestamp = Some header →
  writeUInt32BE sequence = Some nonceBuffer →
  receiveNonce (header ++ rest) suffix ≠ sendNonce nonceBuffer.
Proof.
  intros Hh Hn.
  destruct (rtpHeader_shape _ _ _ _ Hh) as (s & t & c & Hs & _ & _ & ->).
  destruct (writeUInt32BE_small _ _ (writeUInt16BE_range _ _ Hs) Hn) as [tl ->].
  unfold receiveNonce, sendNonce. simpl. discriminate.
Qed.

(** Authenticated encryption binds the nonce: a box does not open under a
    24-byte nonce other than the one it was sealed under. *)
Hypothesis open_other_nonce :
  ∀ message nonce nonce' key : Buffer,
    length nonce = 24%nat → length nonce' = 24%nat → nonce ≠ nonce' →
    secretbox_open (secretbox message nonce key) nonce' key = None.

(** C1 (amended).  A payload sealed by the encoding worker is not
    recovered by the decoding worker, whatever the 4-byte suffix of the
    packet: the suffix sent is the big-endian sequence number, the box is
    sealed under that suffix followed by 20 zero bytes, the receive nonce
    built from header and suffix differs from it, and opening fails (the one
    packet the worker does not try to open is its silence sentinel, which
    yields the empty payload). *)
Theorem C1_sealed_packet_does_not_open (ew : EncoderWorker) (dw : DecoderWorker)
    (sequence timestamp : Z) (P rtpPacket suffix : Buffer) :
  ew_mode ew = "xsalsa20_poly1305_lite" →
  dw_mode dw = "xsalsa20_poly1305_lite" →
  dw_secretKey dw = ew_secretKey ew →
  sealPacket ew sequence timestamp P = Some rtpPacket →
  length suffix = 4%nat →
  let received := withSuffix rtpPacket suffix in
  let box := slice_between 12 4 rtpPacket in
  writeUInt32BE sequence = Some (slice_last 4 rtpPacket)
  ∧ box = secretbox P (sendNonce (slice_last 4 rtpPacket)) (ew_secretKey ew)
  ∧ receiveNonce received suffix ≠ sendNonce (slice_last 4 rtpPacket)
  ∧ openPacket dw received (readUInt16BE received 2) (readUInt32BE received 4)
    = if isLikelySilencePacket sequence timestamp box
      then inr []
      else inl "Failed to decrypt voice audio data".
Proof.
  intros Hew Hdw Hkey Hseal Hsuffix received box.
  destruct (sealPacket_lite _ _ _ _ _ Hew Hseal) as (header & nonceBuffer & Hh & Hn & ->).
  pose proof (rtpHeader_length _ _ _ _ Hh) as Hhl.
  pose proof (writeUInt32BE_length _ _ Hn) as Hnl.
  subst received box.
  rewrite slice_last_suffix, slice_between_box, withSuffix_replace by done.
  split; [done|]. split; [done|].
  split; [by eapply nonces_differ|].
  destruct (rtpHeader_read _ _ _ _
              (secretbox P (sendNonce nonceBuffer) (ew_secretKey ew) ++ suffix) Hh)
    as [-> ->].
  unfold openPacket. rewrite (bool_decide_eq_true_2 _ Hdw).
  rewrite bool_decide_eq_false_2 by (rewrite !length_app; lia).
  rewrite slice_last_suffix, slice_between_box by done.
  destruct (isLikelySilencePacket _ _ _); [done|].
  rewrite Hkey, open_other_nonce; [done| | |].
  - unfold sendNonce, alloc. rewrite length_app, repeat_length. lia.
  - unfold receiveNonce, alloc.
    rewrite (take_app_length' header) by done.
    rewrite !length_app, repeat_length. lia.
  - intros Heq. by eapply nonces_differ.
Qed.

End RoundTrip.

(** The idealised box obeys the law. *)
Lemma ideal_open_other_nonce (message nonce nonce' key : Buffer) :
  length nonce = 24%nat → length nonce' = 24%nat → nonce ≠ nonce' →
  Ideal.open (Ideal.seal message nonce key) nonce' key = None.
Proof.
  intros Hn Hn' Hne. unfold Ideal.open, Ideal.seal.
  rewrite bool_decide_eq_false_2; [done|].
  rewrite take_app_add', Hn', <- Hn by done.
  rewrite take_app_length. intros Heq. by apply app_inv_head in Heq.
Qed.

Lemma C1_sealed_packet_does_not_open_witness :
  let received := withSuffix Sample.idealPacket [x00; x00; x00; x01] in
  let box := slice_between 12 4 Sample.idealPacket in
  writeUInt32BE 1 = Some (slice_last 4 Sample.idealPacket)
  ∧ box = Ideal.seal [x78; x01; x02; x03] (sendNonce (slice_last 4 Sample.idealPacket))
            (ew_secretKey Sample.liteEncoder)
  ∧ receiveNonce received [x00; x00; x00; x01] ≠ sendNonce (slice_last 4 Sample.idealPacket)
  ∧ openPacket (H := Ideal.native) Sample.liteDecoder received
      (readUInt16BE received 2) (readUInt32BE received 4)
    = if isLikelySilencePacket 1 960 box
      then inr []
      else inl "Failed to decrypt voice audio data".
Proof.
  apply (C1_sealed_packet_does_not_open (H := Ideal.native) ideal_open_other_nonce
           Sample.liteEncoder Sample.liteDecoder 1 960 [x78; x01; x02; x03]).
  - reflexivity.
  - reflexivity.
  - reflexivity.
  - vm_compute. reflexivity.
  - reflexivity.
Defined.

(** C1 fails as stated: the packet below is sealed by the encoding worker
    with sequence 1, its suffix is the big-endian encoding of 1, and the
    decoding worker, holding the same key, does not recover the payload. *)
Lemma C1_counterexample :
  sealPacket (H := NaCl.native) Sample.liteEncoder 1 960 [x78; x01; x02; x03]
    = Some Sample.sentPacket
  ∧ Some (slice_last 4 Sample.sentPacket) = writeUInt32BE 1
  ∧ openPacket (H := NaCl.native) Sample.liteDecoder Sample.sentPacket
      (readUInt16BE Sample.sentPacket 2) (readUInt32BE Sample.sentPacket 4)
    = inl "Failed to decrypt voice audio data"
  ∧ reply (decode (H := NaCl.native) Sample.liteDecoder
                  {| ef_id := 0; ef_rtpPacket := Sample.sentPacket |})
    = DecodeError 0 "Failed to decrypt voice audio data".
Proof. vm_compute. repeat split; reflexivity. Qed.

(** ** The send path: numbering of the frames *)

Section Sending.

Context `{Native}.

Import Handler.

Lemma assemblePacket_header (ew : EncoderWorker) (header : Buffer) sequence
    (opusData rtpPacket : Buffer) :
  assemblePacket ew header sequence opusData = Some rtpPacket →
  ∃ rest, rtpPacket = header ++ rest.
Proof.
  unfold assemblePacket. case_bool_decide.
  - destruct (writeUInt32BE sequence) as [nonceBuffer|]; [|done].
    simpl. intros [= <-]. eauto.
  - intros [= <-]. eauto.
Qed.

Lemma rtpHeader_out_of_range ssrc sequence timestamp :
  ¬ (0 <= sequence <= 65535) → rtpHeader ssrc sequence timestamp = None.
Proof.
  intros Hout. unfold rtpHeader, writeUInt16BE.
  by rewrite (bool_decide_eq_false_2 (0 <= sequence <= 65535)).
Qed.

Lemma encodeFrame_state (h : ThreadedWebRTCVoiceHandler) (pcm : Buffer) seq ts :
  (encodeFrame h pcm seq ts).1 = set_encodeFrameId (encodeFrameId h + 1) h.
Proof.
  unfold encodeFrame. destruct (encodingWorker h); [|done]. by destruct (encode _ _).
Qed.

Lemma encodeFrame_out_of_range (h : ThreadedWebRTCVoiceHandler) (pcm : Buffer) seq ts :
  ¬ (0 <= seq <= 65535) → (encodeFrame h pcm seq ts).2 = None.
Proof.
  intros Hout. unfold encodeFrame. destruct (encodingWorker h) as [w|]; [|done].
  unfold encode. cbn [af_pcmData af_sequence af_timestamp af_id].
  by rewrite rtpHeader_out_of_range.
Qed.

Lemma encodeFrame_packet (h h' : ThreadedWebRTCVoiceHandler) (pcm rtpPacket : Buffer)
    seq ts :
  encodeFrame h pcm seq ts = (h', Some rtpPacket) →
  readUInt16BE rtpPacket 2 = seq ∧ readUInt32BE rtpPacket 4 = ts.
Proof.
  unfold encodeFrame. destruct (encodingWorker h) as [w|]; [|done].
  unfold encode. cbn [af_pcmData af_sequence af_timestamp af_id].
  destruct (rtpHeader (ew_ssrc w) seq ts) as [header|] eqn:Hh; [|done]. simpl.
  destruct (opus_encode pcm) as [opusData|]; [|done]. simpl.
  destruct (assemblePacket w header seq opusData) as [pkt|] eqn:Hpkt; [|done].
  intros [= _ <-].
  destruct (assemblePacket_header _ _ _ _ _ Hpkt) as (rest & ->).
  by apply (rtpHeader_read (ew_ssrc w)).
Qed.

Lemma encodeFrames_cons (h : ThreadedWebRTCVoiceHandler) (frame : Buffer)
    (rest processed : list Buffer) :
  encodeFrames h (frame :: rest) processed =
    match encodeFrame (set_sequence (sequence h + 1) h) frame (sequence h)
            (timestamp (set_sequence (sequence h + 1) h)) with
    | (h2, Some rtpPacket) =>
        encodeFrames (set_timestamp (timestamp h2 + 960) h2) rest
                     (processed ++ [rtpPacket])
    | (h2, None) => (h2, None)
    end.
Proof. reflexivity. Qed.

(** A batch whose first frame would carry a sequence number above 0xFFFF
    is never completed. *)
Lemma encodeFrames_out_of_range (h : ThreadedWebRTCVoiceHandler)
    (frame : Buffer) (rest processed : list Buffer) :
  65535 < sequence h →
  (encodeFrames h (frame :: rest) processed).2 = None.
Proof.
  intros Hseq. rewrite encodeFrames_cons.
  pose proof (encodeFrame_out_of_range (set_sequence (sequence h + 1) h) frame
                (sequence h) (timestamp (set_sequence (sequence h + 1) h))
                ltac:(lia)) as Hnone.
  destruct (encodeFrame _ _ _ _) as [h2 [pkt|]]; [done|done].
Qed.

(** The frames of a completed batch carry consecutive sequence numbers and
    timestamps 960 apart, counted from the state of the handler. *)
Lemma encodeFrames_numbering (frames : list Buffer) :
  ∀ (h h' : ThreadedWebRTCVoiceHandler) (processed packets : list Buffer),
    encodeFrames h frames processed = (h', Some packets) →
    ∃ new, packets = processed ++ new
      ∧ length new = length frames
      ∧ sequence h' = sequence h + Z.of_nat (length frames)
      ∧ timestamp h' = timestamp h + 960 * Z.of_nat (length frames)
      ∧ ∀ (i : nat) pkt, new !! i = Some pkt →
          readUInt16BE pkt 2 = sequence h + Z.of_nat i
          ∧ readUInt32BE pkt 4 = timestamp h + 960 * Z.of_nat i.
Proof.
  induction frames as [|frame rest IH]; intros h h' processed packets.
  - cbn [encodeFrames]. intros [= <- <-]. exists []. rewrite app_nil_r.
    repeat split; try done; simpl; lia.
  - rewrite encodeFrames_cons.
    pose proof (encodeFrame_state (set_sequence (sequence h + 1) h) frame (sequence h)
                  (timestamp (set_sequence (sequence h + 1) h))) as Hst.
    destruct (encodeFrame _ _ _ _) as [h2 [pkt|]] eqn:Henc; [|done].
    cbn [fst] in Hst. intros Hrest.
    destruct (IH _ _ _ _ Hrest) as (new & -> & Hlen & Hs & Ht & Hnum).
    apply encodeFrame_packet in Henc as [Hp16 Hp32].
    assert (Hseq2 : sequence (set_timestamp (timestamp h2 + 960) h2) = sequence h + 1)
      by (subst h2; by destruct h).
    assert (Hts2 : timestamp (set_timestamp (timestamp h2 + 960) h2) = timestamp h + 960)
      by (subst h2; by destruct h).
    assert (Hts1 : timestamp (set_sequence (sequence h + 1) h) = timestamp h)
      by (by destruct h).
    exists (pkt :: new). rewrite <- app_assoc. split; [done|].
    split; [simpl; lia|]. split; [rewrite Hs, Hseq2; simpl length; lia|].
    split; [rewrite Ht, Hts2; simpl length; lia|].
    intros [|i] pkt' Hi.
    + injection Hi as <-. rewrite Hp16, Hp32, Hts1. lia.
    + destruct (Hnum i pkt' Hi) as [-> ->]. rewrite Hseq2, Hts2. lia.
Qed.

Lemma splitFrames_two (pcmData : Buffer) :
  (frameSize < length pcmData)%nat →
  ∃ first second rest, splitFrames pcmData = first :: second :: rest.
Proof.
  intros Hlen. unfold splitFrames, frameCount.
  assert (Hcount : (2 ≤ (length pcmData + (frameSize - 1)) / frameSize)%nat).
  { apply Nat.div_le_lower_bound; [done|]. unfold frameSize in *. lia. }
  destruct ((length pcmData + (frameSize - 1)) / frameSize)%nat as [|[|n]]; [lia|lia|].
  simpl. eauto.
Qed.

(** C2 (the defect).  With the sequence counter at 0xFFFF, a batch of two
    or more frames is never sent: the second frame asks the worker to write
    65536 into the 16-bit sequence field, the worker answers with an error,
    and [playAudio] stays pending on the frame for ever. *)
Theorem C2_batch_across_0xFFFF_never_sent (h : ThreadedWebRTCVoiceHandler)
    (pcmData : Buffer) :
  udpSocket h = true →
  sequence h = 65535 →
  (frameSize < length pcmData)%nat →
  ∃ h', playAudio h pcmData = Pending h'.
Proof.
  intros Hudp Hseq Hlen. unfold playAudio. rewrite Hudp. cbn [negb].
  destruct (splitFrames_two pcmData Hlen) as (first & second & rest & ->).
  rewrite encodeFrames_cons.
  pose proof (encodeFrame_state (set_sequence (sequence h + 1) h) first (sequence h)
                (timestamp (set_sequence (sequence h + 1) h))) as Hst.
  destruct (encodeFrame _ first _ _) as [h2 [pkt|]]; [|by eexists].
  cbn [fst] in Hst.
  pose proof (encodeFrames_out_of_range (set_timestamp (timestamp h2 + 960) h2)
                second rest ([] ++ [pkt])) as Hnone.
  destruct (encodeFrames (set_timestamp _ h2) _ _) as [h3 [packets|]].
  - exfalso. cbn [snd] in Hnone.
    assert (65535 < sequence (set_timestamp (timestamp h2 + 960) h2))
      by (subst h2; destruct h; simpl in *; lia).
    by specialize (Hnone ltac:(done)).
  - by eexists.
Qed.

End Sending.

Lemma C2_batch_across_0xFFFF_never_sent_witness :
  ∃ h', Handler.playAudio (H := NaCl.native) Sample.longSession (alloc (2 * 3840))
        = Handler.Pending h'.
Proof.
  apply (C2_batch_across_0xFFFF_never_sent (H := NaCl.native) Sample.longSession
           (alloc (2 * 3840))).
  - vm_compute. reflexivity.
  - vm_compute. reflexivity.
  - vm_compute. lia.
Defined.

(** The last frame the session can send, and the first it cannot: at
    sequence 0xFFFF the worker frames the packet with [FF FF] in bytes 2-3;
    at 65536 it answers with an error. *)
Lemma frame_0xFFFF_and_after :
  (∃ rest, sealPacket (H := NaCl.native) Sample.liteEncoder 65535 (65535 * 960) [x78]
           = Some ([x80; x78; xff; xff] ++ rest))
  ∧ encode (H := NaCl.native) Sample.liteEncoder
      {| af_id := 9; af_pcmData := alloc 3840; af_sequence := 65536;
         af_timestamp := 65536 * 960 |}
    = EncodeError 9.
Proof. split; [eexists|]; vm_compute; reflexivity. Qed.

(** ** The send path: the speaking flag *)

Section Playback.

Context `{Native}.

Import Handler Log.

Ltac fields h :=
  destruct h as [ws udp addr prt ssrc_ key mode_ ew dw sq ts sp queue sending
                 abm te disc lis fi tt eid did];
  cbn in *; subst.

Ltac settle := cbn in *; intuition (try congruence).

Lemma samePlayback_refl h : samePlayback h h.
Proof. by repeat split. Qed.

Lemma samePlayback_trans h1 h2 h3 :
  samePlayback h1 h2 → samePlayback h2 h3 → samePlayback h1 h3.
Proof. unfold samePlayback. intros ? ?. intuition congruence. Qed.

Lemma invariant_samePlayback h h' :
  samePlayback h h' → playbackInvariant h → playbackInvariant h'.
Proof. unfold samePlayback, playbackInvariant. intros ? ?. intuition congruence. Qed.

Lemma encodeFrames_samePlayback (frames : list Buffer) :
  ∀ h processed, samePlayback h (encodeFrames h frames processed).1.
Proof.
  induction frames as [|frame rest IH]; intros h processed.
  - apply samePlayback_refl.
  - rewrite encodeFrames_cons.
    pose proof (encodeFrame_state (set_sequence (sequence h + 1) h) frame (sequence h)
                  (timestamp (set_sequence (sequence h + 1) h))) as Hst.
    destruct (encodeFrame _ _ _ _) as [h2 [pkt|]]; cbn [fst] in Hst.
    + eapply samePlayback_trans; [|apply IH].
      subst h2. fields h. by repeat split.
    + subst h2. fields h. by repeat split.
Qed.

Lemma bracketed_app b (out1 out2 : list Output) :
  bracketed b (out1 ++ out2) = bracketed b out1 ≫= λ b', bracketed b' out2.
Proof.
  revert b. induction out1 as [|o out1 IH]; intros b; [done|].
  destruct o; cbn [app bracketed]; try apply IH.
  - destruct (speaking0 =? 1), b; try done; apply IH.
  - destruct b; [apply IH | done].
Qed.

Lemma bracketed_audioReady b (events : list BufferManager.AudioReady) :
  bracketed b (map EmitAudioReady events) = Some b.
Proof. induction events; [done|]. simpl. done. Qed.

Lemma handleVoiceMessage_keeps h message :
  playbackInvariant h → keeps h (handleVoiceMessage h message).
Proof.
  intros Hinv. unfold keeps, playbackInvariant in *.
  destruct message; cbn [handleVoiceMessage]; try done.
  - case_bool_decide; [fields h; settle|].
    destruct (discoveryRequest _); fields h; settle.
  - destruct (ssrc h) as [s|] eqn:Hs; [case_bool_decide|]; fields h; settle.
Qed.

Lemma onUdpMessage_keeps h now packet :
  playbackInvariant h → keeps h (onUdpMessage h now packet).
Proof.
  intros Hinv. unfold keeps, playbackInvariant in *. unfold onUdpMessage.
  destruct (discovering h) eqn:Hd.
  - unfold onDiscoveryResponse.
    destruct (bool_decide _ || negb _); fields h; settle.
  - destruct (listening h) eqn:Hl; [|settle].
    unfold onAudioPacket, decodeFrame.
    destruct (reply _) as [decoded|]; [|fields h; settle].
    destruct (audioBufferManager (set_decodeFrameId _ h)) as [m|]; [|fields h; settle].
    destruct (transcriptionEnabled _ && _); [|fields h; settle].
    destruct (BufferManager.addAudioChunk _ _ _ _) as [m' events].
    cbn [fst snd bracketed]. rewrite bracketed_audioReady.
    fields h. settle.
Qed.

Lemma onSilenceTimer_keeps h uid :
  playbackInvariant h → keeps h (onSilenceTimer h uid).
Proof.
  intros Hinv. unfold keeps, playbackInvariant in *. unfold onSilenceTimer.
  destruct (audioBufferManager h) as [m|] eqn:Hm; [|settle].
  destruct (BufferManager.silenceTimerFired m uid) as [m' events].
  cbn [fst snd]. rewrite bracketed_audioReady. fields h. settle.
Qed.

Lemma transmitTimerFired_keeps h :
  playbackInvariant h → keeps h (transmitTimerFired h).
Proof.
  intros (Hws & Hsp & Htt). unfold keeps, playbackInvariant, transmitTimerFired.
  destruct (transmitTimer h) eqn:Ht; [|settle].
  unfold sendNextFrame.
  destruct (sendQueue (set_transmitTimer false h) !! frameIndex (set_transmitTimer false h))
    as [packet|] eqn:Hq.
  - fields h. settle.
  - unfold setSpeaking. fields h. settle.
Qed.

Lemma startDirectTransmission_keeps h h0 :
  playbackInvariant h → speaking h0 = speaking h →
  keeps h0 (startDirectTransmission h).
Proof.
  intros (Hws & Hsp & Htt) H0. unfold keeps, playbackInvariant, startDirectTransmission.
  rewrite H0.
  destruct (isSending h) eqn:Hs; [settle|].
  cbn [orb]. case_bool_decide as Hq; [settle|].
  destruct (sendQueue h) as [|packet rest] eqn:Hq'; [done|].
  unfold setSpeaking, sendNextFrame. fields h. settle.
Qed.

Lemma playAudio_keeps h pcmData :
  playbackInvariant h →
  keeps h match playAudio h pcmData with
          | NotReady => (h, [])
          | Pending h1 => (h1, [])
          | Returned h1 out => (h1, out)
          end.
Proof.
  intros Hinv. unfold playAudio.
  destruct (negb (udpSocket h)); [done|].
  pose proof (encodeFrames_samePlayback (splitFrames pcmData) h []) as Hsame.
  destruct (encodeFrames h (splitFrames pcmData) []) as [h1 [processed|]];
    cbn [fst] in Hsame.
  - pose proof (invariant_samePlayback _ _ Hsame Hinv) as Hinv1.
    assert (Hinv2 : playbackInvariant (set_sendQueue processed h1))
      by (clear -Hinv1; unfold playbackInvariant in *; fields h1; done).
    assert (Hsp : speaking h = speaking (set_sendQueue processed h1))
      by (destruct Hsame as (_ & _ & _ & Hsp & _); clear -Hsp; fields h1; done).
    pose proof (startDirectTransmission_keeps _ h Hinv2 Hsp) as Hk.
    by destruct (startDirectTransmission _).
  - split; [by eapply invariant_samePlayback|].
    destruct Hsame as (_ & _ & _ & Hsp & _). cbn. by rewrite Hsp.
Qed.

Lemma step_keeps h e : playbackInvariant h → keeps h (step h e).
Proof.
  intros Hinv. destruct e; cbn [step].
  - by apply handleVoiceMessage_keeps.
  - by apply onUdpMessage_keeps.
  - by apply playAudio_keeps.
  - by apply transmitTimerFired_keeps.
  - by apply onSilenceTimer_keeps.
  - unfold keeps, playbackInvariant, setTranscriptionEnabled in *. fields h. done.
Qed.

Lemma run_keeps (events : list Event) :
  ∀ h, playbackInvariant h → keeps h (run h events).
Proof.
  induction events as [|e events IH]; intros h Hinv; [done|].
  cbn [run]. destruct (step_keeps h e Hinv) as [Hinv1 Hout1].
  destruct (step h e) as [h1 out1]. cbn [fst snd] in *.
  destruct (IH h1 Hinv1) as [Hinv2 Hout2].
  destruct (run h1 events) as [h2 out2]. cbn [fst snd] in *.
  split; [done|]. cbn [fst snd]. rewrite bracketed_app, Hout1. exact Hout2.
Qed.

(** From the connected handler on, the flag is set exactly while a batch is
    being transmitted, and the op 5 messages and RTP frames sent so far are
    well bracketed. *)
Lemma speaking_only_while_sending (sttAvailable : bool) (events : list Event) :
  let '(h, out) := run (connect (new sttAvailable)) events in
  speaking h = isSending h ∧ bracketed false out = Some (speaking h).
Proof.
  pose proof (run_keeps events (connect (new sttAvailable))) as Hk.
  destruct (run _ events) as [h out].
  destruct Hk as [(_ & Hsp & _) Hout]; [by destruct sttAvailable|]. done.
Qed.

Lemma run_cons h e (events : list Event) :
  run h (e :: events) =
    let '(h1, out1) := step h e in
    let '(h2, out2) := run h1 events in
    (h2, out1 ++ out2).
Proof. reflexivity. Qed.

Lemma step_timer_frame h (packet : Buffer) :
  transmitTimer h = true →
  sendQueue h !! frameIndex h = Some packet →
  step h TransmitTimer =
    (set_transmitTimer true (set_frameIndex (S (frameIndex h)) h), [UdpSend packet]).
Proof.
  intros Htt Hq. cbn [step]. unfold transmitTimerFired, sendNextFrame. rewrite Htt.
  assert (sendQueue (set_transmitTimer false h)
            !! frameIndex (set_transmitTimer false h) = Some packet) as ->
    by (clear -Hq; fields h; done).
  clear. by fields h.
Qed.

Lemma step_timer_last h :
  transmitTimer h = true → speaking h = true → voiceWebsocket h = true →
  sendQueue h !! frameIndex h = None →
  step h TransmitTimer =
    (set_sendQueue [] (set_isSending false (set_speaking false (set_transmitTimer false h))),
     [WsSpeaking 0 0 (ssrc h)]).
Proof.
  intros Htt Hsp Hws Hq. cbn [step]. unfold transmitTimerFired, sendNextFrame. rewrite Htt.
  assert (sendQueue (set_transmitTimer false h)
            !! frameIndex (set_transmitTimer false h) = None) as ->
    by (clear -Hq; fields h; done).
  unfold setSpeaking. clear Hq Htt. by fields h.
Qed.

(** The timer callbacks of a running transmission: [r] frames are left
    beyond [frameIndex]; the callbacks send them in order, and the one after
    the last frame clears the flag. *)
Lemma transmit_rest (r : nat) :
  ∀ h, voiceWebsocket h = true → speaking h = true → isSending h = true →
       transmitTimer h = true →
       (length (sendQueue h) - frameIndex h)%nat = r →
       let '(h', out) := run h (repeat TransmitTimer (S r)) in
       out = map UdpSend (drop (frameIndex h) (sendQueue h)) ++ [WsSpeaking 0 0 (ssrc h)]
       ∧ speaking h' = false ∧ isSending h' = false ∧ transmitTimer h' = false
       ∧ ∀ k, (k ≤ r)%nat → speaking (run h (repeat TransmitTimer k)).1 = true.
Proof.
  induction r as [|r IH]; intros h Hws Hsp Hs Htt Hlen.
  - change (repeat TransmitTimer 1) with [TransmitTimer].
    rewrite run_cons, step_timer_last by (done || apply lookup_ge_None; lia).
    cbn [run app]. rewrite drop_ge by lia.
    split; [done|]. split; [clear; by fields h|]. split; [clear; by fields h|].
    split; [clear; by fields h|].
    intros k Hk. by replace k with 0%nat by lia.
  - destruct (sendQueue h !! frameIndex h) as [packet|] eqn:Hq;
      [|apply lookup_ge_None in Hq; lia].
    change (repeat TransmitTimer (S (S r)))
      with (TransmitTimer :: repeat TransmitTimer (S r)).
    rewrite run_cons, (step_timer_frame h packet Htt Hq).
    set (h1 := set_transmitTimer true (set_frameIndex (S (frameIndex h)) h)).
    assert (Hfields : voiceWebsocket h1 = true ∧ speaking h1 = true ∧ isSending h1 = true
                      ∧ transmitTimer h1 = true ∧ sendQueue h1 = sendQueue h
                      ∧ frameIndex h1 = S (frameIndex h) ∧ ssrc h1 = ssrc h)
      by (subst h1; clear -Hws Hsp Hs; fields h; done).
    destruct Hfields as (Hws1 & Hsp1 & Hs1 & Htt1 & Hq1 & Hfi1 & Hssrc1).
    specialize (IH h1 Hws1 Hsp1 Hs1 Htt1 ltac:(rewrite Hq1, Hfi1; lia)).
    destruct (run h1 (repeat TransmitTimer (S r))) as [h' out'].
    destruct IH as (-> & Hsp' & Hs' & Htt' & Hk).
    rewrite Hq1, Hfi1, Hssrc1.
    split; [cbn [app]; by rewrite (drop_S _ _ _ Hq)|].
    repeat split; try done.
    intros [|k] Hle; [done|].
    change (repeat TransmitTimer (S k)) with (TransmitTimer :: repeat TransmitTimer k).
    rewrite run_cons, (step_timer_frame h packet Htt Hq). fold h1.
    specialize (Hk k ltac:(lia)).
    by destruct (run h1 (repeat TransmitTimer k)).
Qed.



End Playback.


(** * Further properties

    The rest of the buffer manager, the workers and the handler, the jitter
    buffer, and the encoder of the main thread. *)

Section BufferCallsFacts.

Import BufferManager BufferOps BufferCalls.




(** What a flush hands over and what it leaves, for any speaker. *)
Lemma flushBuffer_accounts (m : AudioBufferManager) uid uid' :
  emittedFor uid' (flushBuffer m uid).2 ++ waiting (flushBuffer m uid).1 uid'
  = waiting m uid'.
Proof.
  unfold flushBuffer, emittedFor, waiting, slot.
  destruct (buffers m !! uid) as [[|first rest]|] eqn:E; try done.
  cbn [fst snd buffers]. rewrite filter_cons, filter_nil. cbn [ar_userId].
  destruct (decide (uid = uid')) as [->|Hne].
  - rewrite lookup_insert_eq, E. simpl. by rewrite !app_nil_r.
  - by rewrite lookup_insert_ne.
Qed.

Lemma addAudioChunk_accounts (m : AudioBufferManager) now uid pcm uid' :
  emittedFor uid' (addAudioChunk m now uid pcm).2
    ++ waiting (addAudioChunk m now uid pcm).1 uid'
  = waiting m uid' ++ (if bool_decide (uid = uid') then pcm else []).
Proof.
  unfold addAudioChunk. destruct (Qlt_le_dec _ _) as [_|_].
  - rewrite flushBuffer_accounts. unfold waiting, slot. cbn [buffers].
    case_bool_decide as Hu.
    + subst. rewrite lookup_insert_eq. cbn [default]. unfold id.
      rewrite map_app, concat_app. simpl. by rewrite app_nil_r.
    + rewrite lookup_insert_ne by done. by rewrite app_nil_r.
  - unfold emittedFor, waiting, slot. cbn [fst snd buffers]. rewrite filter_nil.
    case_bool_decide as Hu.
    + subst. rewrite lookup_insert_eq. cbn [default]. unfold id.
      rewrite map_app, concat_app. simpl. by rewrite app_nil_r.
    + rewrite lookup_insert_ne by done. by rewrite app_nil_r.
Qed.

Lemma silenceTimerFired_accounts (m : AudioBufferManager) uid uid' :
  emittedFor uid' (silenceTimerFired m uid).2 ++ waiting (silenceTimerFired m uid).1 uid'
  = waiting m uid'.
Proof.
  unfold silenceTimerFired. destruct (timers m !! uid).
  - apply flushBuffer_accounts.
  - done.
Qed.

Lemma emittedFor_app uid (a b : list AudioReady) :
  emittedFor uid (a ++ b) = emittedFor uid a ++ emittedFor uid b.
Proof. unfold emittedFor. by rewrite filter_app, map_app, concat_app. Qed.

Lemma forceFlushAll_accounts keys (m : AudioBufferManager) uid' :
  emittedFor uid' (forceFlushAll keys m).2 ++ waiting (forceFlushAll keys m).1 uid'
  = waiting m uid'.
Proof.
  revert m. induction keys as [|uid keys IH]; intros m; [done|].
  cbn [forceFlushAll].
  destruct (flushBuffer m uid) as [m1 ev1] eqn:E1.
  specialize (IH m1). destruct (forceFlushAll keys m1) as [m2 ev2].
  cbn [fst snd] in *. rewrite emittedFor_app, <- app_assoc, IH.
  pose proof (flushBuffer_accounts m uid uid') as Hf. by rewrite E1 in Hf.
Qed.

Lemma call_accounts (m : AudioBufferManager) (c : Call) uid :
  emittedFor uid (call m c).2 ++ waiting (call m c).1 uid
  = waiting m uid ++ added uid [c].
Proof.
  destruct c as [now uid' pcm|uid'|keys]; unfold added; cbn [call map concat].
  - rewrite addAudioChunk_accounts. by rewrite app_nil_r.
  - rewrite silenceTimerFired_accounts. by rewrite app_nil_r.
  - rewrite forceFlushAll_accounts. by rewrite app_nil_r.
Qed.

Lemma added_cons uid c cs : added uid (c :: cs) = added uid [c] ++ added uid cs.
Proof. unfold added. simpl. by rewrite app_nil_r. Qed.

Lemma calls_accounts (cs : list Call) (m : AudioBufferManager) uid :
  emittedFor uid (calls m cs).2 ++ waiting (calls m cs).1 uid
  = waiting m uid ++ added uid cs.
Proof.
  revert m. induction cs as [|c cs IH]; intros m.
  - unfold added, emittedFor. simpl. by rewrite app_nil_r.
  - cbn [calls]. pose proof (call_accounts m c uid) as Hc.
    destruct (call m c) as [m1 ev1]. specialize (IH m1).
    destruct (calls m1 cs) as [m2 ev2]. cbn [fst snd] in *.
    rewrite emittedFor_app, <- app_assoc, IH, app_assoc, Hc, <- app_assoc.
    by rewrite <- added_cons.
Qed.

(** X1.  No audio is lost or doubled by the buffer manager: after any
    sequence of [addAudioChunk] calls, silence timers and forced flushes
    on a new manager, the audio emitted for a speaker followed by the
    audio still waiting in the speaker's slot is the audio handed over
    for that speaker, byte for byte and in order. *)
Theorem X1_buffer_conserves_audio (bufferTimeoutMs maxBufferSizeMs : Z)
    (cs : list Call) (uid : string) :
  let '(m, events) := calls (newAudioBufferManager bufferTimeoutMs maxBufferSizeMs) cs in
  emittedFor uid events ++ waiting m uid = added uid cs.
Proof.
  pose proof (calls_accounts cs (newAudioBufferManager bufferTimeoutMs maxBufferSizeMs) uid)
    as H.
  destruct (calls _ cs) as [m events]. exact H.
Qed.

(** The timer of a speaker is armed exactly while chunks of the speaker
    are waiting. *)
Lemma flushBuffer_armed (m : AudioBufferManager) uid :
  (∀ u, is_Some (timers m !! u) ↔ slot m u ≠ []) →
  ∀ u, is_Some (timers (flushBuffer m uid).1 !! u) ↔ slot (flushBuffer m uid).1 u ≠ [].
Proof.
  intros Hm u. unfold flushBuffer.
  destruct (buffers m !! uid) as [[|first rest]|] eqn:E; try apply Hm.
  unfold slot. cbn [fst buffers timers].
  destruct (decide (u = uid)) as [->|Hne].
  - rewrite lookup_delete_eq, lookup_insert_eq. simpl. split; [by intros [? ?]|done].
  - rewrite lookup_delete_ne, lookup_insert_ne by done. apply Hm.
Qed.

Lemma addAudioChunk_armed (m : AudioBufferManager) now uid pcm :
  (∀ u, is_Some (timers m !! u) ↔ slot m u ≠ []) →
  ∀ u, is_Some (timers (addAudioChunk m now uid pcm).1 !! u)
       ↔ slot (addAudioChunk m now uid pcm).1 u ≠ [].
Proof.
  intros Hm.
  assert (Hm1 : ∀ u,
    is_Some (<[uid := now + bufferTimeoutMs m]> (timers m) !! u)
    ↔ default [] (<[uid := default [] (buffers m !! uid)
                       ++ [{| pcmData := pcm; timestamp := now; userId := uid |}]]>
                    (buffers m) !! u) ≠ []).
  { intros u. destruct (decide (u = uid)) as [->|Hne].
    - rewrite !lookup_insert_eq. simpl. split; [intros _ | by eauto].
      by destruct (default [] (buffers m !! uid)).
    - rewrite !lookup_insert_ne by done. apply Hm. }
  unfold addAudioChunk. destruct (Qlt_le_dec _ _) as [_|_].
  - apply flushBuffer_armed. exact Hm1.
  - exact Hm1.
Qed.

Lemma forceFlushAll_armed keys (m : AudioBufferManager) :
  (∀ u, is_Some (timers m !! u) ↔ slot m u ≠ []) →
  ∀ u, is_Some (timers (forceFlushAll keys m).1 !! u) ↔ slot (forceFlushAll keys m).1 u ≠ [].
Proof.
  revert m. induction keys as [|uid keys IH]; intros m Hm; [done|].
  cbn [forceFlushAll]. pose proof (flushBuffer_armed m uid Hm) as H1.
  destruct (flushBuffer m uid) as [m1 ev1]. specialize (IH m1 H1).
  by destruct (forceFlushAll keys m1) as [m2 ev2].
Qed.

Lemma call_armed (m : AudioBufferManager) (c : Call) :
  (∀ u, is_Some (timers m !! u) ↔ slot m u ≠ []) →
  ∀ u, is_Some (timers (call m c).1 !! u) ↔ slot (call m c).1 u ≠ [].
Proof.
  intros Hm. destruct c as [now uid pcm|uid|keys]; cbn [call].
  - by apply addAudioChunk_armed.
  - unfold silenceTimerFired. destruct (timers m !! uid); [|done].
    by apply flushBuffer_armed.
  - by apply forceFlushAll_armed.
Qed.

(** X2.  On a manager that started empty, after any sequence of calls, the
    silence timer of a speaker is armed exactly when chunks of that
    speaker are waiting: buffered audio is never left without the timer
    that will flush it, and no timer is left behind for an empty slot. *)
Theorem X2_timer_armed_iff_chunks_waiting (bufferTimeoutMs maxBufferSizeMs : Z)
    (cs : list Call) (uid : string) :
  let m := (calls (newAudioBufferManager bufferTimeoutMs maxBufferSizeMs) cs).1 in
  is_Some (timers m !! uid) ↔ slot m uid ≠ [].
Proof.
  cbn zeta. revert uid.
  assert (Hnew : ∀ u,
    is_Some (timers (newAudioBufferManager bufferTimeoutMs maxBufferSizeMs) !! u)
    ↔ slot (newAudioBufferManager bufferTimeoutMs maxBufferSizeMs) u ≠ []).
  { intros u. unfold slot. simpl. rewrite !lookup_empty. simpl.
    split; [by intros [? ?]|done]. }
  revert Hnew. generalize (newAudioBufferManager bufferTimeoutMs maxBufferSizeMs).
  induction cs as [|c cs IH]; intros m Hm; [exact Hm|].
  cbn [calls]. pose proof (call_armed m c Hm) as H1.
  destruct (call m c) as [m1 ev1]. specialize (IH m1 H1).
  by destruct (calls m1 cs) as [m2 ev2].
Qed.






(** What one flush does to the slot and the timer of another speaker. *)
Lemma flushBuffer_other (m : AudioBufferManager) uid uid' :
  uid ≠ uid' →
  buffers (flushBuffer m uid).1 !! uid' = buffers m !! uid'
  ∧ timers (flushBuffer m uid).1 !! uid' = timers m !! uid'
  ∧ filter (λ e, ar_userId e = uid') (flushBuffer m uid).2 = [].
Proof.
  intros Hne. unfold flushBuffer.
  destruct (buffers m !! uid) as [[|first rest]|]; try done.
  cbn [fst snd buffers timers].
  rewrite lookup_insert_ne, lookup_delete_ne by done.
  rewrite filter_cons, filter_nil. cbn [ar_userId]. by rewrite decide_False.
Qed.

Lemma forceFlushAll_other keys (m : AudioBufferManager) uid' :
  uid' ∉ keys →
  buffers (forceFlushAll keys m).1 !! uid' = buffers m !! uid'
  ∧ timers (forceFlushAll keys m).1 !! uid' = timers m !! uid'
  ∧ filter (λ e, ar_userId e = uid') (forceFlushAll keys m).2 = [].
Proof.
  revert m. induction keys as [|uid keys IH]; intros m Hnot; [done|].
  apply not_elem_of_cons in Hnot as [Hne Hnot].
  cbn [forceFlushAll].
  destruct (flushBuffer_other m uid uid') as (Hb & Ht & He); [done|].
  destruct (flushBuffer m uid) as [m1 ev1].
  destruct (IH m1 Hnot) as (Hb' & Ht' & He').
  destruct (forceFlushAll keys m1) as [m2 ev2]. cbn [fst snd] in *.
  rewrite Hb', Ht', filter_app, He, He'. by rewrite Hb, Ht.
Qed.

Lemma call_other (m : AudioBufferManager) (c : Call) uid' :
  touches uid' c = false →
  buffers (call m c).1 !! uid' = buffers m !! uid'
  ∧ timers (call m c).1 !! uid' = timers m !! uid'
  ∧ filter (λ e, ar_userId e = uid') (call m c).2 = [].
Proof.
  destruct c as [now uid pcm|uid|keys]; cbn [touches call]; intros Hno;
    apply bool_decide_eq_false in Hno.
  - unfold addAudioChunk. destruct (Qlt_le_dec _ _) as [_|_].
    + destruct (flushBuffer_other
        {| buffers := <[uid := default [] (buffers m !! uid)
                              ++ [{| pcmData := pcm; timestamp := now; userId := uid |}]]>
                        (buffers m);
           bufferTimeoutMs := bufferTimeoutMs m;
           maxBufferSizeMs := maxBufferSizeMs m;
           timers := <[uid := now + bufferTimeoutMs m]> (timers m) |} uid uid' Hno)
        as (Hb & Ht & He).
      cbn [buffers timers] in Hb, Ht.
      rewrite lookup_insert_ne in Hb by done.
      rewrite lookup_insert_ne in Ht by done. done.
    + cbn [fst snd buffers timers]. by rewrite !lookup_insert_ne.
  - unfold silenceTimerFired. destruct (timers m !! uid); [|done].
    by apply flushBuffer_other.
  - by apply forceFlushAll_other.
Qed.

(** X4.  Speakers do not interfere: calls that do not name a speaker
    (chunks and timers of other speakers, flushes over other keys) leave
    that speaker's chunks and timer as they were and emit no event under
    the speaker's id. *)
Theorem X4_other_speakers_do_not_interfere (m : AudioBufferManager)
    (cs : list Call) (uid : string) :
  Forall (λ c, touches uid c = false) cs →
  let '(m', events) := calls m cs in
  buffers m' !! uid = buffers m !! uid
  ∧ timers m' !! uid = timers m !! uid
  ∧ filter (λ e, ar_userId e = uid) events = [].
Proof.
  revert m. induction cs as [|c cs IH]; intros m Hcs; [done|].
  apply Forall_cons in Hcs as [Hc Hcs]. cbn [calls].
  destruct (call_other m c uid Hc) as (Hb & Ht & He).
  destruct (call m c) as [m1 ev1]. specialize (IH m1 Hcs).
  destruct (calls m1 cs) as [m2 ev2]. cbn [fst snd] in *.
  destruct IH as (Hb' & Ht' & He').
  rewrite Hb', Ht', filter_app, He, He'. by rewrite Hb, Ht.
Qed.

Lemma X4_other_speakers_do_not_interfere_witness :
  let m := (addAudioChunk (newAudioBufferManager 2000 10000) 100 "user_7" [x01; x02]).1 in
  let '(m', events) :=
    calls m [Add 120 "user_8" [x03]; TimerFires "user_8"; FlushAll ["user_8"; "user_9"]] in
  buffers m' !! "user_7" = buffers m !! "user_7"
  ∧ timers m' !! "user_7" = timers m !! "user_7"
  ∧ filter (λ e, ar_userId e = "user_7") events = [].
Proof.
  apply (X4_other_speakers_do_not_interfere
           (addAudioChunk (newAudioBufferManager 2000 10000) 100 "user_7" [x01; x02]).1
           [Add 120 "user_8" [x03]; TimerFires "user_8"; FlushAll ["user_8"; "user_9"]]
           "user_7").
  repeat constructor.
Defined.

(** The slot of any speaker after [forceFlushAll]. *)
Lemma flushBuffer_slot (m : AudioBufferManager) uid u :
  buffers (flushBuffer m uid).1 !! u
  = if bool_decide (u = uid) then const [] <$> buffers m !! u else buffers m !! u.
Proof.
  unfold flushBuffer. case_bool_decide as Hu.
  - subst u. destruct (buffers m !! uid) as [[|first rest]|] eqn:E;
      cbn [fst buffers]; rewrite ?lookup_insert_eq, ?E; done.
  - destruct (buffers m !! uid) as [[|first rest]|] eqn:E;
      cbn [fst buffers]; rewrite ?lookup_insert_ne by done; done.
Qed.

Lemma forceFlushAll_slot keys (m : AudioBufferManager) u :
  buffers (forceFlushAll keys m).1 !! u
  = if bool_decide (u ∈ keys) then const [] <$> buffers m !! u else buffers m !! u.
Proof.
  revert m. induction keys as [|uid keys IH]; intros m.
  - cbn [forceFlushAll fst]. rewrite bool_decide_eq_false_2; [done|]. apply not_elem_of_nil.
  - cbn [forceFlushAll]. pose proof (flushBuffer_slot m uid u) as H1.
    destruct (flushBuffer m uid) as [m1 ev1]. specialize (IH m1).
    destruct (forceFlushAll keys m1) as [m2 ev2]. cbn [fst] in *.
    rewrite IH, H1.
    destruct (decide (u = uid)) as [->|Hne].
    + rewrite (bool_decide_eq_true_2 (uid ∈ uid :: keys)) by apply list_elem_of_here.
      rewrite (bool_decide_eq_true_2 (uid = uid)) by done.
      destruct (bool_decide (uid ∈ keys)); by destruct (buffers m !! uid).
    + rewrite (bool_decide_eq_false_2 (u = uid)) by done.
      destruct (decide (u ∈ keys)) as [Hin|Hin].
      * rewrite (bool_decide_eq_true_2 (u ∈ keys)) by done.
        rewrite (bool_decide_eq_true_2 (u ∈ uid :: keys)); [done|].
        by apply list_elem_of_further.
      * rewrite (bool_decide_eq_false_2 (u ∈ keys)) by done.
        rewrite (bool_decide_eq_false_2 (u ∈ uid :: keys)); [done|].
        intros [?|?]%elem_of_cons; done.
Qed.

(** A flush for a key that [forceFlushAll] has not visited emits what it
    would have emitted before. *)
Lemma flushBuffer_after_other (m : AudioBufferManager) uid uid' :
  uid ≠ uid' →
  (flushBuffer (flushBuffer m uid).1 uid').2 = (flushBuffer m uid').2.
Proof.
  intros Hne. unfold flushBuffer at 1 3.
  destruct (flushBuffer_other m uid uid' Hne) as (Hb & _ & _). rewrite Hb.
  by destruct (buffers m !! uid') as [[|? ?]|].
Qed.

Lemma forceFlushAll_events keys (m : AudioBufferManager) :
  NoDup keys →
  (forceFlushAll keys m).2 = flat_map (λ uid, (flushBuffer m uid).2) keys.
Proof.
  revert m. induction keys as [|uid keys IH]; intros m Hnd; [done|].
  apply NoDup_cons in Hnd as [Hnot Hnd]. cbn [forceFlushAll flat_map].
  destruct (flushBuffer m uid) as [m1 ev1] eqn:E1. specialize (IH m1 Hnd).
  destruct (forceFlushAll keys m1) as [m2 ev2]. cbn [snd] in *.
  rewrite IH. f_equal. rewrite !flat_map_concat_map. f_equal.
  apply map_ext_in. intros uid' Hin.
  pose proof (flushBuffer_after_other m uid uid') as H. rewrite E1 in H. apply H.
  intros ->. apply Hnot. by apply list_elem_of_In.
Qed.

(** X5.  [forceFlushAll] over distinct keys emits, in the order of the
    keys, what a flush of each key emits on the manager as it was (one
    event for each key with chunks waiting, none for the others), and
    leaves every visited slot registered and empty and every other slot
    untouched. *)
Theorem X5_forceFlushAll_flushes_each_key (m : AudioBufferManager) (keys : list string) :
  NoDup keys →
  let '(m', events) := forceFlushAll keys m in
  events = flat_map (λ uid, (flushBuffer m uid).2) keys
  ∧ ∀ uid, buffers m' !! uid
           = if bool_decide (uid ∈ keys) then const [] <$> buffers m !! uid
             else buffers m !! uid.
Proof.
  intros Hnd. pose proof (forceFlushAll_events keys m Hnd) as He.
  pose proof (forceFlushAll_slot keys m) as Hs.
  by destruct (forceFlushAll keys m) as [m' events].
Qed.

Lemma X5_forceFlushAll_flushes_each_key_witness :
  let '(m', events) := forceFlushAll ["user_8"; "user_9"; "user_7"] twoSpeakers in
  events = flat_map (λ uid, (flushBuffer twoSpeakers uid).2) ["user_8"; "user_9"; "user_7"]
  ∧ ∀ uid, buffers m' !! uid
           = if bool_decide (uid ∈ ["user_8"; "user_9"; "user_7"])
             then const [] <$> buffers twoSpeakers !! uid
             else buffers twoSpeakers !! uid.
Proof.
  apply (X5_forceFlushAll_flushes_each_key twoSpeakers ["user_8"; "user_9"; "user_7"]).
  apply (bool_decide_unpack (NoDup ["user_8"; "user_9"; "user_7"])). vm_compute. exact I.
Defined.

(** The chunks that [getStats] counts. *)
Lemma totalChunks_insert (b : gmap string (list AudioChunk)) uid (v : list AudioChunk) :
  (map_fold (λ _ buffer n, n + length buffer) 0 (<[uid := v]> b)
   + length (default [] (b !! uid))
   = map_fold (λ _ buffer n, n + length buffer) 0 b + length v)%nat.
Proof.
  destruct (b !! uid) as [old|] eqn:E.
  - rewrite <- insert_delete_eq.
    rewrite (map_fold_insert_L _ _ uid v (delete uid b));
      [|intros; lia|apply lookup_delete_eq].
    rewrite (map_fold_delete_L _ _ uid old b); [|intros; lia|done].
    simpl. lia.
  - rewrite (map_fold_insert_L _ _ uid v b); [|intros; lia|done]. simpl. lia.
Qed.

Lemma flushBuffer_stats (m : AudioBufferManager) uid :
  (getStats (flushBuffer m uid).1).1 = (getStats m).1
  ∧ ((getStats (flushBuffer m uid).1).2
     + foldr (λ e n, ar_chunkCount e + n) 0 (flushBuffer m uid).2
     = (getStats m).2)%nat.
Proof.
  unfold flushBuffer, getStats.
  destruct (buffers m !! uid) as [[|first rest]|] eqn:E; cbn [fst snd buffers foldr];
    try (split; [done|lia]).
  split.
  - rewrite map_size_insert_Some; [done|by eauto].
  - pose proof (totalChunks_insert (buffers m) uid []) as H. rewrite E in H.
    simpl in H. simpl. lia.
Qed.

(** X6.  [getStats] keeps count of the chunks: a call of [addAudioChunk]
    adds one chunk, which afterwards is either counted in [totalChunks] or
    in the [chunkCount] of an emitted event; the number of users grows by
    one when the speaker had no slot and is unchanged otherwise, also when
    the call flushes the slot. *)
Theorem X6_getStats_counts_every_chunk (m : AudioBufferManager) (now : Z)
    (uid : string) (pcm : Buffer) :
  let '(m', events) := addAudioChunk m now uid pcm in
  ((getStats m').2 + foldr (λ e n, ar_chunkCount e + n) 0 events = (getStats m).2 + 1)%nat
  ∧ (getStats m').1 = (if bool_decide (is_Some (buffers m !! uid))
                      then (getStats m).1 else S (getStats m).1).
Proof.
  set (chunk := {| pcmData := pcm; timestamp := now; userId := uid |}).
  set (m1 := {| buffers := <[uid := default [] (buffers m !! uid) ++ [chunk]]> (buffers m);
                bufferTimeoutMs := bufferTimeoutMs m;
                maxBufferSizeMs := maxBufferSizeMs m;
                timers := <[uid := now + bufferTimeoutMs m]> (timers m) |}).
  assert (H1 : ((getStats m1).2 = (getStats m).2 + 1)%nat
               ∧ (getStats m1).1 = (if bool_decide (is_Some (buffers m !! uid))
                                    then (getStats m).1 else S (getStats m).1)).
  { unfold getStats, m1. cbn [fst snd buffers]. split.
    - pose proof (totalChunks_insert (buffers m) uid
                    (default [] (buffers m !! uid) ++ [chunk])) as H.
      rewrite length_app in H. simpl in H. lia.
    - destruct (buffers m !! uid) as [old|] eqn:E.
      + rewrite bool_decide_eq_true_2 by eauto.
        rewrite map_size_insert_Some; [done|by eauto].
      + rewrite bool_decide_eq_false_2 by (by intros [? ?]).
        by rewrite map_size_insert_None. }
  unfold addAudioChunk. fold chunk. fold m1.
  destruct (Qlt_le_dec _ _) as [_|_].
  - destruct (flushBuffer_stats m1 uid) as [Hu Hc].
    destruct (flushBuffer m1 uid) as [m' events]. cbn [fst snd] in *.
    destruct H1 as [H1c H1u]. split; [lia|congruence].
  - destruct H1 as [H1c H1u]. cbn [foldr]. split; [lia|done].
Qed.

(** X7.  After [forceFlushAll] over all the keys of the map every speaker
    is still registered and no chunk is left: [getStats] reports the same
    number of users and zero chunks. *)
Theorem X7_getStats_after_forceFlushAll (m : AudioBufferManager) (keys : list string) :
  (∀ uid, is_Some (buffers m !! uid) → uid ∈ keys) →
  getStats (forceFlushAll keys m).1 = (size (buffers m), 0%nat).
Proof.
  intros Hall. pose proof (forceFlushAll_slot keys m) as Hs.
  assert (Heq : buffers (forceFlushAll keys m).1 = const [] <$> buffers m).
  { apply map_eq. intros u. rewrite Hs, lookup_fmap.
    case_bool_decide as Hin; [done|].
    destruct (buffers m !! u) eqn:E; [|done]. exfalso. apply Hin, Hall. eauto. }
  unfold getStats. rewrite Heq. f_equal.
  - apply map_size_fmap.
  - generalize (buffers m). intros b.
    induction b as [|k v b Hk _ IH] using map_first_key_ind.
    + by rewrite fmap_empty, map_fold_empty.
    + rewrite fmap_insert.
      rewrite map_fold_insert_L; [by rewrite IH| intros; lia | by rewrite lookup_fmap, Hk].
Qed.

Lemma X7_getStats_after_forceFlushAll_witness :
  getStats (forceFlushAll ["user_8"; "user_7"] twoSpeakers).1
  = (size (buffers twoSpeakers), 0%nat).
Proof.
  apply (X7_getStats_after_forceFlushAll twoSpeakers ["user_8"; "user_7"]).
  intros uid [chunks Hsome]. unfold twoSpeakers in Hsome. cbn [buffers] in Hsome.
  apply lookup_insert_Some in Hsome as [[<- _]|[_ Hsome]].
  - apply list_elem_of_further, list_elem_of_here.
  - apply lookup_singleton_Some in Hsome as [<- _]. apply list_elem_of_here.
Defined.

End BufferCallsFacts.

(** ** The workers, continued *)

Section Tails.

Lemma skipExtensions_ge (data : Buffer) n offset :
  (offset ≤ skipExtensions data n offset)%nat.
Proof.
  revert offset. induction n as [|n IH]; intros offset; [done|].
  simpl. destruct (data !! offset); [|done].
  etransitivity; [|apply IH]. lia.
Qed.

Lemma skipPadding_spec (data : Buffer) n offset :
  (length data - offset ≤ n)%nat →
  (offset ≤ skipPadding data n offset)%nat
  ∧ match data !! skipPadding data n offset with
    | Some b => Z_of_byte b ≠ 0
    | None => True
    end.
Proof.
  revert offset. induction n as [|n IH]; intros offset Hn.
  - simpl. split; [done|]. rewrite lookup_ge_None_2; [done|lia].
  - simpl. destruct (data !! offset) as [b|] eqn:E.
    + destruct (Z.eqb_spec (Z_of_byte b) 0) as [_|Hnz].
      * destruct (IH (S offset)) as [Hle Hb]; [lia|]. split; [lia|done].
      * rewrite E. done.
    + rewrite E. done.
Qed.

(** X8.  [extractOpusFromRTP] only ever drops a prefix: what it returns is
    a tail of its input.  When it drops anything, the input began with the
    marker [0xBE 0xDE], at least the 4 bytes of marker and length are gone,
    and the tail is empty or begins with a byte that is not zero. *)
Theorem X8_extract_returns_tail (opusData : Buffer) :
  ∃ n, extractOpusFromRTP opusData = drop n opusData
       ∧ (extractOpusFromRTP opusData ≠ opusData →
          at_ opusData 0 = 0xBE ∧ at_ opusData 1 = 0xDE ∧ (4 ≤ n)%nat
          ∧ match extractOpusFromRTP opusData with
            | [] => True
            | b :: _ => Z_of_byte b ≠ 0
            end).
Proof.
  unfold extractOpusFromRTP.
  case_bool_decide as Hempty; [by exists 0%nat|].
  destruct (bool_decide (4 < length opusData)%nat) eqn:Hlen; [|by exists 0%nat].
  destruct (Z.eqb_spec (at_ opusData 0) 190) as [H0|_]; [|by exists 0%nat].
  destruct (Z.eqb_spec (at_ opusData 1) 222) as [H1|_]; [|by exists 0%nat].
  cbn [andb]. unfold slice_from.
  set (offset := skipExtensions opusData (Z.to_nat (readUInt16BE opusData 2)) 4).
  pose proof (skipExtensions_ge opusData (Z.to_nat (readUInt16BE opusData 2)) 4) as Hext.
  fold offset in Hext.
  destruct (skipPadding_spec opusData (length opusData - offset) offset) as [Hpad Hb];
    [done|].
  exists (skipPadding opusData (length opusData - offset) offset).
  split; [done|]. intros _. repeat split; [done|done|lia|].
  destruct (opusData !! skipPadding opusData (length opusData - offset) offset)
    as [b|] eqn:E.
  - by rewrite (drop_S _ _ _ E).
  - by rewrite drop_ge by (by apply lookup_ge_None).
Qed.

End Tails.

Section WorkerFacts.

Context `{Native}.

(** X9.  The decoding worker answers a frame with an error in exactly
    three cases: the datagram has fewer than 12 bytes; the mode is the lite
    one and the datagram has fewer than 16 bytes; the mode is the lite one,
    the datagram is not taken for the silence sentinel, and the box does not
    open.  The error carries the id of the frame.  In particular a failure
    of the Opus decoder is never reported: the frame is answered with PCM.
    (The key has the 32 bytes the box asks for; with another length the
    library itself throws.) *)
Theorem X9_decode_error_cases (w : DecoderWorker) (frame : EncryptedFrame) :
  length (dw_secretKey w) = 32%nat →
  let rtpPacket := ef_rtpPacket frame in
  ((∃ id error, reply (decode w frame) = DecodeError id error)
   ↔ (length rtpPacket < 12)%nat
     ∨ dw_mode w = "xsalsa20_poly1305_lite"
       ∧ ((length rtpPacket < 16)%nat
          ∨ isLikelySilencePacket (readUInt16BE rtpPacket 2) (readUInt32BE rtpPacket 4)
                                  (slice_between 12 4 rtpPacket) = false
            ∧ secretbox_open (slice_between 12 4 rtpPacket)
                             (receiveNonce rtpPacket (slice_last 4 rtpPacket))
                             (dw_secretKey w) = None))
  ∧ ∀ id error, reply (decode w frame) = DecodeError id error → id = ef_id frame.
Proof.
  intros _ rtpPacket. unfold decode. fold rtpPacket.
  case_bool_decide as H12.
  { split; [|by intros ?? [= <- _]]. split; [auto|eauto]. }
  unfold openPacket. case_bool_decide as Hmode.
  - case_bool_decide as H16.
    { split; [|by intros ?? [= <- _]]. split; [auto|eauto]. }
    destruct (isLikelySilencePacket _ _ _) eqn:Hs.
    { rewrite extract_short by (simpl; lia). simpl. split; [|done].
      split; [by intros (? & ? & ?)|].
      intros [?|[_ [?|[? _]]]]; [lia|lia|done]. }
    destruct (secretbox_open _ _ _) as [decrypted|] eqn:Hopen.
    + split.
      * split; [|intros [?|[_ [?|[_ ?]]]]; [lia|lia|done]].
        intros (? & ? & Hr). revert Hr. by case_bool_decide.
      * intros ??. by case_bool_decide.
    + split; [|by intros ?? [= <- _]]. split; [auto|eauto].
  - split.
    + split; [|intros [?|[? _]]; [lia|done]].
      intros (? & ? & Hr). revert Hr. by case_bool_decide.
    + intros ??. by case_bool_decide.
Qed.

Lemma at_app_l (a b : Buffer) i : (i < length a)%nat → at_ (a ++ b) i = at_ a i.
Proof. intros Hi. unfold at_. by rewrite lookup_app_l. Qed.

Lemma readUInt16BE_app_l (a b : Buffer) off :
  (off + 1 < length a)%nat → readUInt16BE (a ++ b) off = readUInt16BE a off.
Proof. intros Hi. unfold readUInt16BE. by rewrite !at_app_l by lia. Qed.

Lemma readUInt32BE_app_l (a b : Buffer) off :
  (off + 3 < length a)%nat → readUInt32BE (a ++ b) off = readUInt32BE a off.
Proof. intros Hi. unfold readUInt32BE. by rewrite !at_app_l by lia. Qed.

(** What the worker does with the payload once it has it. *)
Lemma decode_opened (w : DecoderWorker) (frame : EncryptedFrame) (opusData : Buffer) :
  (12 ≤ length (ef_rtpPacket frame))%nat →
  openPacket w (ef_rtpPacket frame) (readUInt16BE (ef_rtpPacket frame) 2)
             (readUInt32BE (ef_rtpPacket frame) 4) = inr opusData →
  decode w frame =
    {| reply :=
         Decoded {| df_id := ef_id frame;
                    df_pcmData :=
                      if bool_decide (extractOpusFromRTP opusData = [])
                      then silenceFrame
                      else default silenceFrame (opus_decode (extractOpusFromRTP opusData));
                    df_sequence := readUInt16BE (ef_rtpPacket frame) 2;
                    df_timestamp := readUInt32BE (ef_rtpPacket frame) 4 |};
       decoderInput :=
         if bool_decide (extractOpusFromRTP opusData = []) then None
         else Some (extractOpusFromRTP opusData) |}.
Proof.
  intros Hlen Hopen. unfold decode.
  rewrite bool_decide_eq_false_2 by lia. rewrite Hopen.
  destruct (extractOpusFromRTP opusData) as [|b rest]; [done|].
  rewrite bool_decide_eq_false_2 by done.
  rewrite (bool_decide_eq_false_2 (b :: rest = [])) by done.
  by destruct (opus_decode _).
Qed.

Section Opening.

(** The box opens under the nonce and key it was sealed with. *)
Hypothesis open_sealed :
  ∀ message nonce key : Buffer,
    length nonce = 24%nat → length key = 32%nat →
    secretbox_open (secretbox message nonce key) nonce key = Some message.

(** X10.  A packet sealed the way the decoding worker opens it is
    recovered: if the box between a 12-byte header and a 4-byte suffix was
    sealed under the nonce made of that header, that suffix and 8 zero
    bytes, the worker hands the payload (stripped of any extension header)
    to the Opus decoder and answers with the sequence and timestamp of the
    header. *)
Theorem X10_packet_sealed_under_receive_nonce_opens (w : DecoderWorker) (id : Z)
    (header payload suffix : Buffer) :
  dw_mode w = "xsalsa20_poly1305_lite" →
  length (dw_secretKey w) = 32%nat →
  length header = 12%nat →
  length suffix = 4%nat →
  let box := secretbox payload (receiveNonce header suffix) (dw_secretKey w) in
  isLikelySilencePacket (readUInt16BE header 2) (readUInt32BE header 4) box = false →
  decode w {| ef_id := id; ef_rtpPacket := header ++ box ++ suffix |} =
    {| reply :=
         Decoded {| df_id := id;
                    df_pcmData :=
                      if bool_decide (extractOpusFromRTP payload = [])
                      then silenceFrame
                      else default silenceFrame (opus_decode (extractOpusFromRTP payload));
                    df_sequence := readUInt16BE header 2;
                    df_timestamp := readUInt32BE header 4 |};
       decoderInput :=
         if bool_decide (extractOpusFromRTP payload = []) then None
         else Some (extractOpusFromRTP payload) |}.
Proof.
  intros Hmode Hkey Hh Hs box Hsentinel.
  assert (Hopen : openPacket w (header ++ box ++ suffix)
                    (readUInt16BE header 2) (readUInt32BE header 4) = inr payload).
  { unfold openPacket. rewrite (bool_decide_eq_true_2 _ Hmode).
    rewrite bool_decide_eq_false_2 by (rewrite !length_app; lia).
    rewrite slice_last_suffix, slice_between_box by done.
    rewrite Hsentinel.
    assert (receiveNonce (header ++ box ++ suffix) suffix = receiveNonce header suffix)
      as ->.
    { unfold receiveNonce. rewrite take_app_length' by done.
      by rewrite firstn_all2 by lia. }
    subst box. rewrite open_sealed; [done| |done].
    unfold receiveNonce, alloc. rewrite firstn_all2 by lia.
    rewrite !length_app, repeat_length. lia. }
  rewrite (decode_opened w _ payload); cbn [ef_id ef_rtpPacket].
  - by rewrite readUInt16BE_app_l, readUInt32BE_app_l by lia.
  - rewrite length_app. lia.
  - by rewrite readUInt16BE_app_l, readUInt32BE_app_l by lia.
Qed.

End Opening.

(** X11.  The encoding worker answers a frame with an error exactly when
    the sequence number, the timestamp or the SSRC is not an unsigned
    integer of its field's width, or the Opus encoder throws; the counters
    it is given are written as they are, never reduced.  (The key has the
    32 bytes the box asks for.) *)
Theorem X11_encode_error_cases (w : EncoderWorker) (frame : AudioFrame) :
  length (ew_secretKey w) = 32%nat →
  encode w frame = EncodeError (af_id frame)
  ↔ ¬ (0 <= af_sequence frame <= 65535)
    ∨ ¬ (0 <= af_timestamp frame <= 4294967295)
    ∨ ¬ (0 <= ew_ssrc w <= 4294967295)
    ∨ opus_encode (af_pcmData frame) = None.
Proof.
  intros _. unfold encode, rtpHeader, assemblePacket, writeUInt16BE, writeUInt32BE.
  destruct (decide (0 <= af_sequence frame <= 65535)) as [Hs|Hs].
  2: { rewrite (bool_decide_eq_false_2 _ Hs). simpl. tauto. }
  rewrite (bool_decide_eq_true_2 _ Hs). cbn [mbind option_bind].
  destruct (decide (0 <= af_timestamp frame <= 4294967295)) as [Ht|Ht].
  2: { rewrite (bool_decide_eq_false_2 _ Ht). simpl. tauto. }
  rewrite (bool_decide_eq_true_2 _ Ht). cbn [mbind option_bind].
  destruct (decide (0 <= ew_ssrc w <= 4294967295)) as [Hc|Hc].
  2: { rewrite (bool_decide_eq_false_2 _ Hc). simpl. tauto. }
  rewrite (bool_decide_eq_true_2 _ Hc). cbn [mbind option_bind].
  destruct (opus_encode (af_pcmData frame)) as [opusData|].
  2: { simpl. tauto. }
  cbn [mbind option_bind].
  rewrite (bool_decide_eq_true_2 (0 <= af_sequence frame <= 4294967295)) by lia.
  case_bool_decide; simpl; split; try done; intros [?|[?|[?|?]]]; done.
Qed.

(** X12.  A packet of the encoding worker starts with the 12-byte RTP
    header as it was asked for: byte 0 is [0x80], byte 1 the payload type
    120, and sequence, timestamp and SSRC are read back from offsets 2, 4
    and 8 as the frame and the worker gave them; the answer carries the id
    of the frame. *)
Theorem X12_encoded_packet_header (w : EncoderWorker) (frame : AudioFrame) (id : Z)
    (rtpPacket : Buffer) :
  encode w frame = Encoded id rtpPacket →
  id = af_id frame
  ∧ (12 ≤ length rtpPacket)%nat
  ∧ at_ rtpPacket 0 = 0x80
  ∧ at_ rtpPacket 1 = 120
  ∧ readUInt16BE rtpPacket 2 = af_sequence frame
  ∧ readUInt32BE rtpPacket 4 = af_timestamp frame
  ∧ readUInt32BE rtpPacket 8 = ew_ssrc w.
Proof.
  unfold encode.
  destruct (rtpHeader (ew_ssrc w) (af_sequence frame) (af_timestamp frame))
    as [header|] eqn:Hh; [|done]. cbn [mbind option_bind].
  destruct (opus_encode (af_pcmData frame)) as [opusData|]; [|done].
  cbn [mbind option_bind].
  destruct (assemblePacket w header (af_sequence frame) opusData) as [packet|] eqn:Hp;
    [|done].
  intros [= <- <-].
  destruct (assemblePacket_header _ _ _ _ _ Hp) as (rest & ->).
  destruct (rtpHeader_read _ _ _ _ rest Hh) as [Hseq Hts].
  pose proof (rtpHeader_length _ _ _ _ Hh) as Hlen.
  destruct (rtpHeader_shape _ _ _ _ Hh) as (s & t & c & Hs & Ht & Hc & ->).
  repeat split; try done.
  - rewrite length_app. lia.
  - pose proof (writeUInt16BE_length _ _ Hs) as Hsl.
    pose proof (writeUInt32BE_length _ _ Ht) as Htl.
    replace (([x80; x78] ++ s ++ t ++ c) ++ rest)
      with (([x80; x78] ++ s ++ t) ++ c ++ rest) by (by rewrite <- !app_assoc).
    replace 8%nat with (length ([x80; x78] ++ s ++ t))
      by (rewrite !length_app, Hsl, Htl; reflexivity).
    by apply readUInt32BE_write.
Qed.

(** X13.  Outside the lite mode the two workers fit together: a packet of
    the encoding worker, given to the decoding worker, comes back with the
    sequence and timestamp of the frame, and the Opus decoder is handed the
    encoder's Opus data (stripped of what [extractOpusFromRTP] takes for an
    extension header). *)
Theorem X13_unencrypted_packet_round_trip (ew : EncoderWorker) (dw : DecoderWorker)
    (frame : AudioFrame) (opusData rtpPacket : Buffer) (id id' : Z) :
  ew_mode ew ≠ "xsalsa20_poly1305_lite" →
  dw_mode dw ≠ "xsalsa20_poly1305_lite" →
  opus_encode (af_pcmData frame) = Some opusData →
  encode ew frame = Encoded id rtpPacket →
  decode dw {| ef_id := id'; ef_rtpPacket := rtpPacket |} =
    {| reply :=
         Decoded {| df_id := id';
                    df_pcmData :=
                      if bool_decide (extractOpusFromRTP opusData = [])
                      then silenceFrame
                      else default silenceFrame (opus_decode (extractOpusFromRTP opusData));
                    df_sequence := af_sequence frame;
                    df_timestamp := af_timestamp frame |};
       decoderInput :=
         if bool_decide (extractOpusFromRTP opusData = []) then None
         else Some (extractOpusFromRTP opusData) |}.
Proof.
  intros Hew Hdw Hopus. unfold encode. rewrite Hopus.
  destruct (rtpHeader (ew_ssrc ew) (af_sequence frame) (af_timestamp frame))
    as [header|] eqn:Hh; [|done]. cbn [mbind option_bind].
  unfold assemblePacket. rewrite (bool_decide_eq_false_2 _ Hew).
  intros [= _ <-].
  pose proof (rtpHeader_length _ _ _ _ Hh) as Hlen.
  destruct (rtpHeader_read _ _ _ _ opusData Hh) as [Hseq Hts].
  rewrite (decode_opened dw _ opusData); cbn [ef_id ef_rtpPacket].
  - by rewrite Hseq, Hts.
  - rewrite length_app. lia.
  - unfold openPacket. rewrite (bool_decide_eq_false_2 _ Hdw).
    unfold slice_from. by rewrite drop_app_length'.
Qed.

End WorkerFacts.

Lemma X9_decode_error_cases_witness :
  let w := Sample.liteDecoder in
  let frame := {| ef_id := 2; ef_rtpPacket := Sample.version0Datagram |} in
  let rtpPacket := ef_rtpPacket frame in
  ((∃ id error, reply (decode (H := Ideal.native) w frame) = DecodeError id error)
   ↔ (length rtpPacket < 12)%nat
     ∨ dw_mode w = "xsalsa20_poly1305_lite"
       ∧ ((length rtpPacket < 16)%nat
          ∨ isLikelySilencePacket (readUInt16BE rtpPacket 2) (readUInt32BE rtpPacket 4)
                                  (slice_between 12 4 rtpPacket) = false
            ∧ secretbox_open (Native := Ideal.native) (slice_between 12 4 rtpPacket)
                             (receiveNonce rtpPacket (slice_last 4 rtpPacket))
                             (dw_secretKey w) = None))
  ∧ ∀ id error, reply (decode (H := Ideal.native) w frame) = DecodeError id error →
                id = ef_id frame.
Proof.
  apply (@X9_decode_error_cases Ideal.native Sample.liteDecoder
           {| ef_id := 2; ef_rtpPacket := Sample.version0Datagram |}).
  reflexivity.
Defined.

Lemma X11_encode_error_cases_witness :
  let frame := {| af_id := 6; af_pcmData := [x01; x02];
                  af_sequence := 65536; af_timestamp := 960 |} in
  encode (H := Ideal.native) Sample.liteEncoder frame = EncodeError (af_id frame)
  ↔ ¬ (0 <= af_sequence frame <= 65535)
    ∨ ¬ (0 <= af_timestamp frame <= 4294967295)
    ∨ ¬ (0 <= ew_ssrc Sample.liteEncoder <= 4294967295)
    ∨ opus_encode (Native := Ideal.native) (af_pcmData frame) = None.
Proof.
  apply (@X11_encode_error_cases Ideal.native Sample.liteEncoder
           {| af_id := 6; af_pcmData := [x01; x02];
              af_sequence := 65536; af_timestamp := 960 |}).
  reflexivity.
Defined.

Lemma ideal_open_sealed (message nonce key : Buffer) :
  length nonce = 24%nat → length key = 32%nat →
  Ideal.open (Ideal.seal message nonce key) nonce key = Some message.
Proof.
  intros _ _. unfold Ideal.open, Ideal.seal.
  rewrite app_assoc, <- length_app, take_app_length, drop_app_length.
  by rewrite bool_decide_eq_true_2.
Qed.

Lemma X10_packet_sealed_under_receive_nonce_opens_witness :
  let header := [x80; x78; x00; x08; x00; x00; x03; xc0; x00; x00; x00; x05] in
  let suffix := [x00; x00; x00; x08] in
  let payload := [x78; x01; x02; x03] in
  let box := Ideal.seal payload (receiveNonce header suffix) Sample.key in
  decode (H := Ideal.native) Sample.liteDecoder
         {| ef_id := 3; ef_rtpPacket := header ++ box ++ suffix |} =
    {| reply :=
         Decoded {| df_id := 3;
                    df_pcmData :=
                      if bool_decide (extractOpusFromRTP payload = [])
                      then silenceFrame
                      else default silenceFrame
                             (opus_decode (Native := Ideal.native)
                                (extractOpusFromRTP payload));
                    df_sequence := readUInt16BE header 2;
                    df_timestamp := readUInt32BE header 4 |};
       decoderInput :=
         if bool_decide (extractOpusFromRTP payload = []) then None
         else Some (extractOpusFromRTP payload) |}.
Proof.
  intros header suffix payload box.
  apply (@X10_packet_sealed_under_receive_nonce_opens Ideal.native ideal_open_sealed
           Sample.liteDecoder 3 header payload suffix); reflexivity.
Defined.

Lemma X12_encoded_packet_header_witness :
  let frame := {| af_id := 4; af_pcmData := [x78; x01; x02; x03];
                  af_sequence := 1; af_timestamp := 960 |} in
  4 = af_id frame
  ∧ (12 ≤ length Sample.idealPacket)%nat
  ∧ at_ Sample.idealPacket 0 = 0x80
  ∧ at_ Sample.idealPacket 1 = 120
  ∧ readUInt16BE Sample.idealPacket 2 = af_sequence frame
  ∧ readUInt32BE Sample.idealPacket 4 = af_timestamp frame
  ∧ readUInt32BE Sample.idealPacket 8 = ew_ssrc Sample.liteEncoder.
Proof.
  apply (@X12_encoded_packet_header Ideal.native Sample.liteEncoder
           {| af_id := 4; af_pcmData := [x78; x01; x02; x03];
              af_sequence := 1; af_timestamp := 960 |} 4 Sample.idealPacket).
  vm_compute. reflexivity.
Defined.

Lemma X13_unencrypted_packet_round_trip_witness :
  let frame := {| af_id := 4; af_pcmData := [x78; x01; x02; x03];
                  af_sequence := 1; af_timestamp := 960 |} in
  let rtpPacket := [x80; x78; x00; x01; x00; x00; x03; xc0; x00; x00; x00; x01;
                    x78; x01; x02; x03] in
  decode (H := Ideal.native) Sample.plainDecoder {| ef_id := 9; ef_rtpPacket := rtpPacket |} =
    {| reply :=
         Decoded {| df_id := 9;
                    df_pcmData :=
                      if bool_decide (extractOpusFromRTP [x78; x01; x02; x03] = [])
                      then silenceFrame
                      else default silenceFrame
                             (opus_decode (Native := Ideal.native)
                                (extractOpusFromRTP [x78; x01; x02; x03]));
                    df_sequence := af_sequence frame;
                    df_timestamp := af_timestamp frame |};
       decoderInput :=
         if bool_decide (extractOpusFromRTP [x78; x01; x02; x03] = []) then None
         else Some (extractOpusFromRTP [x78; x01; x02; x03]) |}.
Proof.
  intros frame rtpPacket.
  apply (@X13_unencrypted_packet_round_trip Ideal.native
           (encoder_init 1 Sample.key "plain") Sample.plainDecoder frame
           [x78; x01; x02; x03] rtpPacket 4 9).
  - vm_compute. discriminate.
  - vm_compute. discriminate.
  - reflexivity.
  - vm_compute. reflexivity.
Defined.

(** ** The handler, continued *)

Section Frames.

Import Handler.

(** A buffer of [n] whole frames is the concatenation of its frames. *)
Lemma concat_frames (size n : nat) (data : Buffer) :
  length data = (n * size)%nat →
  concat (map (λ i, take size (drop (i * size) data)) (seq 0 n)) = data.
Proof.
  revert data. induction n as [|n IH]; intros data Hlen.
  - by destruct data.
  - cbn [seq map concat]. rewrite <- seq_shift, map_map. rewrite drop_0.
    transitivity (take size data ++ drop size data); [|apply take_drop].
    f_equal.
    etransitivity; [|apply (IH (drop size data)); rewrite length_drop; lia].
    f_equal. apply map_ext. intros i. by rewrite drop_drop.
Qed.

Lemma frameCount_bounds (pcmData : Buffer) :
  (length pcmData ≤ frameCount pcmData * frameSize < length pcmData + frameSize)%nat.
Proof.
  unfold frameCount.
  assert (Hpos : (0 < frameSize)%nat) by (unfold frameSize; lia).
  pose proof (Nat.div_mod_eq (length pcmData + (frameSize - 1)) frameSize) as Hdm.
  pose proof (Nat.mod_upper_bound (length pcmData + (frameSize - 1)) frameSize
                ltac:(lia)) as Hm.
  revert Hdm Hm Hpos. generalize frameSize. intros size.
  generalize ((length pcmData + (size - 1)) / size)%nat.
  generalize ((length pcmData + (size - 1)) mod size)%nat.
  intros m q Hdm Hm Hpos. nia.
Qed.

Lemma frameAt_padded (pcmData : Buffer) (i : nat) :
  (i < frameCount pcmData)%nat →
  frameAt pcmData i
  = take frameSize
      (drop (i * frameSize)
         (pcmData ++ alloc (frameCount pcmData * frameSize - length pcmData))).
Proof.
  intros Hi. pose proof (frameCount_bounds pcmData) as [Hlo Hhi].
  assert (Hpos : (0 < frameSize)%nat) by (unfold frameSize; lia).
  unfold frameAt. revert Hlo Hhi Hi Hpos.
  generalize (frameCount pcmData) frameSize. intros n size Hlo Hhi Hi Hpos.
  assert (Hbefore : (i * size < length pcmData)%nat) by nia.
  rewrite drop_app_le by lia.
  destruct (decide (i * size + size ≤ length pcmData)%nat) as [Hfull|Hlast].
  - assert (Hx : ¬ (length (take size (drop (i * size) pcmData)) < size)%nat).
    { rewrite length_take, length_drop. lia. }
    rewrite (bool_decide_eq_false_2 _ Hx).
    assert (Hd : (size ≤ length (drop (i * size) pcmData))%nat)
      by (rewrite length_drop; lia).
    by rewrite take_app_le.
  - assert (Hn : (n * size = i * size + size)%nat).
    { destruct (decide (n = S i)) as [->|Hne]; [lia|].
      pose proof (Nat.mul_le_mono_r (i + 2) n size ltac:(lia)). lia. }
    assert (Hx : (length (take size (drop (i * size) pcmData)) < size)%nat).
    { rewrite length_take, length_drop. lia. }
    rewrite (bool_decide_eq_true_2 _ Hx).
    rewrite length_take, length_drop.
    assert (Hd : (length (drop (i * size) pcmData) ≤ size)%nat)
      by (rewrite length_drop; lia).
    rewrite (take_ge (drop (i * size) pcmData)) by done.
    rewrite take_app_ge by done.
    f_equal. unfold alloc. rewrite length_drop.
    replace (size - size `min` (length pcmData - i * size))%nat
      with (n * size - length pcmData)%nat by lia.
    replace (size - (length pcmData - i * size))%nat
      with (n * size - length pcmData)%nat by lia.
    by rewrite take_ge by (rewrite repeat_length; lia).
Qed.

(** X14.  [playAudio] cuts the PCM data into frames without losing or
    reordering a byte: the frames are 20 ms (3,840 bytes) each, there are
    as many as the length divided by 3,840 rounded up, and put end to end
    they are the PCM data followed by fewer than 3,840 zero bytes. *)
Theorem X14_splitFrames_partition (pcmData : Buffer) :
  let padding := (frameCount pcmData * frameSize - length pcmData)%nat in
  length (splitFrames pcmData) = frameCount pcmData
  ∧ Forall (λ frame, length frame = frameSize) (splitFrames pcmData)
  ∧ concat (splitFrames pcmData) = pcmData ++ alloc padding
  ∧ (padding < frameSize)%nat
  ∧ frameSize = 3840%nat.
Proof.
  intros padding. pose proof (frameCount_bounds pcmData) as [Hlo Hhi].
  assert (Hframes : splitFrames pcmData
                    = map (λ i, take frameSize (drop (i * frameSize)
                                                  (pcmData ++ alloc padding)))
                          (seq 0 (frameCount pcmData))).
  { unfold splitFrames. apply map_ext_in. intros i Hi%in_seq.
    apply frameAt_padded. lia. }
  assert (Hlen : length (pcmData ++ alloc padding) = (frameCount pcmData * frameSize)%nat).
  { unfold alloc. rewrite length_app, repeat_length. subst padding. lia. }
  split; [unfold splitFrames; by rewrite length_map, length_seq|].
  split.
  - rewrite Hframes. apply Forall_forall. intros frame Hin.
    apply list_elem_of_In, in_map_iff in Hin as (i & <- & Hi%in_seq).
    rewrite length_take, length_drop, Hlen.
    pose proof (Nat.mul_le_mono_r (S i) (frameCount pcmData) frameSize ltac:(lia)).
    lia.
  - split; [rewrite Hframes; by apply concat_frames|].
    split; [subst padding; lia | reflexivity].
Qed.

End Frames.

Section HandlerFacts.

Context `{Native}.

Import Handler.

Ltac fields h :=
  destruct h as [ws udp addr prt ssrc_ key mode_ ew dw sq ts sp queue sending
                 abm te disc lis fi tt eid did];
  cbn in *; subst.

(** X15.  The answer to the IP discovery is read as it is laid out: after
    the 8 bytes of type, length and SSRC, the address is the bytes up to
    the first zero byte, and the port is the big-endian number in the last
    two bytes; both go into the op 1 message together with the mode chosen
    at op 2, and the audio listener is installed. *)
Theorem X15_discovery_response_parsed (h : ThreadedWebRTCVoiceHandler)
    (head address_ portBytes : Buffer) (zeros : nat) (port_ : Z) :
  voiceWebsocket h = true →
  length head = 8%nat →
  Forall (λ b, Z_of_byte b ≠ 0) address_ →
  writeUInt16BE port_ = Some portBytes →
  onDiscoveryResponse h (head ++ address_ ++ alloc (S zeros) ++ portBytes)
  = (set_listening true (set_discovering false h),
     [WsSelectProtocol address_ port_ (default "" (mode h))]).
Proof.
  intros Hws Hhead Haddr Hport. unfold onDiscoveryResponse.
  pose proof (writeUInt16BE_length _ _ Hport) as Hpl.
  rewrite Hws. rewrite bool_decide_eq_false_2 by (rewrite !length_app; lia).
  cbn [orb negb]. do 3 f_equal.
  - unfold discoveredAddress. rewrite drop_app_length' by done.
    assert (Hfind : list_find (λ b, Z_of_byte b = 0)
                      (address_ ++ alloc (S zeros) ++ portBytes)
                    = Some (length address_, x00)).
    { apply list_find_Some.
      split; [by apply list_lookup_middle|].
      split; [done|]. intros j y Hj Hlt.
      rewrite lookup_app_l in Hj by done.
      by apply (Forall_lookup_1 _ _ _ _ Haddr Hj). }
    rewrite Hfind. by rewrite take_app_length.
  - replace (head ++ address_ ++ alloc (S zeros) ++ portBytes)
      with ((head ++ address_ ++ alloc (S zeros)) ++ portBytes ++ [])
      by (by rewrite app_nil_r, <- !app_assoc).
    replace (length ((head ++ address_ ++ alloc (S zeros)) ++ portBytes ++ []) - 2)%nat
      with (length (head ++ address_ ++ alloc (S zeros)))
      by (rewrite !length_app; simpl; lia).
    by apply readUInt16BE_write.
Qed.


Lemma onUdpMessage_disabled (h : ThreadedWebRTCVoiceHandler) now (packet : Buffer) :
  transcriptionEnabled h = false →
  audioBufferManager (onUdpMessage h now packet).1 = audioBufferManager h
  ∧ transcriptionEnabled (onUdpMessage h now packet).1 = false
  ∧ Forall (λ o, ∀ data, o ≠ EmitAudioReady data) (onUdpMessage h now packet).2.
Proof.
  intros Hoff. unfold onUdpMessage.
  destruct (discovering h) eqn:Hd.
  - unfold onDiscoveryResponse.
    destruct (bool_decide _ || negb _); cbn [fst snd].
    + clear Hd. fields h. by repeat split.
    + clear Hd. fields h. repeat split; try done. by repeat constructor.
  - destruct (listening h); [|by repeat split].
    unfold onAudioPacket, decodeFrame.
    destruct (reply _) as [decoded|id error].
    + assert (transcriptionEnabled (set_decodeFrameId (decodeFrameId h + 1) h) = false)
        as Hoff' by (clear Hd; fields h; done).
      assert (audioBufferManager (set_decodeFrameId (decodeFrameId h + 1) h)
              = audioBufferManager h) as Hm by (clear; fields h; done).
      rewrite Hoff'. cbn [andb].
      destruct (audioBufferManager (set_decodeFrameId _ _)) eqn:E; cbn [fst snd].
      all: (split; [congruence|]; split; [done|]; by repeat constructor).
    + cbn [fst snd]. clear Hd. fields h. by repeat split.
Qed.

(** X17.  With transcription switched off, datagrams add nothing to the
    buffer manager: whatever arrives on the socket, the manager (slots and
    armed timers) stays as it was, chunks buffered before the switch
    included, and no [audioReady] event comes out of the calls. *)
Theorem X17_transcription_off_buffers_nothing (h : ThreadedWebRTCVoiceHandler)
    (datagrams : list (Z * Buffer)) :
  transcriptionEnabled h = false →
  let '(h', out) := run h (map (λ d, UdpMessage d.1 d.2) datagrams) in
  audioBufferManager h' = audioBufferManager h
  ∧ transcriptionEnabled h' = false
  ∧ Forall (λ o, ∀ data, o ≠ EmitAudioReady data) out.
Proof.
  revert h. induction datagrams as [|[now packet] rest IH]; intros h Hoff.
  - by repeat split.
  - cbn [map run step fst snd].
    destruct (onUdpMessage_disabled h now packet Hoff) as (Hm & Hoff1 & Hout1).
    destruct (onUdpMessage h now packet) as [h1 out1]. cbn [fst snd] in *.
    specialize (IH h1 Hoff1). destruct (run h1 _) as [h2 out2].
    destruct IH as (Hm2 & Hoff2 & Hout2).
    split; [congruence|]. split; [done|]. by apply Forall_app.
Qed.

Lemma step_after_disconnect (h : ThreadedWebRTCVoiceHandler) (e : Event) :
  udpSocket h = false → discovering h = false → listening h = false →
  audioBufferManager h = None →
  AfterDisconnect.reaches e = true →
  (step h e).2 = []
  ∧ udpSocket (step h e).1 = false ∧ discovering (step h e).1 = false
  ∧ listening (step h e).1 = false ∧ audioBufferManager (step h e).1 = None.
Proof.
  intros Hudp Hd Hl Hm He. destruct e as [msg|now packet|pcm| |uid|enabled]; try done.
  - cbn [step]. unfold onUdpMessage. rewrite Hd, Hl. by repeat split.
  - cbn [step]. unfold playAudio. rewrite Hudp. by repeat split.
  - cbn [step]. unfold onSilenceTimer. rewrite Hm. by repeat split.
  - cbn [step fst snd]. unfold setTranscriptionEnabled. fields h. by repeat split.
Qed.

(** X18.  [disconnect] silences the handler.  Audio that was buffered for
    transcription is dropped without an [audioReady] event; afterwards
    [playAudio] throws, the transcription statistics are zero, and no
    datagram, silence timer or method call that still reaches the handler
    makes it send or emit anything. *)
Theorem X18_disconnect_silences_handler (h : ThreadedWebRTCVoiceHandler)
    (events : list Event) (pcmData : Buffer) (uid : string) :
  Forall (λ e, AfterDisconnect.reaches e = true) events →
  (run (HandlerOps.disconnect h) events).2 = []
  ∧ playAudio (HandlerOps.disconnect h) pcmData = NotReady
  ∧ buffered (HandlerOps.disconnect h) uid = []
  ∧ HandlerOps.getTranscriptionStats (HandlerOps.disconnect h) = (0%nat, 0%nat).
Proof.
  intros Hev.
  assert (Hoff : udpSocket (HandlerOps.disconnect h) = false
                 ∧ discovering (HandlerOps.disconnect h) = false
                 ∧ listening (HandlerOps.disconnect h) = false
                 ∧ audioBufferManager (HandlerOps.disconnect h) = None)
    by (clear; unfold HandlerOps.disconnect; fields h; done).
  split.
  - revert Hoff. generalize (HandlerOps.disconnect h). clear h.
    induction Hev as [|e events He _ IH]; intros h (Hudp & Hd & Hl & Hm); [done|].
    cbn [run].
    destruct (step_after_disconnect h e Hudp Hd Hl Hm He) as (Hout & Hoff1).
    destruct (step h e) as [h1 out1]. cbn [fst snd] in *.
    specialize (IH h1 Hoff1). destruct (run h1 events) as [h2 out2].
    cbn [snd] in *. by rewrite Hout, IH.
  - destruct Hoff as (Hudp & _ & _ & Hm).
    unfold playAudio, buffered, HandlerOps.getTranscriptionStats.
    by rewrite Hudp, Hm.
Qed.

(** X19.  A call of [playAudio] that completes while an earlier batch is
    still being transmitted starts nothing of its own: it replaces the queue
    under the running transmission and leaves its frame index where it
    was.  The frames of the earlier batch that were not yet sent are never
    sent, and of the new batch only the frames from that index on go out,
    followed by the op 5 message that ends the earlier batch. *)
Theorem X19_second_batch_replaces_queue (h h1 : ThreadedWebRTCVoiceHandler)
    (pcmData : Buffer) (out1 : list Output) :
  Log.playbackInvariant h →
  isSending h = true →
  playAudio h pcmData = Returned h1 out1 →
  out1 = []
  ∧ (encodeFrames h (splitFrames pcmData) []).2 = Some (sendQueue h1)
  ∧ frameIndex h1 = frameIndex h
  ∧ let '(h2, out2) :=
      run h1 (repeat TransmitTimer (S (length (sendQueue h1) - frameIndex h))) in
    out2 = map UdpSend (drop (frameIndex h) (sendQueue h1)) ++ [WsSpeaking 0 0 (ssrc h)]
    ∧ isSending h2 = false.
Proof.
  intros (Hws & Hsp & Htt) Hsending. unfold playAudio.
  destruct (negb (udpSocket h)); [done|].
  pose proof (encodeFrames_samePlayback (splitFrames pcmData) h []) as Hsame.
  destruct (encodeFrames h (splitFrames pcmData) []) as [h' [processed|]]; [|done].
  cbn [fst snd] in *.
  destruct Hsame as (Hws' & _ & Hssrc' & Hsp' & _ & Hs' & Hfi' & Htt').
  unfold startDirectTransmission.
  assert (isSending (set_sendQueue processed h') = true) as ->
    by (clear -Hs' Hsending; fields h'; congruence).
  cbn [orb]. intros [= <- <-].
  assert (Hq : sendQueue (set_sendQueue processed h') = processed)
    by (clear; fields h'; done).
  assert (Hfi : frameIndex (set_sendQueue processed h') = frameIndex h)
    by (clear -Hfi'; fields h'; done).
  split; [done|]. split; [by rewrite Hq|]. split; [done|].
  pose proof (transmit_rest (length (sendQueue (set_sendQueue processed h'))
                             - frameIndex (set_sendQueue processed h'))
                (set_sendQueue processed h')) as Hrest.
  rewrite Hfi in Hrest.
  destruct (run _ _) as [h2 out2].
  destruct Hrest as (-> & _ & Hs2 & _); try done.
  - clear -Hws Hws'. fields h'. congruence.
  - clear -Hsp Hsp' Hsending. fields h'. congruence.
  - clear -Hs' Hsending. fields h'. congruence.
  - clear -Htt Htt' Hsending. fields h'. congruence.
  - split; [|done]. do 3 f_equal. clear -Hssrc'. fields h'. done.
Qed.

(** X27.  Two decoded frames are buffered under the same speaker name
    exactly when their sequence numbers agree modulo 1000.  Consecutive
    packets of one stream therefore never share a slot, and packets of
    different streams do whenever their sequence numbers are 1000 apart. *)
Theorem X27_same_slot_iff_sequences_congruent (d d' : DecodedFrame) :
  0 <= df_sequence d →
  0 <= df_sequence d' →
  speakerOf d = speakerOf d' ↔ df_sequence d mod 1000 = df_sequence d' mod 1000.
Proof.
  intros Hd Hd'. unfold speakerOf.
  rewrite !Z.rem_mod_nonneg by lia. split.
  - intros Heq. cbn [String.append] in Heq. injection Heq as Heq.
    change (pretty (df_sequence d `mod` 1000) = pretty (df_sequence d' `mod` 1000)) in Heq.
    by apply (inj pretty) in Heq.
  - by intros ->.
Qed.

Lemma frameCount_positive (pcmData : Buffer) :
  pcmData ≠ [] → ∃ first rest, splitFrames pcmData = first :: rest.
Proof.
  intros Hne. unfold splitFrames.
  pose proof (frameCount_bounds pcmData) as [Hlo _].
  destruct (frameCount pcmData) as [|n].
  - destruct pcmData; [done|]. simpl in Hlo. lia.
  - simpl. eauto.
Qed.

(** X20.  A call of [playAudio] between op 2 and op 4, when the socket
    exists but the encoding worker has not been initialised, never
    completes: the worker answers the first frame with an error, nothing is
    queued or sent, and the call has used up one sequence number. *)
Theorem X20_playAudio_before_session_key (h : ThreadedWebRTCVoiceHandler)
    (pcmData : Buffer) :
  udpSocket h = true →
  encodingWorker h = None →
  pcmData ≠ [] →
  ∃ h1, playAudio h pcmData = Pending h1
        ∧ sequence h1 = sequence h + 1
        ∧ timestamp h1 = timestamp h
        ∧ sendQueue h1 = sendQueue h
        ∧ isSending h1 = isSending h
        ∧ speaking h1 = speaking h.
Proof.
  intros Hudp Hew Hne. unfold playAudio. rewrite Hudp. cbn [negb].
  destruct (frameCount_positive pcmData Hne) as (first & rest & ->).
  rewrite encodeFrames_cons. unfold encodeFrame.
  assert (encodingWorker (set_sequence (sequence h + 1) h) = None) as ->
    by (clear -Hew; fields h; done).
  eexists. split; [done|]. clear. fields h. by repeat split.
Qed.

End HandlerFacts.

Lemma X17_transcription_off_buffers_nothing_witness :
  let h := Handler.setTranscriptionEnabled false Sample.liteSession in
  let '(h', out) :=
    Handler.run (H := Ideal.native) h
        (map (λ d, Handler.UdpMessage d.1 d.2) [(10, Sample.version0Datagram)]) in
  Handler.audioBufferManager h' = Handler.audioBufferManager h
  ∧ Handler.transcriptionEnabled h' = false
  ∧ Forall (λ o, ∀ data, o ≠ Handler.EmitAudioReady data) out.
Proof.
  apply (@X17_transcription_off_buffers_nothing Ideal.native
           (Handler.setTranscriptionEnabled false Sample.liteSession)
           [(10, Sample.version0Datagram)]).
  reflexivity.
Defined.

Lemma X18_disconnect_silences_handler_witness :
  (Handler.run (H := Ideal.native) (HandlerOps.disconnect Sample.liteSession)
     [Handler.UdpMessage 10 Sample.version0Datagram; Handler.SilenceTimer "user_7";
      Handler.PlayAudio (alloc 3840)]).2 = []
  ∧ Handler.playAudio (H := Ideal.native) (HandlerOps.disconnect Sample.liteSession)
      (alloc 3840) = Handler.NotReady
  ∧ Handler.buffered (HandlerOps.disconnect Sample.liteSession) "user_7" = []
  ∧ HandlerOps.getTranscriptionStats (HandlerOps.disconnect Sample.liteSession)
    = (0%nat, 0%nat).
Proof.
  apply (@X18_disconnect_silences_handler Ideal.native Sample.liteSession
           [Handler.UdpMessage 10 Sample.version0Datagram; Handler.SilenceTimer "user_7";
            Handler.PlayAudio (alloc 3840)]
           (alloc 3840) "user_7").
  repeat constructor.
Defined.

Lemma X20_playAudio_before_session_key_witness :
  let h := (Handler.run (H := Ideal.native) (Handler.connect (Handler.new true))
              [Handler.VoiceMessageReceived
                 (Handler.Ready 1 "10.0.0.1" 50000 ["xsalsa20_poly1305_lite"]);
               Handler.UdpMessage 0 Sample.discoveryResponse]).1 in
  ∃ h1, Handler.playAudio (H := Ideal.native) h [x01; x02] = Handler.Pending h1
        ∧ Handler.sequence h1 = Handler.sequence h + 1
        ∧ Handler.timestamp h1 = Handler.timestamp h
        ∧ Handler.sendQueue h1 = Handler.sendQueue h
        ∧ Handler.isSending h1 = Handler.isSending h
        ∧ Handler.speaking h1 = Handler.speaking h.
Proof.
  apply (@X20_playAudio_before_session_key Ideal.native
           (Handler.run (H := Ideal.native) (Handler.connect (Handler.new true))
              [Handler.VoiceMessageReceived
                 (Handler.Ready 1 "10.0.0.1" 50000 ["xsalsa20_poly1305_lite"]);
               Handler.UdpMessage 0 Sample.discoveryResponse]).1
           [x01; x02]).
  - reflexivity.
  - reflexivity.
  - discriminate.
Defined.

Lemma X15_discovery_response_parsed_witness :
  Handler.onDiscoveryResponse (Handler.connect (Handler.new true))
    ([x00; x02; x00; x46; x00; x00; x00; x01] ++ [x31; x2e; x32; x2e; x33; x2e; x34]
       ++ alloc 57 ++ [xc3; x50])
  = (Handler.set_listening true
       (Handler.set_discovering false (Handler.connect (Handler.new true))),
     [Handler.WsSelectProtocol [x31; x2e; x32; x2e; x33; x2e; x34] 50000
        (default "" (Handler.mode (Handler.connect (Handler.new true))))]).
Proof.
  apply (X15_discovery_response_parsed (Handler.connect (Handler.new true))
           [x00; x02; x00; x46; x00; x00; x00; x01]
           [x31; x2e; x32; x2e; x33; x2e; x34] [xc3; x50] 56 50000).
  - reflexivity.
  - reflexivity.
  - repeat (constructor; [by vm_compute|]). constructor.
  - reflexivity.
Defined.


Lemma X19_second_batch_replaces_queue_witness :
  let h := Sample.played.1 in
  let h1 := Overlap.playedAgain.1 in
  Overlap.playedAgain.2 = []
  ∧ (Handler.encodeFrames (H := Ideal.native) h (Handler.splitFrames (alloc 3840)) []).2
    = Some (Handler.sendQueue h1)
  ∧ Handler.frameIndex h1 = Handler.frameIndex h
  ∧ let '(h2, out2) :=
      Handler.run (H := Ideal.native) h1
        (repeat Handler.TransmitTimer
           (S (length (Handler.sendQueue h1) - Handler.frameIndex h))) in
    out2 = map Handler.UdpSend (drop (Handler.frameIndex h) (Handler.sendQueue h1))
           ++ [Handler.WsSpeaking 0 0 (Handler.ssrc h)]
    ∧ Handler.isSending h2 = false.
Proof.
  apply (@X19_second_batch_replaces_queue Ideal.native Sample.played.1
           Overlap.playedAgain.1 (alloc 3840) Overlap.playedAgain.2).
  - vm_compute. done.
  - vm_compute. reflexivity.
  - vm_compute. reflexivity.
Defined.

Lemma X27_same_slot_iff_sequences_congruent_witness :
  Handler.speakerOf {| df_id := 0; df_pcmData := []; df_sequence := 7; df_timestamp := 0 |}
  = Handler.speakerOf {| df_id := 1; df_pcmData := []; df_sequence := 1007;
                         df_timestamp := 960 |}
  ↔ 7 mod 1000 = 1007 mod 1000.
Proof.
  apply (X27_same_slot_iff_sequences_congruent
           {| df_id := 0; df_pcmData := []; df_sequence := 7; df_timestamp := 0 |}
           {| df_id := 1; df_pcmData := []; df_sequence := 1007; df_timestamp := 960 |});
    simpl; lia.
Defined.

(** ** The jitter buffer *)

Section Jitter.

Import JitterBuffer JitterCalls.

Lemma call_bounded (j : JitterBuffer) (c : Call) :
  Z.of_nat (length (buffer j)) <= Z.max 1 (maxSize j) →
  Z.of_nat (length (buffer (call j c))) <= Z.max 1 (maxSize (call j c))
  ∧ maxSize (call j c) = maxSize j.
Proof.
  intros Hb. destruct c as [frame| |]; cbn [call].
  - unfold addFrame. case_bool_decide as Hfull; cbn [buffer maxSize]; (split; [|done]).
    + rewrite length_app. destruct (buffer j); simpl in *; lia.
    + rewrite length_app. simpl. lia.
  - unfold getFrame. destruct (buffer j) as [|first rest] eqn:E.
    + cbn. split; [lia|done].
    + case_bool_decide; cbn [fst buffer maxSize].
      * rewrite E. by split.
      * simpl in Hb. split; [lia|done].
  - cbn. split; [lia|done].
Qed.

(** X21.  The jitter buffer never holds more frames than its maximum (one
    frame, if the maximum is below one): this holds after any sequence of
    [addFrame], [getFrame] and [clear] on a new buffer. *)
Theorem X21_jitter_buffer_bounded (targetSize_ maxSize_ : Z) (cs : list Call) :
  Z.of_nat (length (buffer (calls (new targetSize_ maxSize_) cs))) <= Z.max 1 maxSize_.
Proof.
  unfold calls.
  assert (Hnew : Z.of_nat (length (buffer (new targetSize_ maxSize_)))
                 <= Z.max 1 (maxSize (new targetSize_ maxSize_))
                 ∧ maxSize (new targetSize_ maxSize_) = maxSize_) by (cbn; lia).
  revert Hnew. generalize (new targetSize_ maxSize_).
  induction cs as [|c cs IH]; intros j [Hb Hm].
  - cbn [foldl]. lia.
  - cbn [foldl]. apply IH. destruct (call_bounded j c Hb) as [Hb' Hm']. split; [done|lia].
Qed.

Lemma addFrames_cons (j : JitterBuffer) frame (frames : list Buffer) :
  addFrames j (frame :: frames) = addFrames (addFrame j frame) frames.
Proof. reflexivity. Qed.

Lemma addFrames_window (frames : list Buffer) :
  ∀ j, 1 <= maxSize j →
       Z.of_nat (length (buffer j)) <= maxSize j →
       let over := (length (buffer j) + length frames - Z.to_nat (maxSize j))%nat in
       buffer (addFrames j frames) = drop over (buffer j ++ frames)
       ∧ overrunCount (addFrames j frames) = (overrunCount j + over)%nat
       ∧ underrunCount (addFrames j frames) = underrunCount j
       ∧ targetSize (addFrames j frames) = targetSize j
       ∧ maxSize (addFrames j frames) = maxSize j.
Proof.
  induction frames as [|frame frames IH]; intros j Hmax Hlen over.
  - subst over. cbn [addFrames foldl length].
    replace (length (buffer j) + 0 - Z.to_nat (maxSize j))%nat with 0%nat by lia.
    rewrite app_nil_r, drop_0. repeat split; lia.
  - rewrite addFrames_cons.
    assert (Hstep : 1 <= maxSize (addFrame j frame)
                    ∧ Z.of_nat (length (buffer (addFrame j frame)))
                      <= maxSize (addFrame j frame)).
    { unfold addFrame. case_bool_decide; cbn [buffer maxSize]; (split; [done|]).
      - rewrite length_app. destruct (buffer j); simpl in *; lia.
      - rewrite length_app. simpl. lia. }
    destruct Hstep as [Hmax1 Hlen1].
    destruct (IH (addFrame j frame) Hmax1 Hlen1) as (Hb & Ho & Hu & Ht & Hm).
    rewrite Hb, Ho, Hu, Ht, Hm. subst over. clear IH Hb Ho Hu Ht Hm Hmax1 Hlen1.
    unfold addFrame. case_bool_decide as Hfull; cbn [buffer maxSize overrunCount
                                                       underrunCount targetSize].
    + destruct (buffer j) as [|first rest] eqn:E; [simpl in *; lia|].
      cbn [tail length] in *. rewrite !length_app. cbn [length].
      rewrite <- app_assoc. cbn [app].
      replace (S (length rest) + S (length frames) - Z.to_nat (maxSize j))%nat
        with (S (length rest + 1 + length frames - Z.to_nat (maxSize j)))%nat by lia.
      cbn [drop]. repeat split; lia.
    + rewrite !length_app. cbn [length]. rewrite <- app_assoc. cbn [app].
      replace (length (buffer j) + 1 + length frames - Z.to_nat (maxSize j))%nat
        with (length (buffer j) + S (length frames) - Z.to_nat (maxSize j))%nat by lia.
      repeat split; lia.
Qed.

(** X22.  Overrun keeps the newest frames.  After any frames are added to
    a new buffer with a maximum of at least one, the buffer holds the last
    [maxSize] of them in order, and the overrun counter is the number of
    frames that were dropped from the front. *)
Theorem X22_overrun_keeps_newest_frames (targetSize_ maxSize_ : Z)
    (frames : list Buffer) :
  1 <= maxSize_ →
  let j := addFrames (new targetSize_ maxSize_) frames in
  let dropped := (length frames - Z.to_nat maxSize_)%nat in
  buffer j = drop dropped frames
  ∧ overrunCount j = dropped
  ∧ underrunCount j = 0%nat.
Proof.
  intros Hmax j dropped.
  destruct (addFrames_window frames (new targetSize_ maxSize_)) as (Hb & Ho & Hu & _);
    [done|cbn; lia|].
  cbn [new buffer overrunCount underrunCount maxSize length app] in Hb, Ho, Hu.
  by repeat split.
Qed.

Lemma X22_overrun_keeps_newest_frames_witness :
  let j := addFrames (new 1 2) [[x01]; [x02]; [x03]] in
  let dropped := (length [[x01]; [x02]; [x03]] - Z.to_nat 2)%nat in
  buffer j = drop dropped [[x01]; [x02]; [x03]]
  ∧ overrunCount j = dropped
  ∧ underrunCount j = 0%nat.
Proof.
  apply (X22_overrun_keeps_newest_frames 1 2 [[x01]; [x02]; [x03]]). lia.
Defined.

Lemma getFrames_S (n : nat) (j : JitterBuffer) :
  getFrames (S n) j =
    let '(j1, frame) := getFrame j in
    let '(j2, frames) := getFrames n j1 in
    (j2, frame :: frames).
Proof. reflexivity. Qed.

(** Readers of a buffer that nobody writes to. *)
Lemma getFrames_fifo (k : nat) :
  ∀ j,
    let held := Z.to_nat (targetSize j - 1) in
    let ready := (length (buffer j) - held)%nat in
    (getFrames k j).2
    = map Some (take k (take ready (buffer j))) ++ replicate (k - ready) None
    ∧ buffer (getFrames k j).1 = drop (k `min` ready) (buffer j)
    ∧ overrunCount (getFrames k j).1 = overrunCount j.
Proof.
  induction k as [|k IH]; intros j held ready.
  - cbn [getFrames fst snd]. rewrite take_0. by repeat split.
  - rewrite getFrames_S. unfold getFrame.
    destruct (buffer j) as [|first rest] eqn:E.
    + specialize (IH {| buffer := []; targetSize := targetSize j; maxSize := maxSize j;
                        underrunCount := S (underrunCount j);
                        overrunCount := overrunCount j |}).
      cbn [buffer targetSize overrunCount length] in IH.
      destruct (getFrames k _) as [j2 out]. cbn [fst snd] in *.
      destruct IH as (-> & -> & ->).
      subst ready. cbn [length]. rewrite !take_nil, !drop_nil. cbn [map app].
      replace (0 - held)%nat with 0%nat by lia.
      replace (0 - Z.to_nat (targetSize j - 1))%nat with 0%nat by lia.
      rewrite !Nat.sub_0_r. by repeat split.
    + case_bool_decide as Hwait.
      * specialize (IH j). rewrite E in IH. fold held in IH.
        destruct (getFrames k j) as [j2 out]. cbn [fst snd] in *.
        destruct IH as (-> & -> & ->). subst ready.
        assert (length (first :: rest) - held = 0)%nat as -> by (subst held; lia).
        rewrite !take_0, !take_nil, !Nat.sub_0_r, !Nat.min_0_r. by repeat split.
      * specialize (IH {| buffer := rest; targetSize := targetSize j;
                          maxSize := maxSize j; underrunCount := underrunCount j;
                          overrunCount := overrunCount j |}).
        cbn [buffer targetSize overrunCount] in IH. fold held in IH.
        destruct (getFrames k _) as [j2 out]. cbn [fst snd] in *.
        destruct IH as (-> & -> & ->). subst ready.
        assert (length (first :: rest) - held = S (length rest - held))%nat as ->
          by (subst held; cbn [length] in *; lia).
        cbn [take map app drop Nat.min Nat.sub]. by repeat split.
Qed.

(** X23.  The jitter buffer delivers in arrival order and holds the tail
    back.  After frames are added to a new buffer without overrun, [k]
    calls of [getFrame] return the frames in the order they were added,
    except the last [targetSize - 1] of them, which stay in the buffer;
    every further call returns [null]. *)
Theorem X23_getFrame_delivers_in_order (targetSize_ maxSize_ : Z)
    (frames : list Buffer) (k : nat) :
  Z.of_nat (length frames) <= maxSize_ →
  let held := Z.to_nat (targetSize_ - 1) in
  let ready := take (length frames - held) frames in
  let '(j, out) := getFrames k (addFrames (new targetSize_ maxSize_) frames) in
  out = map Some (take k ready) ++ replicate (k - length ready) None
  ∧ buffer j = drop (k `min` length ready) frames.
Proof.
  intros Hfit held ready.
  destruct (decide (frames = [])) as [->|Hne].
  { pose proof (getFrames_fifo k (new targetSize_ maxSize_)) as Hk.
    cbn [addFrames foldl]. destruct (getFrames k _) as [j out]. cbn [fst snd] in Hk.
    destruct Hk as (-> & -> & _). cbn [new buffer targetSize length].
    subst ready. cbn [length]. by rewrite !take_nil. }
  assert (Hmax : 1 <= maxSize_)
    by (destruct frames; [done|cbn [length] in Hfit; lia]).
  destruct (addFrames_window frames (new targetSize_ maxSize_)) as (Hb & _ & _ & Ht & _);
    [done|cbn; lia|].
  cbn [new buffer targetSize maxSize length app] in Hb, Ht.
  replace (0 + length frames - Z.to_nat maxSize_)%nat with 0%nat in Hb by lia.
  rewrite drop_0 in Hb.
  pose proof (getFrames_fifo k (addFrames (new targetSize_ maxSize_) frames)) as Hk.
  rewrite Hb, Ht in Hk. fold held in Hk.
  destruct (getFrames k _) as [j out]. cbn [fst snd] in Hk.
  destruct Hk as (-> & -> & _). subst ready.
  rewrite length_take. replace (((length frames - held) `min` length frames))%nat
    with (length frames - held)%nat by lia.
  done.
Qed.

End Jitter.

Lemma X23_getFrame_delivers_in_order_witness :
  let held := Z.to_nat (3 - 1) in
  let ready := take (length [[x01]; [x02]; [x03]; [x04]] - held)
                    [[x01]; [x02]; [x03]; [x04]] in
  let '(j, out) :=
    JitterBuffer.getFrames 3
      (JitterBuffer.addFrames (JitterBuffer.new 3 10) [[x01]; [x02]; [x03]; [x04]]) in
  out = map Some (take 3 ready) ++ replicate (3 - length ready) None
  ∧ JitterBuffer.buffer j = drop (3 `min` length ready) [[x01]; [x02]; [x03]; [x04]].
Proof.
  apply (X23_getFrame_delivers_in_order 3 10 [[x01]; [x02]; [x03]; [x04]] 3).
  simpl. lia.
Defined.

(** ** The encoder of the main thread *)

Section MainThreadEncoder.

Context `{Native}.

Import EncryptedAudioEncoder.

(** The encoding worker that frames and seals with the fields of [e]. *)
Lemma createAudioPacket_sealPacket (e : EncryptedAudioEncoder) (pcmData opusData : Buffer) :
  opus_encode pcmData = Some opusData →
  snd <$> createAudioPacket e pcmData
  = sealPacket {| ew_opusEncoder := opusEncoder e; ew_secretKey := secretKey e;
                  ew_ssrc := ssrc e; ew_mode := mode e |}
               (sequence e) (timestamp e) opusData.
Proof.
  intros Hopus. unfold createAudioPacket, sealPacket, assemblePacket. rewrite Hopus.
  cbn [ew_ssrc ew_mode ew_secretKey].
  destruct (rtpHeader (ssrc e) (sequence e) (timestamp e)) as [header|]; [|done].
  cbn [mbind option_bind]. case_bool_decide; [|done].
  by destruct (writeUInt32BE (sequence e)).
Qed.

Lemma createAudioPacket_counters (e e' : EncryptedAudioEncoder) (pcmData packet : Buffer) :
  createAudioPacket e pcmData = Some (e', packet) →
  0 <= sequence e <= 65535
  ∧ 0 <= timestamp e <= 4294967295
  ∧ sequence e' = (sequence e + 1) mod 65536
  ∧ timestamp e' = timestamp e + 960
  ∧ ssrc e' = ssrc e ∧ secretKey e' = secretKey e ∧ mode e' = mode e
  ∧ readUInt16BE packet 2 = sequence e
  ∧ readUInt32BE packet 4 = timestamp e.
Proof.
  unfold createAudioPacket.
  destruct (rtpHeader (ssrc e) (sequence e) (timestamp e)) as [header|] eqn:Hh; [|done].
  cbn [mbind option_bind].
  destruct (opus_encode pcmData) as [opusData|]; [|done]. cbn [mbind option_bind].
  destruct (rtpHeader_shape _ _ _ _ Hh) as (s & t & c & Hs & Ht & _ & _).
  assert (Hseq : 0 <= sequence e <= 65535) by (by eapply writeUInt16BE_range).
  assert (Hts : 0 <= timestamp e <= 4294967295)
    by (unfold writeUInt32BE in Ht; by case_bool_decide).
  assert (Hpacket : ∀ rest, readUInt16BE (header ++ rest) 2 = sequence e
                            ∧ readUInt32BE (header ++ rest) 4 = timestamp e)
    by (intros rest; by eapply rtpHeader_read).
  change 65535 with (Z.ones 16) at 1. 
  case_bool_decide.
  - destruct (writeUInt32BE (sequence e)) as [nonceBuffer|]; [|done].
    cbn [mbind option_bind]. intros [= <- <-]. cbn.
    rewrite Z.land_ones by lia. destruct (Hpacket (secretbox opusData (nonceBuffer ++ alloc 20) (secretKey e) ++ nonceBuffer)).
    repeat split; try done; lia.
  - cbn [mbind option_bind]. intros [= <- <-]. cbn.
    rewrite Z.land_ones by lia. destruct (Hpacket opusData).
    repeat split; try done; lia.
Qed.

Lemma createAudioPackets_cons (e : EncryptedAudioEncoder) (pcmData : Buffer)
    (rest : list Buffer) :
  createAudioPackets e (pcmData :: rest) =
    '(e1, packet) ← createAudioPacket e pcmData;
    '(e2, packets) ← createAudioPackets e1 rest;
    Some (e2, packet :: packets).
Proof. reflexivity. Qed.

Lemma createAudioPackets_numbering (frames : list Buffer) :
  ∀ (e e' : EncryptedAudioEncoder) (packets : list Buffer),
    0 <= sequence e <= 65535 →
    createAudioPackets e frames = Some (e', packets) →
    length packets = length frames
    ∧ sequence e' = (sequence e + Z.of_nat (length frames)) mod 65536
    ∧ timestamp e' = timestamp e + 960 * Z.of_nat (length frames)
    ∧ (frames ≠ [] →
       timestamp e + 960 * (Z.of_nat (length frames) - 1) <= 4294967295)
    ∧ ∀ (i : nat) packet, packets !! i = Some packet →
        readUInt16BE packet 2 = (sequence e + Z.of_nat i) mod 65536
        ∧ readUInt32BE packet 4 = timestamp e + 960 * Z.of_nat i.
Proof.
  induction frames as [|pcmData rest IH]; intros e e' packets Hrange.
  - cbn [createAudioPackets]. intros [= <- <-]. cbn [length].
    rewrite Z.add_0_r, Z.mod_small by lia. repeat split; try done; lia.
  - rewrite createAudioPackets_cons.
    destruct (createAudioPacket e pcmData) as [[e1 packet]|] eqn:H1; [|done].
    cbn [mbind option_bind].
    destruct (createAudioPackets e1 rest) as [[e2 packets']|] eqn:H2; [|done].
    cbn [mbind option_bind]. intros [= <- <-].
    destruct (createAudioPacket_counters _ _ _ _ H1)
      as (_ & Hts & Hs1 & Ht1 & _ & _ & _ & Hp16 & Hp32).
    destruct (IH e1 e2 packets') as (Hlen & Hs2 & Ht2 & Hlast & Hnum);
      [rewrite Hs1; pose proof (Z.mod_pos_bound (sequence e + 1) 65536); lia | done |].
    cbn [length]. split; [lia|]. split.
    { rewrite Hs2, Hs1, Zplus_mod_idemp_l. f_equal. lia. }
    split; [lia|]. split.
    { intros _. destruct rest as [|second rest']; [cbn [length]; lia|].
      specialize (Hlast ltac:(done)). lia. }
    intros [|i] packet' Hi.
    + injection Hi as <-. rewrite Hp16, Hp32, Z.add_0_r, Z.mod_small by lia. lia.
    + destruct (Hnum i packet' Hi) as [-> ->].
      rewrite Hs1, Zplus_mod_idemp_l. split; [f_equal|]; lia.
Qed.

(** X24.  [EncryptedAudioEncoder] wraps its sequence number.  When a
    series of calls of [createAudioPacket] succeeds, the packets carry the
    sequence numbers [s, s+1, ...] reduced modulo 65,536 and timestamps 960
    apart, and the counters afterwards continue the series: unlike the
    encoding worker, which is handed an unreduced counter, this encoder
    goes from 65,535 to 0. *)
Theorem X24_main_thread_encoder_wraps_sequence (e e' : EncryptedAudioEncoder)
    (frames packets : list Buffer) :
  0 <= sequence e <= 65535 →
  createAudioPackets e frames = Some (e', packets) →
  length packets = length frames
  ∧ sequence e' = (sequence e + Z.of_nat (length frames)) mod 65536
  ∧ timestamp e' = timestamp e + 960 * Z.of_nat (length frames)
  ∧ ∀ (i : nat) packet, packets !! i = Some packet →
      readUInt16BE packet 2 = (sequence e + Z.of_nat i) mod 65536
      ∧ readUInt32BE packet 4 = timestamp e + 960 * Z.of_nat i.
Proof.
  intros Hrange Hall.
  destruct (createAudioPackets_numbering frames e e' packets Hrange Hall)
    as (? & ? & ? & _ & ?).
  done.
Qed.

(** X25.  [EncryptedAudioEncoder] does not wrap its timestamp: it grows by
    960 with every packet and is written with [writeUInt32BE], so a series
    of calls whose last timestamp would exceed 4,294,967,295 does not
    complete; one of the calls throws. *)
Theorem X25_main_thread_encoder_timestamp_overflow (e : EncryptedAudioEncoder)
    (frames : list Buffer) :
  0 <= sequence e <= 65535 →
  frames ≠ [] →
  4294967295 < timestamp e + 960 * (Z.of_nat (length frames) - 1) →
  createAudioPackets e frames = None.
Proof.
  intros Hrange Hne Hover.
  destruct (createAudioPackets e frames) as [[e' packets]|] eqn:Hall; [|done].
  destruct (createAudioPackets_numbering frames e e' packets Hrange Hall)
    as (_ & _ & _ & Hlast & _).
  specialize (Hlast Hne). lia.
Qed.

(** X26.  On the same Opus data the two encoders build the same packet:
    what [createAudioPacket] returns is what the encoding worker makes of
    the data for the encoder's SSRC, key, mode, sequence number and
    timestamp (and it throws where the worker answers with an error). *)
Theorem X26_main_thread_encoder_frames_like_worker (e : EncryptedAudioEncoder)
    (pcmData opusData : Buffer) :
  opus_encode pcmData = Some opusData →
  let w := {| ew_opusEncoder := opusEncoder e; ew_secretKey := secretKey e;
              ew_ssrc := ssrc e; ew_mode := mode e |} in
  snd <$> createAudioPacket e pcmData = sealPacket w (sequence e) (timestamp e) opusData
  ∧ ∀ id,
      encode w {| af_id := id; af_pcmData := pcmData;
                  af_sequence := sequence e; af_timestamp := timestamp e |}
      = match createAudioPacket e pcmData with
        | Some (_, packet) => Encoded id packet
        | None => EncodeError id
        end.
Proof.
  intros Hopus w. pose proof (createAudioPacket_sealPacket e pcmData opusData Hopus) as Hs.
  fold w in Hs. split; [done|]. intros id.
  rewrite (encode_sealPacket w _ opusData) by done.
  cbn [af_sequence af_timestamp af_id]. rewrite <- Hs.
  by destruct (createAudioPacket e pcmData) as [[? ?]|].
Qed.

End MainThreadEncoder.

Lemma X24_main_thread_encoder_wraps_sequence_witness :
  let e := {| EncryptedAudioEncoder.opusEncoder :=
                EncryptedAudioEncoder.opusEncoder
                  (EncryptedAudioEncoder.new 1 Sample.key "plain");
              EncryptedAudioEncoder.sequence := 65535;
              EncryptedAudioEncoder.timestamp := 960;
              EncryptedAudioEncoder.ssrc := 1;
              EncryptedAudioEncoder.secretKey := Sample.key;
              EncryptedAudioEncoder.mode := "plain" |} in
  ∃ e' packets,
    EncryptedAudioEncoder.createAudioPackets (H := Ideal.native) e [[x01]; [x02]]
    = Some (e', packets)
    ∧ length packets = 2%nat
    ∧ EncryptedAudioEncoder.sequence e' = (65535 + 2) mod 65536
    ∧ EncryptedAudioEncoder.timestamp e' = 960 + 960 * 2
    ∧ ∀ (i : nat) packet, packets !! i = Some packet →
        readUInt16BE packet 2 = (65535 + Z.of_nat i) mod 65536
        ∧ readUInt32BE packet 4 = 960 + 960 * Z.of_nat i.
Proof.
  intros e. eexists _, _. split; [vm_compute; reflexivity|].
  apply (@X24_main_thread_encoder_wraps_sequence Ideal.native e _ [[x01]; [x02]] _).
  - simpl. lia.
  - vm_compute. reflexivity.
Defined.

Lemma X25_main_thread_encoder_timestamp_overflow_witness :
  EncryptedAudioEncoder.createAudioPackets (H := Ideal.native)
    {| EncryptedAudioEncoder.opusEncoder :=
         EncryptedAudioEncoder.opusEncoder
           (EncryptedAudioEncoder.new 1 Sample.key "plain");
       EncryptedAudioEncoder.sequence := 5;
       EncryptedAudioEncoder.timestamp := 4294967000;
       EncryptedAudioEncoder.ssrc := 1;
       EncryptedAudioEncoder.secretKey := Sample.key;
       EncryptedAudioEncoder.mode := "plain" |}
    [[x01]; [x02]]
  = None.
Proof.
  apply (@X25_main_thread_encoder_timestamp_overflow Ideal.native).
  - simpl. lia.
  - discriminate.
  - simpl. lia.
Defined.

Lemma X26_main_thread_encoder_frames_like_worker_witness :
  let e := EncryptedAudioEncoder.new 1 Sample.key "xsalsa20_poly1305_lite" in
  let w := {| ew_opusEncoder := EncryptedAudioEncoder.opusEncoder e;
              ew_secretKey := EncryptedAudioEncoder.secretKey e;
              ew_ssrc := EncryptedAudioEncoder.ssrc e;
              ew_mode := EncryptedAudioEncoder.mode e |} in
  snd <$> EncryptedAudioEncoder.createAudioPacket (H := Ideal.native) e [x01; x02]
  = sealPacket (H := Ideal.native) w (EncryptedAudioEncoder.sequence e)
      (EncryptedAudioEncoder.timestamp e) [x01; x02]
  ∧ ∀ id,
      encode (H := Ideal.native) w
        {| af_id := id; af_pcmData := [x01; x02];
           af_sequence := EncryptedAudioEncoder.sequence e;
           af_timestamp := EncryptedAudioEncoder.timestamp e |}
      = match EncryptedAudioEncoder.createAudioPacket (H := Ideal.native) e [x01; x02] with
        | Some (_, packet) => Encoded id packet
        | None => EncodeError id
        end.
Proof.
  apply (@X26_main_thread_encoder_frames_like_worker Ideal.native
           (EncryptedAudioEncoder.new 1 Sample.key "xsalsa20_poly1305_lite")
           [x01; x02] [x01; x02]).
  reflexivity.
Defined.
